(** * Verification of the distgo clean command and of the manual dister

    Shallow embedding of
      - [vendor/github.com/palantir/godel/apps/distgo/cmd/clean/clean.go]
        ([Products], [Run], [removeDirIfEmpty], [cleanBinOutput]), and
      - the manual dister ([Artifacts], [GenerateDistArtifacts]).

    Go strings are Rocq strings, Go maps are [gmap] and [gset].  The
    functions of Go's standard library that the code calls ([path],
    [strings], [sort], [os], [ioutil]) are modelled first, on a file
    system given as a finite map; the functions of the repository
    follow, statement by statement, in a state and error monad.  The
    second half of the file proves the properties of the clean-up: what
    [removeDirIfEmpty] does, where the walk up from a removed path
    stops, what a second run finds, and how a dry run relates to a real
    run; then which paths [Run] plans to remove, what it leaves alone,
    how it can fail, and how [Products] runs it for several products. *)

From Stdlib Require Import Ascii String.
From stdpp Require Import gmap strings list fin_maps sorting.


(* ===================================================================== *)
(** ** Go's [strings] and [path] packages *)
(* ===================================================================== *)

Module GoStrings.

(** [strings.HasPrefix s prefix] *)
Fixpoint HasPrefix (s pre : string) {struct pre} : bool :=
  match pre, s with
  | EmptyString, _ => true
  | String _ _, EmptyString => false
  | String c pre', String d s' => Ascii.eqb c d && HasPrefix s' pre'
  end.

(** [strings.Contains s substr]: [substr] occurs somewhere within [s]. *)
Fixpoint Contains (s substr : string) : bool :=
  HasPrefix s substr ||
  match s with
  | EmptyString => false
  | String _ s' => Contains s' substr
  end.

(** Order used by [sort.Strings]: bytewise lexicographic. *)
Definition le (s t : string) : Prop := String.leb s t = true.

#[export] Instance le_dec : RelDecision le.
Proof. intros s t. unfold le. apply _. Defined.

(** [sort.Strings] *)
Definition Sort (l : list string) : list string := merge_sort le l.

End GoStrings.

Module GoPath.

Definition is_slash (c : ascii) : bool := Ascii.eqb c "/".

Fixpoint has_slash (s : string) : bool :=
  match s with
  | EmptyString => false
  | String c s' => is_slash c || has_slash s'
  end.

(** The elements of a path: the substrings between slashes. *)
Fixpoint elems (s : string) : list string :=
  match s with
  | EmptyString => [EmptyString]
  | String c s' =>
      if is_slash c then EmptyString :: elems s'
      else match elems s' with
           | [] => [String c EmptyString]
           | h :: t => String c h :: t
           end
  end.

Fixpoint join (l : list string) : string :=
  match l with
  | [] => EmptyString
  | [x] => x
  | x :: l' => x +:+ "/" +:+ join l'
  end.

(** The loop of [path.Clean] on the elements of the path; [out] is the
    output buffer, last element first.  Empty and [.] elements are
    dropped, [..] removes the element before it when there is one to
    remove, is dropped at the top of a rooted path and is kept
    otherwise. *)
Fixpoint clean_loop (rooted : bool) (es : list string) (out : list string)
  : list string :=
  match es with
  | [] => rev out
  | e :: es' =>
      if bool_decide (e = "") || bool_decide (e = ".") then
        clean_loop rooted es' out
      else if bool_decide (e = "..") then
        match out with
        | top :: out' =>
            if bool_decide (top = "..") then clean_loop rooted es' (e :: out)
            else clean_loop rooted es' out'
        | [] =>
            if rooted then clean_loop rooted es' []
            else clean_loop rooted es' [e]
        end
      else clean_loop rooted es' (e :: out)
  end.

(** [path.Clean] *)
Definition Clean (p : string) : string :=
  match p with
  | EmptyString => "."
  | String c _ =>
      let body := join (clean_loop (is_slash c) (elems p) []) in
      let r := if is_slash c then "/" +:+ body else body in
      if bool_decide (r = "") then "." else r
  end.

(** First result of [path.Split]: everything up to and including the
    final slash. *)
Fixpoint split_dir (s : string) : string :=
  match s with
  | EmptyString => EmptyString
  | String c s' =>
      if is_slash c || has_slash s' then String c (split_dir s')
      else EmptyString
  end.

(** [path.Dir] *)
Definition Dir (p : string) : string := Clean (split_dir p).

(** [path.Base] *)
Definition Base (p : string) : string :=
  match p with
  | EmptyString => "."
  | _ => List.last (List.filter (fun e => negb (bool_decide (e = ""))) (elems p)) "/"
  end.

(** [path.Join]: empty elements are ignored, the rest is joined with
    slashes and cleaned; the result is empty when every element is. *)
Fixpoint Join (es : list string) : string :=
  match es with
  | [] => EmptyString
  | e :: es' =>
      if bool_decide (e = "") then Join es' else Clean (join es)
  end.

End GoPath.


(* ===================================================================== *)
(** ** The file system and Go's [os] and [ioutil] packages *)
(* ===================================================================== *)

(** A file system maps the element list of an absolute path to the kind
  of the file found there ([true]: directory).  All files are looked up
  by name only: there are no links, no permissions and no other
  process, so that a call fails for structural reasons only (missing
  file, file in place of a directory, directory not empty, a path that
  the call refuses).  The top directory ["/"] is the key [[]]; it is a
  directory like any other. *)
Module OS.

Abbreviation FS := (gmap (list string) bool).

Inductive errno := ENOENT | ENOTDIR | ENOTEMPTY | EINVAL.

(** [os.FileInfo], as far as the code reads it. *)
Record FileInfo := { Name : string; IsDir : bool }.

(** [os.IsNotExist] on the error result of a call ([None]: no error). *)
Definition IsNotExist (err : option errno) : bool :=
  match err with
  | Some ENOENT => true
  | _ => false
  end.

(** The file a path names when every directory on the way is there:
    its elements are followed from the top directory (relative paths
    start there too). *)
Definition resolve (p : string) : list string :=
  GoPath.clean_loop true (GoPath.elems p) [].

(** The way the system follows the elements of a path from the file at
    [cur]: every element, also an empty one (as before a final slash)
    and [.], is looked up in a directory, so that the file reached so
    far has to be one; [..] leads to the directory above, and from the
    top directory to itself. *)
Fixpoint follow (fs : FS) (cur : list string) (es : list string)
  : errno + list string :=
  match es with
  | [] => inr cur
  | e :: es' =>
      match fs !! cur with
      | Some true =>
          if bool_decide (e = "") || bool_decide (e = ".")
          then follow fs cur es'
          else if bool_decide (e = "..") then follow fs (removelast cur) es'
          else follow fs (cur ++ [e]) es'
      | Some false => inl ENOTDIR
      | None => inl ENOENT
      end
  end.

(** The file that the path [p] names on [fs], and its kind.  The empty
    path names no file. *)
Definition locate (fs : FS) (p : string) : errno + list string * bool :=
  if bool_decide (p = "") then inl ENOENT
  else
    match follow fs [] (GoPath.elems p) with
    | inl e => inl e
    | inr l =>
        match fs !! l with
        | Some d => inr (l, d)
        | None => inl ENOENT
        end
    end.

(** The last element of the path is [.]: the path is ["."] or ends in
    ["/."]. *)
Definition ends_with_dot (p : string) : bool :=
  bool_decide (last (GoPath.elems p) = Some ".").

(** The elements of a path without the empty ones at its end (its final
    slashes). *)
Fixpoint trim (es : list string) : list string :=
  match es with
  | [] => []
  | e :: es' =>
      match trim es' with
      | [] => if bool_decide (e = "") then [] else [e]
      | t => e :: t
      end
  end.

(** Some proper ancestor of [l] is a regular file. *)
Definition under_file (fs : FS) (l : list string) : bool :=
  existsb (fun i => bool_decide (fs !! take i l = Some false))
          (seq 0 (length l)).

Definition lookup_err (fs : FS) (l : list string) : errno :=
  if under_file fs l then ENOTDIR else ENOENT.

(** [os.Stat] *)
Definition Stat (fs : FS) (p : string) : errno + FileInfo :=
  match locate fs p with
  | inr (_, d) => inr {| Name := GoPath.Base p; IsDir := d |}
  | inl e => inl e
  end.

(** The error of a call, as Go's [err] variable holds it. *)
Definition err_of {A} (r : errno + A) : option errno :=
  match r with
  | inl e => Some e
  | inr _ => None
  end.

Definition entry_of (dir : list string) (kv : list string * bool)
  : option FileInfo :=
  match reverse kv.1 with
  | n :: rd =>
      if bool_decide (reverse rd = dir)
      then Some {| Name := n; IsDir := kv.2 |}
      else None
  | [] => None
  end.

(** The immediate entries of directory [dir]. *)
Definition entries (fs : FS) (dir : list string) : list FileInfo :=
  omap (entry_of dir) (map_to_list fs).

Definition name_le (a b : FileInfo) : Prop := GoStrings.le (Name a) (Name b).

#[export] Instance name_le_dec : RelDecision name_le.
Proof. intros a b. apply GoStrings.le_dec. Defined.

(** [ioutil.ReadDir]: the entries of a directory, sorted by name. *)
Definition ReadDir (fs : FS) (p : string) : errno + list FileInfo :=
  match locate fs p with
  | inr (l, true) => inr (merge_sort name_le (entries fs l))
  | inr (_, false) => inl ENOTDIR
  | inl e => inl e
  end.

(** [os.Remove]: removes a file or an empty directory.  The system
    does not remove a directory through a path whose last element is
    [.]. *)
Definition Remove (fs : FS) (p : string) : errno + FS :=
  match locate fs p with
  | inr (l, false) => inr (delete l fs)
  | inr (l, true) =>
      if bool_decide (last (trim (GoPath.elems p)) = Some ".") then inl EINVAL
      else
        match entries fs l with
        | [] => inr (delete l fs)
        | _ :: _ => inl ENOTEMPTY
        end
  | inl e => inl e
  end.

(** [os.RemoveAll]: removes the path and everything below it.  The
    empty path and a path that does not exist are no error; a path that
    ends in [.] is refused; final slashes are dropped; a path that leads
    through a regular file is an error. *)
Definition RemoveAll (fs : FS) (p : string) : errno + FS :=
  if bool_decide (p = "") then inr fs
  else if ends_with_dot p then inl EINVAL
  else
    match follow fs [] (trim (GoPath.elems p)) with
    | inr l => inr (filter (fun kv => ¬ l `prefix_of` kv.1) fs)
    | inl ENOENT => inr fs
    | inl e => inl e
    end.

End OS.

(* ===================================================================== *)
(** ** [clean.go] *)
(* ===================================================================== *)

Module Clean.
Import OS.

(** The errors the package creates, one constructor per
    [errors.Errorf]/[errors.Wrapf] call. *)
Inductive error :=
| ErrRemoveDirectory (path : string) (cause : errno)
    (* "failed to remove directory %s" *)
| ErrRemoveFile (path : string) (cause : errno)
    (* "failed to remove file %s" *)
| ErrRootDir (rootDir currPath : string)
    (* "root dir path %s does not occur in %s" *)
| ErrReadDirectory (path : string) (cause : errno)
    (* "failed to read directory: %s", "failed to read directory %s" *)
| ErrFailedToRemove (cause : error)
    (* "failed to remove" *).

(** What a call does: it returns a value, returns an error, does not
    return (the [for] loop of [Run] has no bound of its own), or panics
    ([regexp.MustCompile] does on a text that is no regular
    expression). *)
Inductive result (A : Type) :=
| Ok (a : A)
| Err (e : error)
| NoReturn
| Panic.
Arguments Ok {A} a.
Arguments Err {A} e.
Arguments NoReturn {A}.
Arguments Panic {A}.

(** What a run of [Run] reads and writes: the file system, the map
    [removedPaths] (shared with [removeDirIfEmpty], which updates it in
    place), the writer [stdout], and, as a record of the run, the
    paths given to a removal call that succeeded, in the order of the
    calls. *)
Record state := mkState {
  disk : FS;
  removedPaths : gset string;
  stdout : list string;
  unlinked : list string
}.

Definition M (A : Type) : Type := state → state * result A.

#[export] Instance M_ret : MRet M := λ A a st, (st, Ok a).
#[export] Instance M_bind : MBind M := λ A B f m st,
  match m st with
  | (st', Ok a) => f a st'
  | (st', Err e) => (st', Err e)
  | (st', NoReturn) => (st', NoReturn)
  | (st', Panic) => (st', Panic)
  end.

Definition get : M state := λ st, (st, Ok st).
Definition fail {A} (e : error) : M A := λ st, (st, Err e).
Definition diverge {A} : M A := λ st, (st, NoReturn).
Definition panic {A} : M A := λ st, (st, Panic).

(** [fmt.Fprintf(stdout, ...)] with the formatted text. *)
Definition Fprintf (text : string) : M unit := λ st,
  (mkState (disk st) (removedPaths st) (stdout st ++ [text]) (unlinked st),
   Ok ()).

(** [removedPaths[p] = struct{}{}] *)
Definition mark (p : string) : M unit := λ st,
  (mkState (disk st) ({[p]} ∪ removedPaths st) (stdout st) (unlinked st),
   Ok ()).

(** A removal call on the disk; [wrap] makes the error to return. *)
Definition remove_call (call : FS → string → errno + FS)
    (wrap : string → errno → error) (p : string) : M unit := λ st,
  match call (disk st) p with
  | inr fs' =>
      (mkState fs' (removedPaths st) (stdout st) (unlinked st ++ [p]), Ok ())
  | inl e => (st, Err (wrap p e))
  end.

Definition when (b : bool) (m : M unit) : M unit :=
  if b then m else mret ().

Definition newline : string := String (ascii_of_nat 10) EmptyString.
Definition prefix : string := "[DRY RUN]".

(** ["%s     %s\n"] with [prefix] and a path. *)
Definition path_line (p : string) : string :=
  prefix +:+ "     " +:+ p +:+ newline.

(** ["%s Clean %s will remove paths:\n"] *)
Definition header_line (product : string) : string :=
  prefix +:+ " Clean " +:+ product +:+ " will remove paths:" +:+ newline.

(** [removeDirIfEmpty] *)
Definition removeDirIfEmpty (dirPath : string) (dryRun : bool) : M bool :=
  st ← get;
  if IsNotExist (err_of (Stat (disk st) dirPath)) then mret false
  else
    match ReadDir (disk st) dirPath with
    | inl e => fail (ErrReadDirectory dirPath e)
    | inr dirFiles =>
        let dirFiles :=
          if dryRun then
            List.filter
              (fun currDirFile =>
                 negb (bool_decide
                         (GoPath.Join [dirPath; Name currDirFile]
                            ∈ removedPaths st)))
              dirFiles
          else dirFiles in
        if negb (Nat.eqb (length dirFiles) 0) then mret false
        else
          when (negb dryRun)
               (remove_call RemoveAll ErrRemoveDirectory dirPath);;
          mark dirPath;;
          mret true
    end.

Record pathInfo := { rootDir : string; isDir : bool }.

(** The inner [for] loop of [Run]: the walk from the removed path up to
    the root directory.  [n] bounds the number of iterations. *)
Fixpoint cascade (n : nat) (rootDir : string) (dryRun : bool)
    (currParentDir : string) : M unit :=
  match n with
  | O => diverge
  | S n' =>
      let currParentDir := GoPath.Dir currParentDir in
      if bool_decide (currParentDir = rootDir) then mret ()
      else
        st ← get;
        if IsNotExist (err_of (Stat (disk st) currParentDir)) then mret ()
        else
          removed ← removeDirIfEmpty currParentDir dryRun;
          if negb removed then mret ()
          else
            when dryRun (Fprintf (path_line currParentDir));;
            cascade n' rootDir dryRun currParentDir
  end.

(** The bound on the walk up from [currPath].  [path.Dir] shortens a
    path until it is ["/"] or ["."], which it leaves as they are; the
    bound is larger than the number of iterations this takes. *)
Definition iterations (currPath : string) : nat := String.length currPath + 3.

(** The first statement of the loop of [Run] over [sortedPaths]: the
    path is reported, or removed if it exists. *)
Definition removeTarget (dryRun : bool) (currPath : string) (info : pathInfo)
  : M unit :=
  if dryRun then Fprintf (path_line currPath)
  else
    st ← get;
    match Stat (disk st) currPath with
    | inr _ =>
        if isDir info
        then remove_call RemoveAll ErrRemoveDirectory currPath
        else remove_call Remove ErrRemoveFile currPath
    | inl _ => mret ()
    end.

(** The body of the loop of [Run] over [sortedPaths]. *)
Definition cleanPath (dryRun : bool) (currPath : string) (info : pathInfo)
  : M unit :=
  removeTarget dryRun currPath info;;
  mark currPath;;
  if negb (GoStrings.Contains currPath (rootDir info))
  then fail (ErrRootDir (rootDir info) currPath)
  else
    cascade (iterations currPath) (rootDir info) dryRun currPath;;
    rootDirRemoved ← removeDirIfEmpty (rootDir info) dryRun;
    when (rootDirRemoved && dryRun) (Fprintf (path_line (rootDir info))).

Fixpoint forPaths (body : string → M unit) (paths : list string) : M unit :=
  match paths with
  | [] => mret ()
  | p :: paths' => body p;; forPaths body paths'
  end.

Definition noInfo : pathInfo := {| rootDir := ""; isDir := false |}.

(** [removedPaths := make(map[string]struct{})] *)
Definition fresh : M unit := λ st,
  (mkState (disk st) ∅ (stdout st) (unlinked st), Ok ()).

(** [Run] from [sortedPaths] on, the execution of the plan
    [removePaths]: its paths are sorted and cleaned one after the
    other, with a fresh [removedPaths]. *)
Definition Execute (product : string) (removePaths : gmap string pathInfo)
    (dryRun : bool) : M unit :=
  let sortedPaths := GoStrings.Sort (map_to_list removePaths).*1 in
  when dryRun (Fprintf (header_line product));;
  fresh;;
  forPaths
    (fun currPath =>
       cleanPath dryRun currPath (default noInfo (removePaths !! currPath)))
    sortedPaths.

(** The state in which a run on the file system [fs] starts. *)
Definition start (fs : FS) : state := mkState fs ∅ [] [].

(** *** The paths to remove *)

(** [osarch.OSArch] and its [String] method. *)
Record OSArch := { OS : string; Arch : string }.

Definition OSArch_String (o : OSArch) : string := OS o +:+ "-" +:+ Arch o.

(** A loop over a slice whose body may return an error. *)
Fixpoint foldE {A S : Type} (body : S → A → error + S) (l : list A) (s : S)
  : error + S :=
  match l with
  | [] => inr s
  | a :: l' =>
      match body s a with
      | inl e => inl e
      | inr s' => foldE body l' s'
      end
  end.

(** A loop over a slice whose body may panic ([None]). *)
Fixpoint foldP {A S : Type} (body : S → A → option S) (l : list A) (s : S)
  : option S :=
  match l with
  | [] => Some s
  | a :: l' =>
      match body s a with
      | None => None
      | Some s' => foldP body l' s'
      end
  end.

(** The first loop of [cleanBinOutput]: the products expected in each
    OS/architecture directory. *)
Definition osArchToProducts (products : gmap string (list OSArch))
  : gmap string (gset string) :=
  fold_left
    (fun m '(currProduct, prodOSArchs) =>
       fold_left
         (fun m currOSArch =>
            <[OSArch_String currOSArch :=
                {[currProduct]} ∪ default ∅ (m !! OSArch_String currOSArch)]> m)
         prodOSArchs m)
    (map_to_list products) ∅.

(** [cleanBinOutput]; a [nil] map is the empty set. *)
Definition cleanBinOutput (fs : FS) (outputDir : string)
    (products : gmap string (list OSArch)) : error + gset string :=
  let osArchToProducts := osArchToProducts products in
  match ReadDir fs outputDir with
  | inl _ => inr ∅
  | inr outputDirFiles =>
      foldE
        (fun removedPaths outputDirFile =>
           if negb (IsDir outputDirFile) then inr removedPaths
           else
             let currTagDirPath :=
               GoPath.Join [outputDir; Name outputDirFile] in
             match ReadDir fs currTagDirPath with
             | inl e => inl (ErrReadDirectory currTagDirPath e)
             | inr tagDirFiles =>
                 foldE
                   (fun removedPaths tagDirFile =>
                      if negb (IsDir tagDirFile) then inr removedPaths
                      else
                        match osArchToProducts !! Name tagDirFile with
                        | None => inr removedPaths
                        | Some products =>
                            let currOSArchDirPath :=
                              GoPath.Join [currTagDirPath; Name tagDirFile] in
                            match ReadDir fs currOSArchDirPath with
                            | inl e =>
                                inl (ErrReadDirectory currOSArchDirPath e)
                            | inr osArchDirFiles =>
                                inr (fold_left
                                       (fun removedPaths osArchDirFile =>
                                          if bool_decide
                                               (Name osArchDirFile ∈ products)
                                          then
                                            {[GoPath.Join
                                                [currOSArchDirPath;
                                                 Name osArchDirFile]]}
                                              ∪ removedPaths
                                          else removedPaths)
                                       osArchDirFiles removedPaths)
                            end
                        end)
                   tagDirFiles removedPaths
             end)
        outputDirFiles ∅
  end.

Section Run.

(** [params.Dist], and the functions of other packages that [Run]
    applies: [dist.FullArtifactsPaths] (with the dister of the
    distribution), and of the package [regexp] whether a text is a
    regular expression, which [regexp.MustCompile] compiles, and the
    matching of a compiled regular expression, given by its text. *)
Variable Dist : Type.
Variable Dist_OutputDir : Dist → string.

Record BuildParams := { Build_OutputDir : string; OSArchs : list OSArch }.

Record ProductBuildSpec := {
  ProjectDir : string;
  ProductName : string;
  ProductVersion : string;
  Build : BuildParams;
  Dists : list Dist
}.

Record ProductBuildSpecWithDeps := {
  Spec : ProductBuildSpec;
  Deps : gmap string ProductBuildSpec
}.

Variable FullArtifactsPaths : ProductBuildSpec → Dist → list string.
Variable Compiles : string → bool.
Variable MatchString : string → string → bool.

(** [outputDir -> product -> osArchs] *)
Definition outputDirToMap (b : ProductBuildSpecWithDeps)
  : gmap string (gmap string (list OSArch)) :=
  let primary :=
    GoPath.Join [ProjectDir (Spec b); Build_OutputDir (Build (Spec b))] in
  fold_left
    (fun m '(_, currDepSpec) =>
       let dir :=
         GoPath.Join [ProjectDir (Spec b);
                      Build_OutputDir (Build currDepSpec)] in
       <[dir := <[ProductName currDepSpec := OSArchs (Build currDepSpec)]>
                  (default ∅ (m !! dir))]> m)
    (map_to_list (Deps b))
    {[primary :=
        {[ProductName (Spec b) := OSArchs (Build (Spec b))]}]}.

(** The loop "remove binaries for specified products". *)
Definition binPaths (fs : FS) (b : ProductBuildSpecWithDeps)
  : error + gmap string pathInfo :=
  foldE
    (fun removePaths '(outputDir, products) =>
       match cleanBinOutput fs outputDir products with
       | inl e => inl (ErrFailedToRemove e)
       | inr removed =>
           inr (fold_left
                  (fun removePaths k =>
                     <[k := {| rootDir := outputDir; isDir := false |}]>
                       removePaths)
                  (elements removed) removePaths)
       end)
    (map_to_list (outputDirToMap b)) ∅.

Definition withVersion (s : ProductBuildSpec) (v : string)
  : ProductBuildSpec :=
  {| ProjectDir := ProjectDir s; ProductName := ProductName s;
     ProductVersion := v; Build := Build s; Dists := Dists s |}.

(** The texts that an iteration of the loop "remove dists for product"
    gives to [regexp.MustCompile]. *)
Definition distDirRegexps (spec : ProductBuildSpec) (currDist : Dist)
  : list string :=
  (ProductName spec +:+ "-.+")
    :: List.map GoPath.Base (FullArtifactsPaths spec currDist).

(** An iteration of the loop "remove dists for product" from
    [ioutil.ReadDir] on, with the regular expressions compiled. *)
Definition distFiles (fs : FS) (spec : ProductBuildSpec)
    (removePaths : gmap string pathInfo) (currDist : Dist)
  : gmap string pathInfo :=
  let distDirRegexps := distDirRegexps spec currDist in
  let distDir := GoPath.Join [ProjectDir spec; Dist_OutputDir currDist] in
  match ReadDir fs distDir with
  | inl _ => removePaths
  | inr distDirFiles =>
      fold_left
        (fun removePaths currDistFile =>
           if existsb
                (fun currRegexp => MatchString currRegexp (Name currDistFile))
                distDirRegexps
           then
             <[GoPath.Join [ProjectDir spec; Dist_OutputDir currDist;
                            Name currDistFile] :=
                 {| rootDir := distDir; isDir := IsDir currDistFile |}]>
               removePaths
           else removePaths)
        distDirFiles removePaths
  end.

(** One iteration of the loop "remove dists for product": [None] when
    [regexp.MustCompile] panics. *)
Definition distPaths (fs : FS) (spec : ProductBuildSpec)
    (removePaths : gmap string pathInfo) (currDist : Dist)
  : option (gmap string pathInfo) :=
  if forallb Compiles (distDirRegexps spec currDist)
  then Some (distFiles fs spec removePaths currDist)
  else None.

(** The paths to remove, from the binaries and the distributions:
    [removePaths] when the loop over [sortedPaths] starts, unless [Run]
    has returned an error or panicked by then. *)
Definition plan (fs : FS) (buildSpecWithDeps : ProductBuildSpecWithDeps)
  : result (gmap string pathInfo) :=
  match binPaths fs buildSpecWithDeps with
  | inl e => Err e
  | inr removePaths =>
      let spec := withVersion (Spec buildSpecWithDeps) ".+" in
      match foldP (distPaths fs spec) (Dists spec) removePaths with
      | None => Panic
      | Some removePaths => Ok removePaths
      end
  end.

(** [Run] *)
Definition Run (buildSpecWithDeps : ProductBuildSpecWithDeps)
    (dryRun : bool) : M unit :=
  st ← get;
  match plan (disk st) buildSpecWithDeps with
  | Ok removePaths =>
      Execute (ProductName (Spec buildSpecWithDeps)) removePaths dryRun
  | Err e => fail e
  | NoReturn => diverge
  | Panic => panic
  end.

End Run.

End Clean.

(* ===================================================================== *)
(** ** The manual dister *)
(* ===================================================================== *)

Module Dister.
Import OS.

Definition ManualDistTypeName : string := "manual".

Record ManualDistConfig := { cfg_Extension : string }.

Record manualDister := { Extension : string }.

(** [ToDister] *)
Definition ToDister (cfg : ManualDistConfig) : manualDister :=
  {| Extension := cfg_Extension cfg |}.

Inductive error :=
| ErrSingleArtifact
    (* "manual distribution must produce a single artifact" *)
| ErrNotExist (path : string) (cause : option errno)
    (* "expected output does not exist at %s" *)
| ErrIsDirectory (path : string)
    (* "output at %s is a directory" *).

(** A call returns its [error] result ([None]: [nil]) or panics. *)
Inductive outcome :=
| Return (err : option error)
| Panic.

(** [Artifacts]; its error result is always [nil]. *)
Definition Artifacts (d : manualDister) (renderedNameTemplate : string)
  : list string :=
  let outputFileName := renderedNameTemplate in
  let outputFileName :=
    if negb (bool_decide (Extension d = ""))
    then outputFileName +:+ "." +:+ Extension d
    else outputFileName in
  [outputFileName].

(** [TypeName] *)
Definition TypeName (d : manualDister) : string := ManualDistTypeName.

(** [RunDist]: the manual dister does nothing, the script does all. *)
Definition RunDist (d : manualDister) : outcome := Return None.

(** [GenerateDistArtifacts] from the check of [len(artifactPaths)] on.
    [fi] is [nil] when [os.Stat] returns an error, and [fi.IsDir()]
    on [nil] panics. *)
Definition verifyArtifacts (fs : FS) (artifactPaths : list string)
  : outcome :=
  if negb (Nat.eqb (length artifactPaths) 1)
  then Return (Some ErrSingleArtifact)
  else
    match artifactPaths with
    | [] => Panic
    | path0 :: _ =>
        let r := Stat fs path0 in
        if IsNotExist (err_of r)
        then Return (Some (ErrNotExist path0 (err_of r)))
        else
          match r with
          | inl _ => Panic
          | inr fi =>
              if IsDir fi then Return (Some (ErrIsDirectory path0))
              else Return None
          end
    end.

(** [GenerateDistArtifacts]; [renderedNameTemplate] is
    [DistNameTemplateRendered] of the distribution [distID]. *)
Definition GenerateDistArtifacts (d : manualDister)
    (renderedNameTemplate : string) (fs : FS) : outcome :=
  verifyArtifacts fs (Artifacts d renderedNameTemplate).

End Dister.

(* ===================================================================== *)
(** ** Absolute clean paths *)
(* ===================================================================== *)

(** The paths that [Run] builds are results of [path.Join] on an absolute
  directory: absolute and clean.  Such a path is determined by the list
  of its elements. *)
Module Paths.
Import GoPath.

Definition valid_name (n : string) : bool :=
  negb (bool_decide (n = "")) && negb (bool_decide (n = "."))
  && negb (bool_decide (n = "..")) && negb (has_slash n).

(** The absolute path with the given elements. *)
Definition render (l : list string) : string := "/" +:+ join l.

(** [p] is absolute and [path.Clean] leaves it as it is. *)
Definition abs_clean (p : string) : bool :=
  GoStrings.HasPrefix p "/" && bool_decide (Clean p = p).

(** [root] names a proper ancestor of the file that [p] names. *)
Definition below (root p : string) : bool :=
  bool_decide (OS.resolve root `prefix_of` OS.resolve p)
  && negb (bool_decide (OS.resolve root = OS.resolve p)).

(** The entries of [removePaths] as [Run] makes them: an absolute clean
    path and, as its root directory, an absolute clean path of a
    directory above it. *)
Definition entry_ok (p : string) (info : Clean.pathInfo) : bool :=
  abs_clean p && abs_clean (Clean.rootDir info) && below (Clean.rootDir info) p.

Definition plan_ok (removePaths : gmap string Clean.pathInfo) : bool :=
  forallb (fun kv => entry_ok kv.1 kv.2) (map_to_list removePaths).

(** A file system as the operating system keeps it: every name is a
    file name, every file but the top directory lies in a directory,
    and the top directory is one. *)
Definition wf_file (fs : OS.FS) (kv : list string * bool) : bool :=
  forallb valid_name kv.1 &&
  match reverse kv.1 with
  | [] => kv.2
  | _ :: rd => bool_decide (fs !! reverse rd = Some true)
  end.

Definition wf_fs (fs : OS.FS) : bool := forallb (wf_file fs) (map_to_list fs).

(** The file system without the file at [l] and the files below it. *)
Definition rm (l : list string) (fs : OS.FS) : OS.FS :=
  filter (fun kv => ¬ l `prefix_of` kv.1) fs.

(** The directory in which the file at [l] lies. *)
Definition parent (l : list string) : list string := removelast l.

(** The directory at [l] is not there (no file is in the way of it
    either), or has an entry: [removeDirIfEmpty] leaves it. *)
Definition settled (fs : OS.FS) (l : list string) : Prop :=
  (fs !! l = None ∧ OS.under_file fs l = false) ∨
  (fs !! l = Some true ∧ ∃ n, is_Some (fs !! (l ++ [n]))).

(** The test of [removeDirIfEmpty] on the directory at [l]: no entry is
    left, where a dry run leaves out the entries in [removedPaths]. *)
Definition vacant (dryRun : bool) (removedPaths : gset string) (fs : OS.FS)
    (l : list string) : bool :=
  forallb
    (fun f => dryRun && bool_decide (render (l ++ [OS.Name f]) ∈ removedPaths))
    (OS.entries fs l).

End Paths.

(* ===================================================================== *)
(** ** Scenarios *)
(* ===================================================================== *)

(** File systems and plans on which the code is run below. *)
Module Scenario.
Import OS Clean.

(** The file system with the given files ([true]: directory). *)
Definition mkfs (files : list (string * bool)) : FS :=
  list_to_map (List.map (fun kv => (resolve kv.1, kv.2)) files).

Definition file (root : string) : pathInfo :=
  {| rootDir := root; isDir := false |}.

(** A file whose plan entry names a root directory that does not occur
    in its path. *)
Definition fs_stray : FS :=
  mkfs [("/", true); ("/a", true); ("/a/f", false); ("/b", true)].
Definition plan_stray : gmap string pathInfo :=
  {[ "/a/f" := file "/b" ]}.

(** An output directory that is not there, and a regular file where the
    distribution directory is expected. *)
Definition fs_no_output : FS :=
  mkfs [("/", true); ("/proj", true); ("/proj/dist", false)].

(** An output directory with one tag directory. *)
Definition fs_one_dir : FS :=
  mkfs [("/", true); ("/out", true); ("/out/v1", true)].

(** A directory where [cleanBinOutput] expects the binary [app]. *)
Definition fs_dir_as_bin : FS :=
  mkfs [("/", true); ("/out", true); ("/out/v1", true);
        ("/out/v1/linux-amd64", true); ("/out/v1/linux-amd64/app", true);
        ("/out/v1/linux-amd64/app/x", false)].

(** The product [app], built for linux-amd64 into [/out], without
    distributions. *)
Definition spec_app : ProductBuildSpecWithDeps Empty_set :=
  {| Spec := {| ProjectDir := "/"; ProductName := "app";
                ProductVersion := "1.0.0";
                Build := {| Build_OutputDir := "out";
                            OSArchs := [{| OS := "linux"; Arch := "amd64" |}] |};
                Dists := [] |};
     Deps := ∅ |}.

Definition Run_app (dryRun : bool) : M unit :=
  Run Empty_set (fun d => match d with end) (fun _ _ => [])
      (fun _ => true) (fun _ _ => false) spec_app dryRun.

(** A file system with nothing in its top directory, which is also the
    working directory: a relative path is followed from it. *)
Definition fs_top : FS := mkfs [("/", true)].

(** The product [app] of the project in the working directory [.],
    built into the project directory itself, and the output of its
    build for the tag [1.0.0] as all that the directory holds. *)
Definition spec_here : ProductBuildSpecWithDeps Empty_set :=
  {| Spec := {| ProjectDir := "."; ProductName := "app";
                ProductVersion := "1.0.0";
                Build := {| Build_OutputDir := "";
                            OSArchs := [{| OS := "linux"; Arch := "amd64" |}] |};
                Dists := [] |};
     Deps := ∅ |}.
Definition fs_here : FS :=
  mkfs [("/", true); ("/1.0.0", true); ("/1.0.0/linux-amd64", true);
        ("/1.0.0/linux-amd64/app", false)].
Definition Run_here (dryRun : bool) : M unit :=
  Run Empty_set (fun d => match d with end) (fun _ _ => [])
      (fun _ => true) (fun _ _ => false) spec_here dryRun.

(** The directory [app-bin] in the distribution directory [/proj/dist],
    which is also the build output directory. *)
Definition fs_inside : FS :=
  mkfs [("/", true); ("/proj", true); ("/proj/keep", false);
        ("/proj/dist", true); ("/proj/dist/app-bin", true);
        ("/proj/dist/app-bin/v1", true);
        ("/proj/dist/app-bin/v1/linux-amd64", true);
        ("/proj/dist/app-bin/v1/linux-amd64/app", false)].
Definition plan_inside : gmap string pathInfo :=
  {[ "/proj/dist/app-bin" := {| rootDir := "/proj/dist"; isDir := true |};
     "/proj/dist/app-bin/v1/linux-amd64/app" := file "/proj/dist/app-bin" ]}.

(** [root/a/b/c/file], with [other] next to [b]. *)
Definition fs_abc : FS :=
  mkfs [("/", true); ("/root", true); ("/root/a", true);
        ("/root/a/other", false); ("/root/a/b", true); ("/root/a/b/c", true);
        ("/root/a/b/c/file", false)].
Definition plan_abc : gmap string pathInfo :=
  {[ "/root/a/b/c/file" := file "/root" ]}.

(** The output of a build: one binary below its tag and OS/architecture
    directories. *)
Definition fs_bin : FS :=
  mkfs [("/", true); ("/out", true); ("/out/v1", true);
        ("/out/v1/linux-amd64", true); ("/out/v1/linux-amd64/app", false)].
Definition plan_bin : gmap string pathInfo :=
  {[ "/out/v1/linux-amd64/app" := file "/out" ]}.

End Scenario.

(* ===================================================================== *)
(** ** What a run touches *)
(* ===================================================================== *)

Module Effects.
Import OS Clean.

(** From [st] to [st'], every path removed or reported names a file at
    or below the directory at [lr], and the files that are not at or
    below it are as they were. *)
Definition within (lr : list string) (st st' : state) : Prop :=
  (∃ xs, unlinked st' = unlinked st ++ xs ∧
         Forall (fun x => lr `prefix_of` resolve x) xs) ∧
  (∃ ys, stdout st' = stdout st ++ (path_line <$> ys) ∧
         Forall (fun y => lr `prefix_of` resolve y) ys) ∧
  (∀ k, ¬ lr `prefix_of` k → disk st' !! k = disk st !! k).

(** The same for a whole plan: at or below the root directory of one of
    its entries. *)
Definition in_some_root (removePaths : gmap string pathInfo)
    (k : list string) : Prop :=
  ∃ p info, removePaths !! p = Some info ∧ resolve (rootDir info) `prefix_of` k.

Definition within_roots (removePaths : gmap string pathInfo)
    (st st' : state) : Prop :=
  (∃ xs, unlinked st' = unlinked st ++ xs ∧
         Forall (fun x => in_some_root removePaths (resolve x)) xs) ∧
  (∃ ys, stdout st' = stdout st ++ (path_line <$> ys) ∧
         Forall (fun y => in_some_root removePaths (resolve y)) ys) ∧
  (∀ k, ¬ in_some_root removePaths k → disk st' !! k = disk st !! k).

(** The file at [k] is at or below a path of [removedPaths]. *)
Definition covered (removedPaths : gset string) (k : list string) : Prop :=
  set_Exists (fun r => resolve r `prefix_of` k) removedPaths.

(** [fs] is [fs0] without the files at or below a path of
    [removedPaths]. *)
Definition pruned (removedPaths : gset string) (fs0 fs : FS) : Prop :=
  ∀ k, fs !! k = if decide (covered removedPaths k) then None else fs0 !! k.

(** A dry run in state [sd] and a real run in state [sr], both started
    on the file system [fs0], the dry run having written [head] first:
    the dry run has left the disk alone, both have the same
    [removedPaths], the real run has removed the files at or below
    these paths, and the dry run has reported what the real run has
    removed. *)
Definition in_step (fs0 : FS) (head : list string) (sd sr : state) : Prop :=
  disk sd = fs0 ∧ unlinked sd = [] ∧
  removedPaths sd = removedPaths sr ∧
  pruned (removedPaths sr) fs0 (disk sr) ∧
  Paths.wf_fs (disk sr) = true ∧
  stdout sd = head ++ (path_line <$> unlinked sr) ∧
  (∀ r, r ∈ removedPaths sr → Paths.abs_clean r = true).

(** An entry of the plan that is as [Run] makes them and names a file on
    the disk. *)
Definition good_entry_on (fs : FS) (p : string) (info : pathInfo) : Prop :=
  Paths.entry_ok p info = true ∧ is_Some (fs !! resolve p).

(** Every path of the plan is on the disk. *)
Definition all_present (fs : FS) (removePaths : gmap string pathInfo) : bool :=
  forallb (fun kv => bool_decide (is_Some (fs !! resolve kv.1)))
          (map_to_list removePaths).

(** No path of the plan is at or below another one. *)
Definition none_nested (removePaths : gmap string pathInfo) : bool :=
  forallb
    (fun kv =>
       forallb
         (fun kv' =>
            bool_decide (kv.1 = kv'.1)
            || negb (bool_decide (resolve kv.1 `prefix_of` resolve kv'.1)))
         (map_to_list removePaths))
    (map_to_list removePaths).

End Effects.

(* ===================================================================== *)
(** ** The output directories of a product *)
(* ===================================================================== *)

Module Outputs.
Import OS Clean.

Section Outputs.
Variable Dist : Type.
Variable Dist_OutputDir : Dist → string.
Variable FullArtifactsPaths : ProductBuildSpec Dist → Dist → list string.
Variable MatchString : string → string → bool.

(** The directories that [Run] reads: the build output directories of
    the product and of its dependencies, and the output directories of
    the distributions of the product, all below the project directory
    of the product. *)
Definition outputDirs (b : ProductBuildSpecWithDeps Dist) : list string :=
  ((fun s : ProductBuildSpec Dist =>
      GoPath.Join [ProjectDir Dist (Spec Dist b);
                   Build_OutputDir (Build Dist s)])
     <$> Spec Dist b :: (map_to_list (Deps Dist b)).*2)
  ++ ((fun d : Dist =>
         GoPath.Join [ProjectDir Dist (Spec Dist b); Dist_OutputDir d])
        <$> Dists Dist (Spec Dist b)).

(** The file at [k] is one of the [outputDirs], or lies below one. *)
Definition in_output (b : ProductBuildSpecWithDeps Dist) (k : list string)
  : Prop :=
  ∃ dir, dir ∈ outputDirs b ∧ resolve dir `prefix_of` k.

(** The name of a file in the output directory of [currDist] matches
    one of [distDirRegexps]. *)
Definition distMatch (spec : ProductBuildSpec Dist) (currDist : Dist)
    (name : string) : bool :=
  existsb (fun currRegexp => MatchString currRegexp name)
          (distDirRegexps Dist FullArtifactsPaths spec currDist).

(** The texts that [Run] gives to [regexp.MustCompile] are regular
    expressions. *)
Definition compiles (Compiles : string → bool)
    (b : ProductBuildSpecWithDeps Dist) : bool :=
  forallb
    (fun currDist =>
       forallb Compiles
         (distDirRegexps Dist FullArtifactsPaths
            (withVersion Dist (Spec Dist b) ".+") currDist))
    (Dists Dist (Spec Dist b)).

(** The paths that the two loops of [Run] put into [removePaths] on the
    file system [fs], the compilation of the regular expressions
    aside. *)
Definition planFiles (fs : FS) (b : ProductBuildSpecWithDeps Dist)
  : error + gmap string pathInfo :=
  match binPaths Dist fs b with
  | inl e => inl e
  | inr removePaths =>
      inr (fold_left
             (distFiles Dist Dist_OutputDir FullArtifactsPaths MatchString
                        fs (withVersion Dist (Spec Dist b) ".+"))
             (Dists Dist (Spec Dist b)) removePaths)
  end.

(** An entry for a binary: a path that [cleanBinOutput] returns for a
    build output directory, with that directory as root directory. *)
Definition binEntry (fs : FS) (b : ProductBuildSpecWithDeps Dist)
    (p : string) (info : pathInfo) : Prop :=
  ∃ outputDir products removed,
    outputDirToMap Dist b !! outputDir = Some products ∧
    cleanBinOutput fs outputDir products = inr removed ∧
    p ∈ removed ∧ info = {| rootDir := outputDir; isDir := false |}.

(** An entry for a file of a distribution: an entry of the output
    directory of a distribution whose name matches, with that directory
    as root directory. *)
Definition distEntry (fs : FS) (b : ProductBuildSpecWithDeps Dist)
    (p : string) (info : pathInfo) : Prop :=
  ∃ currDist name isd,
    currDist ∈ Dists Dist (Spec Dist b) ∧
    let distDir :=
      GoPath.Join [ProjectDir Dist (Spec Dist b); Dist_OutputDir currDist] in
    fs !! (resolve distDir ++ [name]) = Some isd ∧
    distMatch (withVersion Dist (Spec Dist b) ".+") currDist name = true ∧
    p = Paths.render (resolve distDir ++ [name]) ∧
    info = {| rootDir := distDir; isDir := isd |}.

End Outputs.

(** From [st] to [st'] the file system stays well-formed, and the
    regular files that are not at or below a path of the plan stay. *)
Definition spares (removePaths : gmap string pathInfo) (st st' : state)
  : Prop :=
  Paths.wf_fs (disk st) = true →
  Paths.wf_fs (disk st') = true ∧
  ∀ k, disk st !! k = Some false →
       (∀ p, is_Some (removePaths !! p) → ¬ resolve p `prefix_of` k) →
       disk st' !! k = Some false.

End Outputs.


(* ===================================================================== *)
(** ** [Products] of [clean.go] *)
(* ===================================================================== *)

Module CleanProducts.
Import OS Clean.

Section Products.
Variable Dist : Type.
Variable Dist_OutputDir : Dist → string.
Variable FullArtifactsPaths : ProductBuildSpec Dist → Dist → list string.
Variable Compiles : string → bool.
Variable MatchString : string → string → bool.

(** [params.Project], and [build.SpecsWithDepsForArgs] of another
    package with its errors. *)
Variable Project : Type.
Variable BuildError : Type.
Variable SpecsWithDepsForArgs :
  Project → list string → string →
  BuildError + list (ProductBuildSpecWithDeps Dist).

(** The errors that [Products] returns. *)
Inductive error :=
| ErrSpecs (cause : BuildError)
    (* the error of [build.SpecsWithDepsForArgs], as it is *)
| ErrFailedToClean (product : string) (cause : Clean.error)
    (* "failed to clean %s" *).

(** A call returns its [error] result ([None]: [nil]), does not
    return, or panics. *)
Inductive outcome :=
| Return (err : option error)
| NoReturn
| Panics.

(** The loop of [Products] over [buildSpecsWithDeps]. *)
Fixpoint cleanSpecs (buildSpecsWithDeps : list (ProductBuildSpecWithDeps Dist))
    (dryRun : bool) (st : state) : state * outcome :=
  match buildSpecsWithDeps with
  | [] => (st, Return None)
  | specWithDeps :: rest =>
      match Run Dist Dist_OutputDir FullArtifactsPaths Compiles MatchString
                specWithDeps dryRun st with
      | (st', Ok _) => cleanSpecs rest dryRun st'
      | (st', Err err) =>
          (st', Return (Some (ErrFailedToClean
                                (ProductName Dist (Spec Dist specWithDeps))
                                err)))
      | (st', Clean.NoReturn) => (st', NoReturn)
      | (st', Clean.Panic) => (st', Panics)
      end
  end.

(** [Products] *)
Definition Products (products : list string) (cfg : Project) (dryRun : bool)
    (wd : string) (st : state) : state * outcome :=
  match SpecsWithDepsForArgs cfg products wd with
  | inl err => (st, Return (Some (ErrSpecs err)))
  | inr buildSpecsWithDeps => cleanSpecs buildSpecsWithDeps dryRun st
  end.

End Products.

Arguments ErrSpecs {BuildError} cause.
Arguments ErrFailedToClean {BuildError} product cause.
Arguments Return {BuildError} err.
Arguments NoReturn {BuildError}.
Arguments Panics {BuildError}.

End CleanProducts.


(* ===================================================================== *)
(** ** A project with a dependency and a distribution *)
(* ===================================================================== *)

Module Builds.
Import OS Clean Scenario.

(** A distribution, as far as [Run] reads it: its output directory and
    the paths of its artifacts. *)
Record dist := { dist_OutputDir : string; dist_Artifacts : list string }.

(** A stand-in for the regular expressions of this project: the pattern
    [app-.+] matches the names in which [app-] occurs, and the base name
    of an artifact matches itself. *)
Definition matchString (currRegexp name : string) : bool :=
  (bool_decide (currRegexp = "app-.+") && GoStrings.Contains name "app-")
  || bool_decide (currRegexp = name).

(** A stand-in for the parser of regular expressions: a text in which
    [++] occurs is none, the other texts of this project are. *)
Definition compilesText (text : string) : bool :=
  negb (GoStrings.Contains text "++").

Definition linux_amd64 : OSArch := {| OS := "linux"; Arch := "amd64" |}.

(** The product [app] of the project [/proj], with the dependency [lib]
    built into the same output directory, and one distribution. *)
Definition spec_proj : ProductBuildSpecWithDeps dist :=
  {| Spec := {| ProjectDir := "/proj"; ProductName := "app";
                ProductVersion := "1.0.0";
                Build := {| Build_OutputDir := "build";
                            OSArchs := [linux_amd64] |};
                Dists := [{| dist_OutputDir := "dist";
                             dist_Artifacts := ["/proj/dist/app.tgz"] |}] |};
     Deps := {[ "lib" := {| ProjectDir := "/proj"; ProductName := "lib";
                            ProductVersion := "1.0.0";
                            Build := {| Build_OutputDir := "build";
                                        OSArchs := [linux_amd64] |};
                            Dists := [] |} ]} |}.

(** The project after a build: the binaries of [app] and [lib] and a
    file [notes] next to them, and two files in the directory of the
    distribution. *)
Definition fs_proj : FS :=
  mkfs [("/", true); ("/proj", true); ("/proj/README", false);
        ("/proj/build", true); ("/proj/build/1.0.0", true);
        ("/proj/build/1.0.0/linux-amd64", true);
        ("/proj/build/1.0.0/linux-amd64/app", false);
        ("/proj/build/1.0.0/linux-amd64/lib", false);
        ("/proj/build/1.0.0/linux-amd64/notes", false);
        ("/proj/dist", true); ("/proj/dist/app-1.0.0.tgz", false);
        ("/proj/dist/notes.txt", false)].

(** What is to be removed for [spec_proj] on [fs_proj]. *)
Definition plan_proj : gmap string pathInfo :=
  {[ "/proj/build/1.0.0/linux-amd64/app" := file "/proj/build";
     "/proj/build/1.0.0/linux-amd64/lib" := file "/proj/build";
     "/proj/dist/app-1.0.0.tgz" := file "/proj/dist" ]}.

Definition Run_proj (dryRun : bool) : M unit :=
  Run dist dist_OutputDir (fun _ d => dist_Artifacts d) compilesText
      matchString spec_proj dryRun.

(** The same project with the product name [app++]: the text [app++-.+]
    is no regular expression. *)
Definition spec_plus : ProductBuildSpecWithDeps dist :=
  {| Spec := {| ProjectDir := "/proj"; ProductName := "app++";
                ProductVersion := "1.0.0";
                Build := {| Build_OutputDir := "build";
                            OSArchs := [linux_amd64] |};
                Dists := [{| dist_OutputDir := "dist";
                             dist_Artifacts := ["/proj/dist/app.tgz"] |}] |};
     Deps := ∅ |}.

Definition Run_plus (dryRun : bool) : M unit :=
  Run dist dist_OutputDir (fun _ d => dist_Artifacts d) compilesText
      matchString spec_plus dryRun.

(** [build.SpecsWithDepsForArgs] for a configuration with the product
    [app] of [Scenario.spec_app] only, asked for twice. *)
Definition specs_app (cfg : unit) (products : list string) (wd : string)
  : Empty_set + list (ProductBuildSpecWithDeps Empty_set) :=
  inr [spec_app; spec_app].

End Builds.


(* ===================================================================== *)
(** ** What a call has written *)
(* ===================================================================== *)

(** The writer [stdout] and the record of the removal calls are written
    and never read: a call does in a state what it does in the state
    with nothing written yet, and appends. *)
Module Logs.
Import OS Clean.

(** The state [st] with nothing written. *)
Definition base (st : state) : state :=
  mkState (disk st) (removedPaths st) [] [].

(** The outcome [r] of a call in [base st], as the outcome of the call
    in [st]. *)
Definition onto {A} (st : state) (r : state * result A) : state * result A :=
  (mkState (disk r.1) (removedPaths r.1) (stdout st ++ stdout r.1)
           (unlinked st ++ unlinked r.1), r.2).

Definition appends {A} (m : M A) : Prop := ∀ st, m st = onto st (m (base st)).

End Logs.


(* ===================================================================== *)
(** ** The way up from a path *)
(* ===================================================================== *)

(** What the walk up of [Run] meets, in terms of the file system: the
    paths from [top ++ below] up to [top], and whether a directory holds
    anything besides the way down to a path. *)
Module Chain.
Import OS.

(** The path [top ++ below] and the directories above it up to [top],
    the lowest first. *)
Fixpoint up (top below : list string) : list (list string) :=
  match below with
  | [] => [top]
  | x :: below' => up (top ++ [x]) below' ++ [top]
  end.

(** Every entry of the directory [d] is on the way to [p]. *)
Definition lonely (fs : FS) (d p : list string) : bool :=
  forallb (fun f => bool_decide ((d ++ [Name f]) `prefix_of` p))
          (entries fs d).

End Chain.

(* ===================================================================== *)
(** ** Properties of the path functions *)
(* ===================================================================== *)

Section PathFacts.
Import GoPath Paths.

Lemma slash_app (s : string) : "/" +:+ s = String "/" s.
Proof. reflexivity. Qed.

Lemma append_cons c (s t : string) : String c s +:+ t = String c (s +:+ t).
Proof. reflexivity. Qed.

Lemma append_nil (t : string) : "" +:+ t = t.
Proof. reflexivity. Qed.

Lemma append_assoc (a b c : string) : (a +:+ b) +:+ c = a +:+ (b +:+ c).
Proof.
  induction a as [|x a IH]; [done |].
  rewrite !append_cons. by rewrite IH.
Qed.

Lemma elems_noslash s : has_slash s = false → elems s = [s].
Proof.
  induction s as [|c s IH]; simpl; [done |].
  intros [Hc Hs]%orb_false_iff. rewrite Hc, (IH Hs). done.
Qed.

Lemma elems_app_slash s t :
  has_slash s = false → elems (s +:+ String "/" t) = s :: elems t.
Proof.
  induction s as [|c s IH]; [done |]. rewrite append_cons. simpl.
  intros [Hc Hs]%orb_false_iff. rewrite Hc, (IH Hs). done.
Qed.

Lemma elems_join l :
  Forall (λ n, has_slash n = false) l → l ≠ [] → elems (join l) = l.
Proof.
  induction 1 as [|x l Hx Hl IH]; [done |]. intros _.
  destruct l as [|y l'].
  - simpl. by apply elems_noslash.
  - change (join (x :: y :: l')) with (x +:+ String "/" (join (y :: l'))).
    rewrite elems_app_slash by done. by rewrite IH.
Qed.

Lemma elems_has_no_slash s : Forall (λ n, has_slash n = false) (elems s).
Proof.
  induction s as [|c s IH]; simpl.
  - by constructor.
  - destruct (is_slash c) eqn:Hc.
    + by constructor.
    + destruct (elems s) as [|h t]; inversion IH; subst;
        constructor; simpl; try done.
      * by rewrite Hc.
      * by rewrite Hc.
Qed.

Lemma valid_name_spec n :
  valid_name n = true ↔
  n ≠ "" ∧ n ≠ "." ∧ n ≠ ".." ∧ has_slash n = false.
Proof.
  unfold valid_name.
  rewrite !andb_true_iff, !negb_true_iff, !bool_decide_eq_false. tauto.
Qed.

Lemma valid_name_noslash l :
  Forall (λ n, valid_name n = true) l → Forall (λ n, has_slash n = false) l.
Proof.
  intros H. eapply Forall_impl; [exact H |].
  intros n Hn%valid_name_spec. tauto.
Qed.

Lemma clean_loop_valid rooted l es out :
  Forall (λ n, valid_name n = true) l →
  clean_loop rooted (l ++ es) out = clean_loop rooted es (rev l ++ out).
Proof.
  intros Hl. revert out.
  induction Hl as [|n l Hn Hl IH]; intros out; [done |].
  apply valid_name_spec in Hn as (H1 & H2 & H3 & _). simpl.
  rewrite !bool_decide_eq_false_2 by done. simpl.
  rewrite IH. by rewrite <- app_assoc.
Qed.

Lemma clean_loop_result es out :
  Forall (λ n, has_slash n = false) es →
  Forall (λ n, valid_name n = true) out →
  Forall (λ n, valid_name n = true) (clean_loop true es out).
Proof.
  intros Hes. revert out.
  induction Hes as [|e es He Hes IH]; intros out Hout; simpl.
  - by apply Forall_rev.
  - destruct (bool_decide (e = "")) eqn:E1; simpl; [by apply IH |].
    destruct (bool_decide (e = ".")) eqn:E2; simpl; [by apply IH |].
    destruct (bool_decide (e = "..")) eqn:E3.
    + destruct out as [|top out']; [by apply IH |].
      inversion Hout; subst.
      destruct (bool_decide (top = "..")) eqn:E4.
      * apply bool_decide_eq_true in E4. subst top.
        exfalso. by vm_compute in H1.
      * by apply IH.
    + apply IH. constructor; [|done].
      apply valid_name_spec.
      apply bool_decide_eq_false in E1, E2, E3. done.
Qed.

Lemma resolve_valid p : Forall (λ n, valid_name n = true) (OS.resolve p).
Proof. apply clean_loop_result; [apply elems_has_no_slash | constructor]. Qed.

Lemma elems_render l :
  Forall (λ n, valid_name n = true) l →
  clean_loop true (elems (render l)) [] = l.
Proof.
  intros Hl. unfold render. rewrite slash_app. simpl.
  destruct l as [|x l'] eqn:El; [done |]. rewrite <- El in *.
  rewrite elems_join by (by subst; auto using valid_name_noslash).
  rewrite <- (app_nil_r l) at 1. rewrite clean_loop_valid by done.
  simpl. rewrite app_nil_r. apply rev_involutive.
Qed.

(** The file that an absolute clean path names is the one at its
    elements. *)
Lemma resolve_render l :
  Forall (λ n, valid_name n = true) l → OS.resolve (render l) = l.
Proof. apply elems_render. Qed.

Lemma Clean_rooted s :
  Clean (String "/" s) = render (OS.resolve (String "/" s)).
Proof. reflexivity. Qed.

Lemma Clean_render l :
  Forall (λ n, valid_name n = true) l → Clean (render l) = render l.
Proof.
  intros Hl. unfold render at 1. rewrite slash_app, Clean_rooted.
  rewrite <- slash_app. fold (render l). by rewrite resolve_render.
Qed.

Lemma render_inj l1 l2 :
  Forall (λ n, valid_name n = true) l1 →
  Forall (λ n, valid_name n = true) l2 →
  render l1 = render l2 → l1 = l2.
Proof.
  intros H1 H2 E. rewrite <- (resolve_render l1), <- (resolve_render l2) by done.
  by rewrite E.
Qed.

Lemma join_snoc l n :
  l ≠ [] → join (l ++ [n]) = join l +:+ String "/" n.
Proof.
  induction l as [|x l IH]; [done |]. intros _.
  destruct l as [|y l']; [done |].
  change (join ((x :: y :: l') ++ [n]))
    with (x +:+ String "/" (join ((y :: l') ++ [n]))).
  rewrite IH by done.
  change (join (x :: y :: l')) with (x +:+ String "/" (join (y :: l'))).
  rewrite append_assoc. done.
Qed.

Lemma join_app l1 l2 :
  l1 ≠ [] → l2 ≠ [] → join (l1 ++ l2) = join l1 +:+ String "/" (join l2).
Proof.
  induction l1 as [|x l IH]; [done |]. intros _ H2.
  destruct l as [|y l'].
  - simpl. destruct l2; done.
  - change (join ((x :: y :: l') ++ l2))
      with (x +:+ String "/" (join ((y :: l') ++ l2))).
    rewrite IH by done.
    change (join (x :: y :: l')) with (x +:+ String "/" (join (y :: l'))).
    rewrite append_assoc. done.
Qed.

Lemma abs_clean_render p :
  abs_clean p = true →
  p = render (OS.resolve p).
Proof.
  unfold abs_clean. intros [H1 H2]%andb_true_iff.
  apply bool_decide_eq_true in H2.
  destruct p as [|c s]; [done |].
  change (Ascii.eqb "/" c && true = true) in H1.
  apply andb_true_iff in H1 as [H1 _]. apply Ascii.eqb_eq in H1. subst c.
  rewrite <- H2 at 1. apply Clean_rooted.
Qed.

Lemma render_abs_clean l :
  Forall (λ n, valid_name n = true) l → abs_clean (render l) = true.
Proof.
  intros Hl. unfold abs_clean. rewrite Clean_render by done.
  rewrite bool_decide_eq_true_2 by done. done.
Qed.

Lemma split_dir_noslash s : has_slash s = false → split_dir s = "".
Proof.
  destruct s as [|c s]; simpl; [done |].
  intros [Hc Hs]%orb_false_iff. by rewrite Hc, Hs.
Qed.

Lemma has_slash_app s t : has_slash (s +:+ String "/" t) = true.
Proof.
  induction s as [|c s IH]; simpl; [done |].
  rewrite IH. apply orb_true_r.
Qed.

Lemma split_dir_app s n :
  has_slash n = false → split_dir (s +:+ String "/" n) = s +:+ "/".
Proof.
  intros Hn. induction s as [|c s IH]; simpl.
  - by rewrite split_dir_noslash.
  - rewrite has_slash_app, orb_true_r. by rewrite IH.
Qed.

Lemma render_snoc l n :
  l ≠ [] → render (l ++ [n]) = render l +:+ String "/" n.
Proof. intros Hl. unfold render. by rewrite join_snoc. Qed.

Lemma valid_snoc l n :
  Forall (λ n, valid_name n = true) (l ++ [n]) ↔
  Forall (λ n, valid_name n = true) l ∧ valid_name n = true.
Proof. rewrite Forall_app, Forall_singleton. done. Qed.

Lemma resolve_render_slash l :
  Forall (λ n, valid_name n = true) l →
  OS.resolve (render l +:+ "/") = l.
Proof.
  intros Hl. unfold OS.resolve, render. rewrite slash_app. simpl.
  destruct l as [|x l'] eqn:El; [done |]. rewrite <- El in *.
  assert (l ≠ []) as Hne by (by subst).
  change (join l +:+ "/") with (join l +:+ String "/" "").
  rewrite <- join_snoc by done.
  rewrite elems_join.
  - rewrite clean_loop_valid by done. simpl. rewrite app_nil_r.
    apply rev_involutive.
  - apply Forall_app. split; [by apply valid_name_noslash |].
    by constructor.
  - by destruct l.
Qed.

(** [path.Dir] of an absolute clean path drops its last element. *)
Lemma Dir_render_snoc l n :
  Forall (λ n, valid_name n = true) (l ++ [n]) →
  Dir (render (l ++ [n])) = render l.
Proof.
  intros [Hl Hn]%valid_snoc. unfold Dir.
  destruct l as [|x l'] eqn:El.
  - change (render ([] ++ [n])) with (String "/" n).
    change (split_dir (String "/" n)) with (String "/" (split_dir n)).
    rewrite split_dir_noslash by (apply valid_name_spec in Hn; tauto).
    reflexivity.
  - rewrite <- El in *. assert (l ≠ []) as Hne by (by subst).
    rewrite render_snoc by done.
    rewrite split_dir_app by (apply valid_name_spec in Hn; tauto).
    change (render l +:+ "/") with (String "/" (join l +:+ "/")).
    rewrite Clean_rooted. f_equal.
    change (String "/" (join l +:+ "/")) with (render l +:+ "/").
    by apply resolve_render_slash.
Qed.

Lemma Dir_render_nil : Dir (render []) = render [].
Proof. reflexivity. Qed.

(** [path.Join] of an absolute clean directory and a name adds the name
    as last element. *)
Lemma Join_render l n :
  Forall (λ n, valid_name n = true) (l ++ [n]) →
  Join [render l; n] = render (l ++ [n]).
Proof.
  intros Hv. pose proof Hv as [Hl Hn]%valid_snoc.
  unfold Join. rewrite bool_decide_eq_false_2 by done.
  change (join [render l; n]) with (render l +:+ String "/" n).
  destruct l as [|x l'] eqn:El.
  - change (render [] +:+ String "/" n) with (String "/" (String "/" n)).
    rewrite Clean_rooted. f_equal.
    unfold OS.resolve.
    change (elems (String "/" (String "/" n))) with ("" :: "" :: elems n).
    rewrite elems_noslash by (apply valid_name_spec in Hn; tauto).
    change (clean_loop true [""; ""; n] []) with (clean_loop true ([n] ++ []) []).
    rewrite clean_loop_valid; [done |].
    by constructor.
  - rewrite <- El in *. rewrite <- render_snoc by (by subst).
    by apply Clean_render.
Qed.

Lemma HasPrefix_app s t : GoStrings.HasPrefix (s +:+ t) s = true.
Proof.
  induction s as [|c s IH]; simpl; [by destruct t |].
  by rewrite Ascii.eqb_refl, IH.
Qed.

Lemma Contains_HasPrefix s t :
  GoStrings.HasPrefix s t = true → GoStrings.Contains s t = true.
Proof. intros H. destruct s; simpl in *; rewrite H; done. Qed.

(** The check of [Run] accepts a path below its root directory. *)
Lemma Contains_render l1 l2 :
  GoStrings.Contains (render (l1 ++ l2)) (render l1) = true.
Proof.
  apply Contains_HasPrefix.
  destruct l1 as [|x l1'] eqn:E1; [done |].
  destruct l2 as [|y l2'] eqn:E2.
  - rewrite app_nil_r. generalize (render (x :: l1')). intros s.
    induction s as [|c s IH]; simpl; [done |].
    by rewrite Ascii.eqb_refl, IH.
  - rewrite <- E1, <- E2. unfold render.
    rewrite join_app by (by subst). rewrite !slash_app.
    change (String "/" (join l1 +:+ String "/" (join l2)))
      with (String "/" (join l1) +:+ String "/" (join l2)).
    apply HasPrefix_app.
Qed.

Lemma length_append (s t : string) :
  String.length (s +:+ t) = (String.length s + String.length t)%nat.
Proof.
  induction s as [|c s IH]; [done |].
  rewrite append_cons. simpl. by rewrite IH.
Qed.

Lemma length_join (l : list string) :
  (length l ≤ S (String.length (join l)))%nat.
Proof.
  induction l as [|x l IH]; [simpl; lia |].
  destruct l as [|y l']; [simpl; lia |].
  change (join (x :: y :: l')) with (x +:+ String "/" (join (y :: l'))).
  rewrite length_append.
  change (String.length (String "/" (join (y :: l'))))
    with (S (String.length (join (y :: l')))).
  change (length (x :: y :: l')) with (S (length (y :: l'))). lia.
Qed.

End PathFacts.

(* ===================================================================== *)
(** ** Files and directories *)
(* ===================================================================== *)

Section FSFacts.
Import OS Paths.

Lemma prefix_snoc_inv {A} (l k : list A) n :
  l `prefix_of` (k ++ [n]) → l `prefix_of` k ∨ l = k ++ [n].
Proof.
  intros [t Ht].
  destruct (decide (t = [])) as [->|Hne].
  - right. by rewrite app_nil_r in Ht.
  - left. destruct (exists_last Hne) as (t' & m & ->).
    rewrite app_assoc in Ht. apply app_inj_tail in Ht as [-> _].
    by apply prefix_app_r.
Qed.

Lemma unsnoc_cases {A} (l : list A) : l = [] ∨ ∃ k n, l = k ++ [n].
Proof.
  destruct (decide (l = [])) as [|Hne]; [by left | right].
  destruct (exists_last Hne) as (k & n & ->). eauto.
Qed.

Lemma entries_spec fs l f :
  f ∈ entries fs l ↔ fs !! (l ++ [Name f]) = Some (IsDir f).
Proof.
  unfold entries. rewrite list_elem_of_omap. split.
  - intros [[k d] [Hin%elem_of_map_to_list He]].
    unfold entry_of in He. simpl in He.
    destruct (reverse k) as [|n rd] eqn:Ek; [done |].
    case_bool_decide as Hd; [|done]. injection He as <-. simpl.
    assert (k = l ++ [n]) as ->; [|done].
    rewrite <- (reverse_involutive k), Ek, reverse_cons. by rewrite Hd.
  - intros H. exists (l ++ [Name f], IsDir f).
    split; [by apply elem_of_map_to_list |].
    unfold entry_of. simpl. rewrite reverse_snoc, reverse_involutive.
    rewrite bool_decide_eq_true_2 by done. by destruct f.
Qed.

Lemma entries_nil fs l :
  entries fs l = [] ↔ ∀ n, fs !! (l ++ [n]) = None.
Proof.
  split.
  - intros He n. destruct (fs !! (l ++ [n])) as [d|] eqn:E; [|done].
    assert ({| Name := n; IsDir := d |} ∈ entries fs l) as Hin
        by (by apply entries_spec).
    rewrite He in Hin. by inversion Hin.
  - intros H. destruct (entries fs l) as [|f es] eqn:E; [done |].
    assert (f ∈ entries fs l) as Hin%entries_spec by (rewrite E; by left).
    by rewrite H in Hin.
Qed.

(** Well-formed file systems *)

Lemma wf_fs_spec fs :
  wf_fs fs = true ↔
  (∀ l d, fs !! l = Some d → Forall (λ n, valid_name n = true) l) ∧
  (∀ l n d, fs !! (l ++ [n]) = Some d → fs !! l = Some true) ∧
  fs !! [] ≠ Some false.
Proof.
  unfold wf_fs. rewrite forallb_forall. split.
  - intros H. split; [|split].
    + intros l d Hl. apply elem_of_map_to_list, list_elem_of_In, H in Hl.
      unfold wf_file in Hl. apply andb_true_iff in Hl as [Hl _]. simpl in Hl.
      apply Forall_forall. intros n Hn.
      rewrite forallb_forall in Hl. by apply Hl, list_elem_of_In.
    + intros l n d Hl. apply elem_of_map_to_list, list_elem_of_In, H in Hl.
      unfold wf_file in Hl. apply andb_true_iff in Hl as [_ Hl]. simpl in Hl.
      rewrite reverse_snoc in Hl. apply bool_decide_eq_true in Hl.
      by rewrite reverse_involutive in Hl.
    + intros Hl. apply elem_of_map_to_list, list_elem_of_In, H in Hl.
      unfold wf_file in Hl. by apply andb_true_iff in Hl as [_ Hl].
  - intros (H1 & H2 & H3) [l d] Hin%list_elem_of_In%elem_of_map_to_list.
    unfold wf_file. simpl. apply andb_true_iff. split.
    + apply forallb_forall. intros n Hn%list_elem_of_In.
      specialize (H1 _ _ Hin). rewrite Forall_forall in H1. by apply H1.
    + destruct (unsnoc_cases l) as [->|(k & n & ->)].
      * simpl. by destruct d.
      * rewrite reverse_snoc, reverse_involutive.
        apply bool_decide_eq_true. by eapply H2.
Qed.

Lemma wf_valid fs l d :
  wf_fs fs = true → fs !! l = Some d → Forall (λ n, valid_name n = true) l.
Proof. intros [H _]%wf_fs_spec. apply H. Qed.

Lemma wf_parent fs l n d :
  wf_fs fs = true → fs !! (l ++ [n]) = Some d → fs !! l = Some true.
Proof. intros (_ & H & _)%wf_fs_spec. apply H. Qed.

Lemma wf_top fs d : wf_fs fs = true → fs !! [] = Some d → d = true.
Proof. intros (_ & _ & H)%wf_fs_spec Hd. destruct d; [done | by destruct H]. Qed.

(** The directories above a file are there. *)
Lemma wf_above fs l k d :
  wf_fs fs = true → fs !! (l ++ k) = Some d → k ≠ [] → fs !! l = Some true.
Proof.
  intros Hwf. revert d. induction k as [|n k IH] using rev_ind; [done |].
  intros d Hl _. rewrite app_assoc in Hl.
  apply (wf_parent _ _ _ _ Hwf) in Hl.
  destruct (decide (k = [])) as [->|Hk].
  - by rewrite app_nil_r in Hl.
  - by eapply IH.
Qed.

Lemma wf_not_under_file fs l d :
  wf_fs fs = true → fs !! l = Some d → under_file fs l = false.
Proof.
  intros Hwf Hl. unfold under_file.
  destruct (existsb _ _) eqn:E; [|done].
  apply existsb_exists in E as (i & Hi%in_seq & Hf%bool_decide_eq_true).
  rewrite <- (take_drop i l) in Hl.
  apply (wf_above _ _ _ _ Hwf) in Hl; [congruence |].
  intros Hd. apply (f_equal length) in Hd. rewrite length_drop in Hd.
  simpl in Hd. lia.
Qed.

(** Removal *)

Lemma lookup_rm_under x fs k : x `prefix_of` k → rm x fs !! k = None.
Proof.
  intros H. apply map_lookup_filter_None. right. intros d _ Hn. by apply Hn.
Qed.

Lemma lookup_rm_other x fs k : ¬ x `prefix_of` k → rm x fs !! k = fs !! k.
Proof.
  intros H. unfold rm. destruct (fs !! k) as [d|] eqn:E.
  - by apply map_lookup_filter_Some_2.
  - apply map_lookup_filter_None. by left.
Qed.

Lemma lookup_rm_Some x fs k d :
  rm x fs !! k = Some d ↔ fs !! k = Some d ∧ ¬ x `prefix_of` k.
Proof. unfold rm. by rewrite map_lookup_filter_Some. Qed.

Lemma lookup_rm_None_mono x fs k : fs !! k = None → rm x fs !! k = None.
Proof. intros H. apply map_lookup_filter_None. by left. Qed.

Lemma wf_rm x fs : wf_fs fs = true → wf_fs (rm x fs) = true.
Proof.
  intros Hwf. apply wf_fs_spec. split; [|split].
  - intros l d [Hl _]%lookup_rm_Some. by eapply wf_valid.
  - intros l n d [Hl Hx]%lookup_rm_Some.
    apply lookup_rm_Some. split; [by eapply wf_parent |].
    intros Hp. apply Hx. by apply prefix_app_r.
  - intros [Hl _]%lookup_rm_Some. by apply (wf_top _ _ Hwf) in Hl.
Qed.

(** [os.Remove] of a file or of an empty directory removes what
    [os.RemoveAll] removes. *)
Lemma delete_rm fs l :
  wf_fs fs = true → (∀ n, fs !! (l ++ [n]) = None) → delete l fs = rm l fs.
Proof.
  intros Hwf Hc. apply map_eq. intros k.
  destruct (decide (l `prefix_of` k)) as [Hp|Hp].
  - rewrite lookup_rm_under by done.
    destruct Hp as [t ->]. destruct t as [|n t].
    + rewrite app_nil_r. apply lookup_delete_eq.
    + rewrite lookup_delete_ne
        by (intros E; apply (f_equal length) in E;
            rewrite length_app in E; simpl in E; lia).
      destruct (fs !! (l ++ n :: t)) as [d|] eqn:E; [|done].
      change (n :: t) with ([n] ++ t) in E. rewrite app_assoc in E.
      destruct (decide (t = [])) as [->|Ht].
      * rewrite app_nil_r in E. by rewrite Hc in E.
      * apply (wf_above _ _ _ _ Hwf) in E; [|done]. by rewrite Hc in E.
  - rewrite lookup_rm_other by done.
    apply lookup_delete_ne. intros <-. by apply Hp.
Qed.

Lemma file_no_entries fs l n :
  wf_fs fs = true → fs !! l = Some false → fs !! (l ++ [n]) = None.
Proof.
  intros Hwf Hl. destruct (fs !! (l ++ [n])) as [d|] eqn:E; [|done].
  apply (wf_parent _ _ _ _ Hwf) in E. congruence.
Qed.

(** Following a path *)

Lemma follow_app (fs : FS) (es1 : list string) (es2 : list string) (cur : list string) :
  follow fs cur (es1 ++ es2) =
  match follow fs cur es1 with
  | inr l => follow fs l es2
  | inl e => inl e
  end.
Proof.
  revert cur. induction es1 as [|e es1 IH]; intros cur; simpl; [done |].
  destruct (fs !! cur) as [[|]|]; [|done..].
  destruct (_ || _); [apply IH |]. destruct (bool_decide _); apply IH.
Qed.

(** When the elements of a path can be followed, they lead to the file
    that the cleaned path names. *)
Lemma follow_clean (fs : FS) (es : list string) (cur : list string) (l : list string) :
  ".." ∉ cur → follow fs cur es = inr l →
  l = GoPath.clean_loop true es (rev cur) ∧ ".." ∉ l.
Proof.
  revert cur. induction es as [|e es IH]; intros cur Hc; simpl.
  - intros [= <-]. by rewrite rev_involutive.
  - destruct (fs !! cur) as [[|]|]; [|done..].
    destruct (bool_decide (e = "") || bool_decide (e = ".")); [by apply IH |].
    case_bool_decide as He.
    + destruct (unsnoc_cases cur) as [->|(c & x & ->)]; [by apply IH |].
      rewrite removelast_last, rev_unit.
      rewrite bool_decide_eq_false_2.
      * apply IH. intros Hin. apply Hc, elem_of_app. by left.
      * intros ->. apply Hc, elem_of_app. right. apply list_elem_of_here.
    + intros H. apply IH in H.
      * by rewrite rev_unit in H.
      * intros [Hin|Hin%list_elem_of_singleton]%elem_of_app; [by apply Hc | done].
Qed.

Lemma clean_loop_ext rooted e a b :
  (∀ out, GoPath.clean_loop rooted a out = GoPath.clean_loop rooted b out) →
  ∀ out, GoPath.clean_loop rooted (e :: a) out
         = GoPath.clean_loop rooted (e :: b) out.
Proof.
  intros H out. simpl.
  destruct (_ || _); [apply H |].
  destruct (bool_decide (e = "..")); [|apply H].
  destruct out as [|top out']; [destruct rooted; apply H |].
  destruct (bool_decide _); apply H.
Qed.

Lemma trim_clean rooted es out :
  GoPath.clean_loop rooted (trim es) out = GoPath.clean_loop rooted es out.
Proof.
  revert out. induction es as [|e es IH]; [done |]. simpl trim.
  destruct (trim es) as [|t ts] eqn:Et.
  - case_bool_decide as He.
    + subst e. intros out. simpl. apply IH.
    + by apply clean_loop_ext.
  - by apply clean_loop_ext.
Qed.

Lemma trim_app es : ∃ k, es = trim es ++ replicate k "".
Proof.
  induction es as [|e es [k IH]]; [by exists 0 |]. simpl.
  destruct (trim es) as [|t ts] eqn:Et.
  - case_bool_decide as He.
    + subst e. exists (S k). simpl. by rewrite IH at 1.
    + exists k. simpl. by rewrite IH at 1.
  - exists k. simpl. by rewrite IH at 1.
Qed.

Lemma follow_empty (fs : FS) (cur : list string) k (l : list string) :
  follow fs cur (replicate k "") = inr l → l = cur.
Proof.
  induction k as [|k IH]; simpl; [by intros [= <-] |].
  destruct (fs !! cur) as [[|]|]; [|done..]. apply IH.
Qed.

(** The elements of a path lead as far as they lead without its final
    slashes. *)
Lemma follow_trim (fs : FS) (es : list string) (l : list string) :
  follow fs [] es = inr l → follow fs [] (trim es) = inr l.
Proof.
  destruct (trim_app es) as [k Hk]. rewrite Hk at 1. rewrite follow_app.
  destruct (follow fs [] (trim es)) as [e|l'] eqn:E; [done |].
  by intros ->%follow_empty.
Qed.

Lemma locate_inr (fs : FS) p (l : list string) d :
  locate fs p = inr (l, d) → l = resolve p ∧ fs !! l = Some d.
Proof.
  unfold locate. case_bool_decide; [done |].
  destruct (follow fs [] (GoPath.elems p)) as [e|k] eqn:Ef; [done |].
  destruct (fs !! k) as [dk|] eqn:Ek; [|done]. intros [= <- <-].
  split; [|done]. by apply (follow_clean fs _ []) in Ef as [-> _];
    [|apply not_elem_of_nil].
Qed.

Lemma follow_sub (fs fs' : FS) es cur l :
  fs' ⊆ fs → follow fs' cur es = inr l → follow fs cur es = inr l.
Proof.
  intros Hsub. revert cur. induction es as [|e es IH]; intros cur; [done |].
  simpl. destruct (fs' !! cur) as [[|]|] eqn:E; [|done..].
  rewrite (lookup_weaken _ _ _ _ E Hsub).
  destruct (_ || _); [apply IH |]. destruct (bool_decide _); apply IH.
Qed.

(** A file that is found after files have been removed was found
    before. *)
Lemma locate_sub (fs fs' : FS) p l d :
  fs' ⊆ fs → locate fs' p = inr (l, d) → locate fs p = inr (l, d).
Proof.
  intros Hsub. unfold locate. case_bool_decide; [done |].
  destruct (follow fs' [] (GoPath.elems p)) as [e|k] eqn:Ef; [done |].
  rewrite (follow_sub _ _ _ _ _ Hsub Ef).
  destruct (fs' !! k) as [dk|] eqn:Ek; [|done].
  by rewrite (lookup_weaken _ _ _ _ Ek Hsub).
Qed.

Lemma dirs_not_under_file (fs : FS) (cur : list string) :
  (∀ i, i < length cur → fs !! take i cur = Some true) →
  under_file fs cur = false.
Proof.
  intros Hc. unfold under_file. destruct (existsb _ _) eqn:Ex; [|done].
  apply existsb_exists in Ex as (i & Hi%in_seq & Hf%bool_decide_eq_true).
  rewrite Hc in Hf by lia. done.
Qed.

Lemma below_file_under_file (fs : FS) (cur : list string) n (l : list string) :
  fs !! cur = Some false → under_file fs (cur ++ n :: l) = true.
Proof.
  intros E. unfold under_file. apply existsb_exists.
  exists (length cur). split.
  - apply in_seq. rewrite length_app. simpl. lia.
  - apply bool_decide_eq_true. by rewrite take_app_length.
Qed.

Lemma below_absent_not_under_file (fs : FS) (cur : list string) (l : list string) :
  wf_fs fs = true →
  (∀ i, i < length cur → fs !! take i cur = Some true) →
  fs !! cur = None → under_file fs (cur ++ l) = false.
Proof.
  intros Hwf Hc E. unfold under_file. destruct (existsb _ _) eqn:Ex; [|done].
  apply existsb_exists in Ex as (i & Hi%in_seq & Hf%bool_decide_eq_true).
  exfalso.
  destruct (decide (i < length cur)) as [Hlt|Hge].
  - rewrite take_app_le in Hf by lia. rewrite Hc in Hf by done. done.
  - destruct (decide (i = length cur)) as [->|Hne].
    + rewrite take_app_length in Hf. congruence.
    + rewrite take_app_ge in Hf by lia.
      apply (wf_above _ _ _ _ Hwf) in Hf; [congruence |].
      intros Ht. apply (f_equal length) in Ht.
      rewrite length_take in Ht. rewrite length_app in Hi.
      simpl in Hi, Ht. lia.
Qed.

Lemma below_absent (fs : FS) (cur : list string) (l : list string) :
  wf_fs fs = true → fs !! cur = None → fs !! (cur ++ l) = None.
Proof.
  intros Hwf E. destruct (decide (l = [])) as [->|Hne].
  - by rewrite app_nil_r.
  - destruct (fs !! (cur ++ l)) as [d|] eqn:E'; [|done].
    apply (wf_above _ _ _ _ Hwf) in E'; [congruence | done].
Qed.

Lemma below_file_absent (fs : FS) (cur : list string) (l : list string) :
  wf_fs fs = true → fs !! cur = Some false → l ≠ [] →
  fs !! (cur ++ l) = None.
Proof.
  intros Hwf E Hne. destruct (fs !! (cur ++ l)) as [d|] eqn:E'; [|done].
  apply (wf_above _ _ _ _ Hwf) in E'; [congruence | done].
Qed.

Lemma rm_absent (fs : FS) (cur : list string) (l : list string) :
  wf_fs fs = true → fs !! cur = None → rm (cur ++ l) fs = fs.
Proof.
  intros Hwf E. apply map_eq. intros k.
  destruct (decide ((cur ++ l) `prefix_of` k)) as [[t ->]|Hp].
  - rewrite lookup_rm_under by (by apply prefix_app_r).
    symmetry. rewrite <- app_assoc. by apply below_absent.
  - by apply lookup_rm_other.
Qed.

Lemma dirs_snoc (fs : FS) (cur : list string) n :
  (∀ i, i < length cur → fs !! take i cur = Some true) →
  fs !! cur = Some true →
  ∀ i, i < length (cur ++ [n]) → fs !! take i (cur ++ [n]) = Some true.
Proof.
  intros Hc E i Hi. rewrite length_app in Hi. simpl in Hi.
  destruct (decide (i < length cur)) as [Hlt|Hge].
  - rewrite take_app_le by lia. by apply Hc.
  - assert (i = length cur) as -> by lia. by rewrite take_app_length.
Qed.

(** Following file names from a directory below directories: the way
    ends at the first file that is no directory. *)
Lemma follow_names (fs : FS) (cur : list string) (l : list string) :
  wf_fs fs = true → Forall (λ n, valid_name n = true) l →
  (∀ i, i < length cur → fs !! take i cur = Some true) →
  match follow fs cur l with
  | inl e => inl e
  | inr k =>
      match fs !! k with
      | Some d => inr (k, d)
      | None => inl ENOENT
      end
  end
  = match fs !! (cur ++ l) with
    | Some d => inr (cur ++ l, d)
    | None => inl (lookup_err fs (cur ++ l))
    end.
Proof.
  intros Hwf Hl. revert cur. induction Hl as [|n l Hn Hl IH]; intros cur Hc.
  - simpl. rewrite app_nil_r. destruct (fs !! cur) as [d|] eqn:E; [done |].
    unfold lookup_err. by rewrite dirs_not_under_file.
  - apply valid_name_spec in Hn as (H1 & H2 & H3 & _). simpl.
    destruct (fs !! cur) as [[|]|] eqn:E.
    + rewrite !bool_decide_eq_false_2 by done. simpl.
      rewrite IH by (by apply dirs_snoc). by rewrite <- app_assoc.
    + rewrite (below_file_absent fs cur (n :: l)) by done.
      unfold lookup_err. by rewrite below_file_under_file.
    + rewrite below_absent by done.
      unfold lookup_err. by rewrite below_absent_not_under_file.
Qed.

(** What [os.RemoveAll] makes of the way to the file. *)
Lemma follow_rm (fs : FS) (cur : list string) (l : list string) :
  wf_fs fs = true → Forall (λ n, valid_name n = true) l →
  (∀ i, i < length cur → fs !! take i cur = Some true) →
  match follow fs cur l with
  | inr k => inr (rm k fs)
  | inl ENOENT => inr fs
  | inl e => inl e
  end
  = if under_file fs (cur ++ l) then inl ENOTDIR else inr (rm (cur ++ l) fs).
Proof.
  intros Hwf Hl. revert cur. induction Hl as [|n l Hn Hl IH]; intros cur Hc.
  - simpl. rewrite app_nil_r. by rewrite dirs_not_under_file.
  - apply valid_name_spec in Hn as (H1 & H2 & H3 & _). simpl.
    destruct (fs !! cur) as [[|]|] eqn:E.
    + rewrite !bool_decide_eq_false_2 by done. simpl.
      rewrite IH by (by apply dirs_snoc). by rewrite <- app_assoc.
    + by rewrite below_file_under_file.
    + rewrite below_absent_not_under_file by done.
      by rewrite rm_absent.
Qed.

Lemma elems_render_cons l :
  Forall (λ n, valid_name n = true) l →
  GoPath.elems (render l) = "" :: (if decide (l = []) then [""] else l).
Proof.
  intros Hl. unfold render. rewrite slash_app. simpl.
  destruct (decide (l = [])) as [->|Hne]; [done |].
  by rewrite elems_join by auto using valid_name_noslash.
Qed.

Lemma trim_snoc es n : n ≠ "" → trim (es ++ [n]) = es ++ [n].
Proof.
  intros Hn. induction es as [|e es IH]; simpl.
  - by rewrite bool_decide_eq_false_2.
  - rewrite IH. destruct (es ++ [n]) eqn:E; [by destruct es | done].
Qed.

Lemma trim_render l :
  Forall (λ n, valid_name n = true) l →
  trim (GoPath.elems (render l)) = if decide (l = []) then [] else "" :: l.
Proof.
  intros Hl. rewrite elems_render_cons by done.
  destruct (decide (l = [])) as [->|Hne]; [done |].
  destruct (exists_last Hne) as (k & n & ->).
  apply Forall_app in Hl as [_ Hn].
  apply Forall_singleton, valid_name_spec in Hn as (Hn & _).
  change ("" :: k ++ [n]) with (("" :: k) ++ [n]). by apply trim_snoc.
Qed.

Lemma last_render l :
  Forall (λ n, valid_name n = true) l →
  last (trim (GoPath.elems (render l))) ≠ Some "." ∧
  last (GoPath.elems (render l)) ≠ Some ".".
Proof.
  intros Hl. rewrite trim_render, elems_render_cons by done.
  destruct (decide (l = [])) as [->|Hne]; [done |].
  destruct (exists_last Hne) as (k & n & ->).
  apply Forall_app in Hl as [_ Hn].
  apply Forall_singleton, valid_name_spec in Hn as (_ & Hn & _).
  change ("" :: k ++ [n]) with (("" :: k) ++ [n]).
  rewrite last_snoc. split; congruence.
Qed.

Lemma ends_with_dot_render l :
  Forall (λ n, valid_name n = true) l → ends_with_dot (render l) = false.
Proof. intros Hl. apply bool_decide_eq_false. by apply last_render. Qed.

(** The calls on an absolute clean path *)

Lemma follow_slash (fs : FS) (es : list string) :
  follow fs [] ("" :: es) =
  match fs !! [] with
  | Some true => follow fs [] es
  | Some false => inl ENOTDIR
  | None => inl ENOENT
  end.
Proof. done. Qed.

Lemma locate_render fs l :
  wf_fs fs = true → Forall (λ n, valid_name n = true) l →
  locate fs (render l) =
  match fs !! l with
  | Some d => inr (l, d)
  | None => inl (lookup_err fs l)
  end.
Proof.
  intros Hwf Hl. unfold locate. rewrite bool_decide_eq_false_2 by done.
  rewrite elems_render_cons, follow_slash by done.
  pose proof (follow_names fs [] l Hwf Hl) as Hf. simpl in Hf.
  specialize (Hf ltac:(intros i Hi; lia)).
  destruct (decide (l = [])) as [->|Hne].
  - simpl. destruct (fs !! []) as [[|]|] eqn:E; [done | | done].
    by apply (wf_top _ _ Hwf) in E.
  - destruct (fs !! []) as [[|]|] eqn:E; [exact Hf | |].
    + by apply (wf_top _ _ Hwf) in E.
    + rewrite <- Hf. destruct l as [|n l']; [done |]. simpl. by rewrite E.
Qed.

Lemma Stat_render fs l :
  wf_fs fs = true → Forall (λ n, valid_name n = true) l →
  Stat fs (render l) =
  match fs !! l with
  | Some d => inr {| Name := GoPath.Base (render l); IsDir := d |}
  | None => inl (lookup_err fs l)
  end.
Proof.
  intros Hwf Hl. unfold Stat. rewrite locate_render by done.
  by destruct (fs !! l).
Qed.

Lemma ReadDir_render fs l :
  wf_fs fs = true → Forall (λ n, valid_name n = true) l →
  ReadDir fs (render l) =
  match fs !! l with
  | Some true => inr (merge_sort name_le (entries fs l))
  | Some false => inl ENOTDIR
  | None => inl (lookup_err fs l)
  end.
Proof.
  intros Hwf Hl. unfold ReadDir. rewrite locate_render by done.
  by destruct (fs !! l) as [[|]|].
Qed.

Lemma Remove_render fs l :
  wf_fs fs = true → Forall (λ n, valid_name n = true) l →
  Remove fs (render l) =
  match fs !! l with
  | Some false => inr (delete l fs)
  | Some true =>
      match entries fs l with
      | [] => inr (delete l fs)
      | _ :: _ => inl ENOTEMPTY
      end
  | None => inl (lookup_err fs l)
  end.
Proof.
  intros Hwf Hl. unfold Remove. rewrite locate_render by done.
  destruct (fs !! l) as [[|]|]; [|done..].
  by rewrite bool_decide_eq_false_2 by (by apply last_render).
Qed.

(** [os.RemoveAll] fails on an absolute clean path only when the path
    leads through a regular file. *)
Lemma RemoveAll_render fs l :
  wf_fs fs = true → Forall (λ n, valid_name n = true) l →
  RemoveAll fs (render l) =
  if under_file fs l then inl ENOTDIR else inr (rm l fs).
Proof.
  intros Hwf Hl. unfold RemoveAll. rewrite bool_decide_eq_false_2 by done.
  unfold ends_with_dot.
  rewrite bool_decide_eq_false_2 by (by apply last_render).
  rewrite trim_render by done.
  destruct (decide (l = [])) as [->|Hne]; [done |].
  rewrite follow_slash.
  pose proof (follow_rm fs [] l Hwf Hl) as Hf. simpl in Hf.
  specialize (Hf ltac:(intros i Hi; lia)). fold (rm l fs).
  destruct (fs !! []) as [[|]|] eqn:E.
  - unfold rm in Hf. exact Hf.
  - by apply (wf_top _ _ Hwf) in E.
  - pose proof (below_absent_not_under_file fs [] l Hwf
                  ltac:(intros i Hi; simpl in Hi; lia) E) as Hu.
    pose proof (rm_absent fs [] l Hwf E) as Hr. simpl in Hu, Hr.
    by rewrite Hu, Hr.
Qed.

(** A directory that is there can be read. *)
Lemma ReadDir_unreadable fs p e :
  wf_fs fs = true → abs_clean p = true → ReadDir fs p = inl e →
  fs !! resolve p ≠ Some true.
Proof.
  intros Hwf Hp%abs_clean_render Hr Hd.
  rewrite Hp, ReadDir_render in Hr by (done || apply resolve_valid).
  by rewrite Hd in Hr.
Qed.

Lemma RemoveAll_present fs l d :
  wf_fs fs = true → fs !! l = Some d →
  RemoveAll fs (render l) = inr (rm l fs).
Proof.
  intros Hwf Hd. rewrite RemoveAll_render by (done || by eapply wf_valid).
  by rewrite (wf_not_under_file _ _ _ Hwf Hd).
Qed.

End FSFacts.

(* ===================================================================== *)
(** ** The calls of [os] and [ioutil] *)
(* ===================================================================== *)

Section OSFacts.
Import OS.

Lemma Stat_inr fs p fi :
  Stat fs p = inr fi → fs !! resolve p = Some (IsDir fi).
Proof.
  unfold Stat. destruct (locate fs p) as [e|[l d]] eqn:E; [done |].
  apply locate_inr in E as [-> E]. by intros [= <-].
Qed.

Lemma Stat_gone fs p :
  fs !! resolve p = None → ∃ e, Stat fs p = inl e.
Proof.
  intros Hn. destruct (Stat fs p) as [e|fi] eqn:E; [by eexists |].
  apply Stat_inr in E. congruence.
Qed.

(** A file that [os.Stat] does not find is not found after files have
    been removed. *)
Lemma Stat_sub (fs fs' : FS) p e :
  fs' ⊆ fs → Stat fs p = inl e → ∃ e', Stat fs' p = inl e'.
Proof.
  intros Hsub. unfold Stat.
  destruct (locate fs' p) as [e'|[l d]] eqn:E'; [by eexists |].
  by rewrite (locate_sub _ _ _ _ _ Hsub E').
Qed.

Lemma ReadDir_inr fs p files :
  ReadDir fs p = inr files →
  fs !! resolve p = Some true ∧
  files = merge_sort name_le (entries fs (resolve p)).
Proof.
  unfold ReadDir. destruct (locate fs p) as [e|[l [|]]] eqn:E; [done | | done].
  apply locate_inr in E as [-> E]. by intros [= <-].
Qed.

Lemma ReadDir_Stat fs p files :
  ReadDir fs p = inr files → IsNotExist (err_of (Stat fs p)) = false.
Proof.
  unfold ReadDir, Stat. by destruct (locate fs p) as [e|[l [|]]].
Qed.

Lemma Remove_inr fs p fs' :
  Remove fs p = inr fs' →
  fs' = delete (resolve p) fs ∧
  (fs !! resolve p = Some false ∨
   fs !! resolve p = Some true ∧ entries fs (resolve p) = []).
Proof.
  unfold Remove. destruct (locate fs p) as [e|[l [|]]] eqn:E; [done | |];
    apply locate_inr in E as [-> E].
  - destruct (bool_decide _); [done |].
    destruct (entries fs (resolve p)) eqn:He; [|done]. intros [= <-]. auto.
  - intros [= <-]. auto.
Qed.

(** What [os.RemoveAll] removes when it returns no error: the file at
    the path and the files below it, or nothing. *)
Lemma RemoveAll_inr fs p fs' :
  RemoveAll fs p = inr fs' →
  fs' = fs ∨ fs' = filter (fun kv => ¬ resolve p `prefix_of` kv.1) fs.
Proof.
  unfold RemoveAll. case_bool_decide; [intros [= <-]; by left |].
  destruct (ends_with_dot p); [done |].
  destruct (follow fs [] (trim (GoPath.elems p))) as [[]|l] eqn:E; try done.
  - intros [= <-]. by left.
  - intros [= <-]. right.
    apply (follow_clean fs _ []) in E as [-> _]; [|apply not_elem_of_nil].
    simpl. by rewrite trim_clean.
Qed.

(** On a file that is there [os.RemoveAll] fails only when the path
    ends in [.]. *)
Lemma RemoveAll_found fs p fi :
  Stat fs p = inr fi →
  RemoveAll fs p =
  if ends_with_dot p then inl EINVAL
  else inr (filter (fun kv => ¬ resolve p `prefix_of` kv.1) fs).
Proof.
  unfold Stat, locate, RemoveAll. case_bool_decide; [done |].
  destruct (follow fs [] (GoPath.elems p)) as [e|l] eqn:E; [done |].
  intros _. destruct (ends_with_dot p); [done |].
  rewrite (follow_trim _ _ _ E).
  by apply (follow_clean fs _ []) in E as [-> _]; [|apply not_elem_of_nil].
Qed.

Lemma ReadDir_found fs p files :
  ReadDir fs p = inr files → ∃ fi, Stat fs p = inr fi.
Proof.
  unfold ReadDir, Stat. destruct (locate fs p) as [e|[l [|]]]; [done | | done].
  by eexists.
Qed.

Lemma RemoveAll_readable fs p files :
  ReadDir fs p = inr files →
  RemoveAll fs p =
  if ends_with_dot p then inl EINVAL
  else inr (filter (fun kv => ¬ resolve p `prefix_of` kv.1) fs).
Proof. intros [fi Hs]%ReadDir_found. by eapply RemoveAll_found. Qed.

(** A removal call leaves the files that are not at or below the path
    as they are. *)
Lemma removal_frame (isd : bool) fs p fs' l :
  (if isd then RemoveAll else Remove) fs p = inr fs' →
  ¬ resolve p `prefix_of` l → fs' !! l = fs !! l.
Proof.
  destruct isd.
  - intros [->| ->]%RemoveAll_inr Hl; [done |].
    destruct (fs !! l) as [d|] eqn:E.
    + by apply map_lookup_filter_Some_2.
    + apply map_lookup_filter_None. by left.
  - intros [-> _]%Remove_inr Hl.
    apply lookup_delete_ne. intros <-. by apply Hl.
Qed.

Lemma RemoveAll_gone fs p fs' :
  RemoveAll fs p = inr fs' → ∃ e, Stat fs' p = inl e.
Proof.
  unfold RemoveAll, Stat, locate. case_bool_decide; [by eexists |].
  destruct (ends_with_dot p); [done |].
  destruct (follow fs [] (trim (GoPath.elems p))) as [[]|l] eqn:E; try done.
  - intros [= <-].
    destruct (follow fs [] (GoPath.elems p)) as [e|k] eqn:Ek; [by eexists |].
    apply follow_trim in Ek. congruence.
  - intros [= <-].
    destruct (follow _ [] (GoPath.elems p)) as [e|k] eqn:Ek; [by eexists |].
    apply (follow_clean _ _ []) in Ek as [-> _]; [|apply not_elem_of_nil].
    apply (follow_clean fs _ []) in E as [-> _]; [|apply not_elem_of_nil].
    simpl. rewrite trim_clean.
    rewrite (proj2 (map_lookup_filter_None _ _ _)); [by eexists |].
    right. intros d _ Hn. by apply Hn.
Qed.

End OSFacts.

(* ===================================================================== *)
(** ** [removeDirIfEmpty] *)
(* ===================================================================== *)

Section EmptyCheck.
Import OS Clean.

(** The listing that [removeDirIfEmpty] tests: in a dry run, the entries
    whose full path is not in [removedPaths]. *)
Lemma removeDirIfEmpty_eq st dirPath dryRun dirFiles :
  ReadDir (disk st) dirPath = inr dirFiles →
  removeDirIfEmpty dirPath dryRun st =
  let listing :=
    if dryRun then
      List.filter
        (fun f => negb (bool_decide
                          (GoPath.Join [dirPath; Name f] ∈ removedPaths st)))
        dirFiles
    else dirFiles in
  match listing with
  | _ :: _ => (st, Ok false)
  | [] =>
      if negb dryRun && ends_with_dot dirPath
      then (st, Err (ErrRemoveDirectory dirPath EINVAL))
      else
        (mkState
           (if dryRun then disk st
            else filter (fun kv => ¬ resolve dirPath `prefix_of` kv.1)
                        (disk st))
           ({[dirPath]} ∪ removedPaths st)
           (stdout st)
           (if dryRun then unlinked st else unlinked st ++ [dirPath]),
         Ok true)
  end.
Proof.
  intros Hr. pose proof (ReadDir_Stat _ _ _ Hr) as Hs.
  unfold removeDirIfEmpty. unfold mbind, M_bind, get. simpl.
  rewrite Hs, Hr.
  destruct dryRun; simpl.
  - destruct (List.filter _ dirFiles); simpl; [|done].
    unfold mret, M_ret, mark. simpl. done.
  - destruct dirFiles; simpl; [|done].
    unfold remove_call. rewrite (RemoveAll_readable _ _ _ Hr).
    by destruct (ends_with_dot dirPath).
Qed.

(** C5.  [removeDirIfEmpty] on a directory it can read: in a dry run the
    entries whose full path is in [removedPaths] are left out of the
    listing.  When the listing is not empty the call returns [false]
    and nothing changes.  When the listing is empty, a dry run records
    the directory in [removedPaths] and returns [true], the disk being
    left as it is; a real run calls [os.RemoveAll]: for a path that
    does not end in [.] the directory is removed from the disk (with
    nothing else), recorded in [removedPaths], and the call returns
    [true]; a path that ends in [.] is refused by [os.RemoveAll], and
    the call returns this error as "failed to remove directory", with
    nothing removed or recorded. *)
Theorem removeDirIfEmpty_semantics st dirPath (dryRun : bool) dirFiles :
  ReadDir (disk st) dirPath = inr dirFiles →
  let listing : list FileInfo :=
    if dryRun then
      List.filter
        (fun f => negb (bool_decide
                          (GoPath.Join [dirPath; Name f] ∈ removedPaths st)))
        dirFiles
    else dirFiles in
  let refused := negb dryRun && ends_with_dot dirPath in
  let r := removeDirIfEmpty dirPath dryRun st in
  (r.2 = Ok true ↔ listing = [] ∧ refused = false) ∧
  (r.2 = Ok false ↔ listing ≠ []) ∧
  (r.2 = Err (ErrRemoveDirectory dirPath EINVAL) ↔
   listing = [] ∧ refused = true) ∧
  (listing ≠ [] ∨ refused = true → r.1 = st) ∧
  (listing = [] → refused = false →
     removedPaths r.1 = {[dirPath]} ∪ removedPaths st ∧
     stdout r.1 = stdout st ∧
     (dryRun = true → disk r.1 = disk st ∧ unlinked r.1 = unlinked st) ∧
     (dryRun = false →
        disk r.1 !! resolve dirPath = None ∧
        disk r.1 = filter (fun kv => ¬ resolve dirPath `prefix_of` kv.1)
                          (disk st) ∧
        unlinked r.1 = unlinked st ++ [dirPath])).
Proof.
  intros Hr. cbv zeta.
  rewrite (removeDirIfEmpty_eq _ _ _ _ Hr). cbv zeta.
  match goal with
  | |- context [match ?x with [] => _ | _ :: _ => _ end] => destruct x
  end.
  - destruct (negb dryRun && ends_with_dot dirPath) eqn:Hd; simpl.
    + split; [split; [done | by intros [_ ?]] |].
      split; [split; [done | by intros []] |].
      split; [done |]. split; [done |]. by intros _ ?.
    + split; [done |].
      split; [split; [done | by intros []] |].
      split; [split; [done | by intros [_ ?]] |].
      split; [by intros [[]|?] |]. intros _ _.
      split; [done |]. split; [done |].
      split; [by intros -> |]. intros ->. split; [|done].
      apply map_lookup_filter_None. right. intros d _ Hn. by apply Hn.
  - simpl. split; [split; [done | by intros [? _]] |].
    split; [done |]. split; [split; [done | by intros [? _]] |].
    split; [done |]. by intros ?.
Qed.

(** The other two exits of [removeDirIfEmpty]. *)
Lemma removeDirIfEmpty_absent st dirPath dryRun :
  IsNotExist (err_of (Stat (disk st) dirPath)) = true →
  removeDirIfEmpty dirPath dryRun st = (st, Ok false).
Proof.
  intros H. unfold removeDirIfEmpty, mbind, M_bind, get. simpl.
  by rewrite H.
Qed.

Lemma removeDirIfEmpty_unreadable st dirPath dryRun e :
  IsNotExist (err_of (Stat (disk st) dirPath)) = false →
  ReadDir (disk st) dirPath = inl e →
  removeDirIfEmpty dirPath dryRun st = (st, Err (ErrReadDirectory dirPath e)).
Proof.
  intros H1 H2. unfold removeDirIfEmpty, mbind, M_bind, get. simpl.
  by rewrite H1, H2.
Qed.

End EmptyCheck.

(* ===================================================================== *)
(** ** The manual dister *)
(* ===================================================================== *)

Section ManualDister.
Import OS Dister.

Lemma Artifacts_single d renderedNameTemplate :
  ∃ path0, Artifacts d renderedNameTemplate = [path0].
Proof. unfold Artifacts. eauto. Qed.

(** C8.  What [GenerateDistArtifacts] does.  It fails when the number
    of artifact paths is not one.  For the one artifact path, it fails
    with "expected output does not exist" when [os.Stat] returns a "does
    not exist" error, fails with "is a directory" when the path is a
    directory, returns [nil] when the path is another file, and panics
    on every other error of [os.Stat].  The artifact path
    [/proj/dist/app-1.0.0.tgz] where [/proj/dist] is a regular file does
    not exist, and [os.Stat] fails on it with "not a directory": for
    this missing path the call returns no error, it panics. *)
Theorem GenerateDistArtifacts_outcomes :
  (∀ fs artifactPaths,
     length artifactPaths ≠ 1 →
     verifyArtifacts fs artifactPaths = Return (Some ErrSingleArtifact)) ∧
  (∀ fs d renderedNameTemplate,
     ∃ path0,
       Artifacts d renderedNameTemplate = [path0] ∧
       GenerateDistArtifacts d renderedNameTemplate fs
       = match Stat fs path0 with
         | inl ENOENT => Return (Some (ErrNotExist path0 (Some ENOENT)))
         | inl _ => Panic
         | inr fi =>
             if IsDir fi then Return (Some (ErrIsDirectory path0))
             else Return None
         end) ∧
  Artifacts {| Extension := "tgz" |} "/proj/dist/app-1.0.0"
  = ["/proj/dist/app-1.0.0.tgz"] ∧
  Scenario.fs_no_output !! resolve "/proj/dist/app-1.0.0.tgz" = None ∧
  Scenario.fs_no_output !! resolve "/proj/dist" = Some false ∧
  GenerateDistArtifacts {| Extension := "tgz" |} "/proj/dist/app-1.0.0"
    Scenario.fs_no_output = Panic.
Proof.
  split; [|split].
  - intros fs artifactPaths Hn. unfold verifyArtifacts.
    destruct (Nat.eqb_spec (length artifactPaths) 1); done.
  - intros fs d t. destruct (Artifacts_single d t) as [path0 Hp].
    exists path0. split; [done |].
    unfold GenerateDistArtifacts. rewrite Hp. unfold verifyArtifacts. simpl.
    by destruct (Stat fs path0) as [[]|fi].
  - repeat split; vm_compute; reflexivity.
Qed.

(** C9.  [Artifacts] returns exactly one path, whatever the extension
    of the configuration and the rendered name template are, and
    [GenerateDistArtifacts] never returns the error "manual
    distribution must produce a single artifact". *)
Theorem Artifacts_one_path cfg renderedNameTemplate :
  length (Artifacts (ToDister cfg) renderedNameTemplate) = 1 ∧
  ∀ fs,
    GenerateDistArtifacts (ToDister cfg) renderedNameTemplate fs
    ≠ Return (Some ErrSingleArtifact).
Proof.
  split; [done |]. intros fs.
  unfold GenerateDistArtifacts, Artifacts, verifyArtifacts. simpl.
  destruct (IsNotExist _); [done |].
  destruct (Stat _ _) as [e | fi]; [done |].
  destruct (IsDir fi); done.
Qed.

(** A failure of [os.Stat] other than "does not exist" leaves [fi]
    [nil], and the call [fi.IsDir()] panics. *)
Lemma GenerateDistArtifacts_stat_error d renderedNameTemplate fs :
  ∃ path0,
    Artifacts d renderedNameTemplate = [path0] ∧
    ∀ e, Stat fs path0 = inl e → e ≠ ENOENT →
         GenerateDistArtifacts d renderedNameTemplate fs = Panic.
Proof.
  destruct (Artifacts_single d renderedNameTemplate) as [path0 Hp].
  exists path0. split; [done |]. intros e He Hne.
  unfold GenerateDistArtifacts. rewrite Hp. unfold verifyArtifacts. simpl.
  rewrite He. destruct e; done.
Qed.

(** C10.  The artifact path [/proj/dist/app-1.0.0.tgz] when [/proj/dist]
    is a regular file: [os.Stat] fails with an error that is not "does
    not exist", and [GenerateDistArtifacts] panics instead of returning
    an error. *)
Theorem GenerateDistArtifacts_panics :
  Stat Scenario.fs_no_output "/proj/dist/app-1.0.0.tgz" = inl ENOTDIR ∧
  GenerateDistArtifacts {| Extension := "tgz" |} "/proj/dist/app-1.0.0"
    Scenario.fs_no_output = Panic.
Proof. split; vm_compute; reflexivity. Qed.

End ManualDister.

(* ===================================================================== *)
(** ** The paths to remove *)
(* ===================================================================== *)

Section PathsToRemove.
Import OS Clean.

Lemma foldE_inr {A S} (body : S → A → error + S) l s :
  (∀ a, a ∈ l → body s a = inr s) → foldE body l s = inr s.
Proof.
  induction l as [|a l IH]; intros H; simpl; [done |].
  rewrite H by (by left). apply IH. intros b Hb. apply H. by right.
Qed.

Lemma fold_left_id {A S} (f : S → A → S) l s :
  (∀ a, a ∈ l → f s a = s) → fold_left f l s = s.
Proof.
  induction l as [|a l IH]; intros H; simpl; [done |].
  rewrite H by (by left). apply IH. intros b Hb. apply H. by right.
Qed.

Lemma foldP_all {A S} (c : A → bool) (f : S → A → S) l s :
  foldP (fun s a => if c a then Some (f s a) else None) l s
  = if forallb c l then Some (fold_left f l s) else None.
Proof.
  revert s. induction l as [|a l IH]; intros s; simpl; [done |].
  destruct (c a); [apply IH | done].
Qed.


(** [Run] in terms of the paths that its loops collect: it panics when
    it has found the binaries and a text is no regular expression. *)
Lemma plan_eq Dist Dist_OutputDir FullArtifactsPaths Compiles MatchString fs
    (b : ProductBuildSpecWithDeps Dist) :
  plan Dist Dist_OutputDir FullArtifactsPaths Compiles MatchString fs b
  = match Outputs.planFiles Dist Dist_OutputDir FullArtifactsPaths MatchString
            fs b with
    | inl e => Err e
    | inr removePaths =>
        if Outputs.compiles Dist FullArtifactsPaths Compiles b
        then Ok removePaths else Panic
    end.
Proof.
  unfold plan, Outputs.planFiles, Outputs.compiles.
  destruct (binPaths Dist fs b) as [e|removePaths]; [done |].
  unfold distPaths. cbv zeta.
  rewrite (foldP_all
             (fun currDist =>
                forallb Compiles
                  (distDirRegexps Dist FullArtifactsPaths
                     (withVersion Dist (Spec Dist b) ".+") currDist))
             (distFiles Dist Dist_OutputDir FullArtifactsPaths MatchString fs
                (withVersion Dist (Spec Dist b) ".+"))).
  by destruct (forallb _ _).
Qed.

Lemma Run_planFiles Dist Dist_OutputDir FullArtifactsPaths Compiles MatchString
    (b : ProductBuildSpecWithDeps Dist) dryRun st :
  Run Dist Dist_OutputDir FullArtifactsPaths Compiles MatchString b dryRun st
  = match Outputs.planFiles Dist Dist_OutputDir FullArtifactsPaths MatchString
            (disk st) b with
    | inl e => (st, Err e)
    | inr removePaths =>
        if Outputs.compiles Dist FullArtifactsPaths Compiles b
        then Execute (ProductName Dist (Spec Dist b)) removePaths dryRun st
        else (st, Panic)
    end.
Proof.
  unfold Run, mbind, M_bind, get. rewrite plan_eq.
  destruct (Outputs.planFiles _ _ _ _ _ _) as [e|removePaths]; [done |].
  by destruct (Outputs.compiles _ _ _ _).
Qed.

(** With no directory to read, [Run] removes and reports nothing and
    returns no error. *)
Lemma Run_nothing_to_clean Dist Dist_OutputDir FullArtifactsPaths Compiles
    MatchString (b : ProductBuildSpecWithDeps Dist) fs :
  Outputs.compiles Dist FullArtifactsPaths Compiles b = true →
  (∀ outputDir products,
     outputDirToMap Dist b !! outputDir = Some products →
     ∃ e, ReadDir fs outputDir = inl e) →
  (∀ currDist,
     currDist ∈ Dists Dist (Spec Dist b) →
     ∃ e, ReadDir fs (GoPath.Join [ProjectDir Dist (Spec Dist b);
                                  Dist_OutputDir currDist]) = inl e) →
  Run Dist Dist_OutputDir FullArtifactsPaths Compiles MatchString b false
      (start fs)
  = (start fs, Ok ()).
Proof.
  intros Hc Hbin Hdist. rewrite Run_planFiles, Hc. simpl disk.
  unfold Outputs.planFiles.
  assert (binPaths Dist fs b = inr ∅) as ->.
  { unfold binPaths. apply foldE_inr.
    intros [outputDir products] Hin%elem_of_map_to_list.
    destruct (Hbin _ _ Hin) as [e He].
    unfold cleanBinOutput. rewrite He. by rewrite elements_empty. }
  rewrite fold_left_id.
  - reflexivity.
  - intros currDist Hin. destruct (Hdist _ Hin) as [e He].
    unfold distFiles, withVersion. simpl in He |- *. by rewrite He.
Qed.

End PathsToRemove.

(* ===================================================================== *)
(** ** The check of the root directory *)
(* ===================================================================== *)

Section RootCheck.
Import OS Clean.

Lemma cleanPath_stray (dryRun : bool) p info st :
  GoStrings.Contains p (rootDir info) = false →
  cleanPath dryRun p info st =
  if dryRun then
    (mkState (disk st) ({[p]} ∪ removedPaths st)
             (stdout st ++ [path_line p]) (unlinked st),
     Err (ErrRootDir (rootDir info) p))
  else
    match Stat (disk st) p with
    | inl _ =>
        (mkState (disk st) ({[p]} ∪ removedPaths st) (stdout st) (unlinked st),
         Err (ErrRootDir (rootDir info) p))
    | inr _ =>
        match (if isDir info then RemoveAll else Remove) (disk st) p with
        | inr fs' =>
            (mkState fs' ({[p]} ∪ removedPaths st) (stdout st)
                     (unlinked st ++ [p]),
             Err (ErrRootDir (rootDir info) p))
        | inl e =>
            (st, Err ((if isDir info then ErrRemoveDirectory
                       else ErrRemoveFile) p e))
        end
    end.
Proof.
  intros Hc. unfold cleanPath, removeTarget, mbind, M_bind. rewrite Hc. simpl.
  destruct dryRun; [done |].
  unfold get. destruct (Stat (disk st) p) as [e|fi]; [done |].
  destruct (isDir info); unfold remove_call; simpl.
  - destruct (RemoveAll (disk st) p); done.
  - destruct (Remove (disk st) p); done.
Qed.

Lemma forPaths_fails body paths p st :
  p ∈ paths →
  (∀ st, ∃ e, (body p st).2 = Err e) →
  (forPaths body paths st).2 ≠ Ok ().
Proof.
  intros Hin Hp. revert st.
  induction paths as [|a paths IH]; intros st; [by inversion Hin |].
  simpl. unfold mbind, M_bind.
  destruct (body a st) as [st' [[]|e| |]] eqn:Ha; [|done..].
  apply elem_of_cons in Hin as [<-|Hin].
  - destruct (Hp st) as [e He]. rewrite Ha in He. done.
  - by apply IH.
Qed.

Lemma sortedPaths_elem (removePaths : gmap string pathInfo) p :
  p ∈ GoStrings.Sort (map_to_list removePaths).*1 ↔ is_Some (removePaths !! p).
Proof.
  unfold GoStrings.Sort. rewrite merge_sort_Permutation.
  rewrite list_elem_of_fmap. split.
  - intros [[q info] [-> Hin%elem_of_map_to_list]]. by eexists.
  - intros [info Hin]. exists (p, info). split; [done |].
    by apply elem_of_map_to_list.
Qed.

(** C4, as the code has it.  A path in which its root directory does
    not occur makes the step of [Run] for it return an error: in a dry
    run right away, in a real run after the path itself has been
    removed when it was there.  No directory is examined or removed
    on the way, and the whole run does not return [nil]. *)
Theorem root_check (dryRun : bool) p info st :
  GoStrings.Contains p (rootDir info) = false →
  let r := cleanPath dryRun p info st in
  (∃ e, r.2 = Err e) ∧
  (dryRun = true →
     r.2 = Err (ErrRootDir (rootDir info) p) ∧ disk r.1 = disk st ∧
     unlinked r.1 = unlinked st) ∧
  (dryRun = false →
     match Stat (disk st) p with
     | inl _ =>
         r.2 = Err (ErrRootDir (rootDir info) p) ∧ disk r.1 = disk st ∧
         unlinked r.1 = unlinked st
     | inr _ =>
         match (if isDir info then RemoveAll else Remove) (disk st) p with
         | inr fs' =>
             r.2 = Err (ErrRootDir (rootDir info) p) ∧ disk r.1 = fs' ∧
             unlinked r.1 = unlinked st ++ [p]
         | inl e =>
             r.2 = Err ((if isDir info then ErrRemoveDirectory
                         else ErrRemoveFile) p e) ∧ r.1 = st
         end
     end) ∧
  (∀ l, ¬ resolve p `prefix_of` l → disk r.1 !! l = disk st !! l) ∧
  (∀ product removePaths st0,
     removePaths !! p = Some info →
     (Execute product removePaths dryRun st0).2 ≠ Ok ()).
Proof.
  intros Hc. cbv zeta. rewrite (cleanPath_stray _ _ _ _ Hc).
  repeat split.
  - destruct dryRun; [by eexists |].
    destruct (Stat _ _); [by eexists |].
    destruct (_ (disk st) p); by eexists.
  - by subst.
  - by subst.
  - by subst.
  - intros ->. destruct (Stat _ _); [done |].
    destruct (_ (disk st) p); done.
  - intros l Hl. destruct dryRun; [done |].
    destruct (Stat _ _); [done |].
    destruct ((if isDir info then RemoveAll else Remove) (disk st) p)
      as [e|fs'] eqn:E; [done |].
    simpl. by eapply removal_frame.
  - intros product removePaths st0 Hp.
    unfold Execute, mbind, M_bind.
    destruct (when dryRun _ st0) as [st1 [[]|e| |]] eqn:Hw; [|done..].
    apply forPaths_fails with (p := p).
    + apply sortedPaths_elem. by eexists.
    + intros st'. rewrite Hp. simpl.
      rewrite (cleanPath_stray _ _ _ _ Hc).
      destruct dryRun; [by eexists |].
      destruct (Stat _ _); [by eexists |].
      destruct (_ (disk st') p); by eexists.
Qed.

End RootCheck.

(* ===================================================================== *)
(** ** [Run] on absolute clean paths *)
(* ===================================================================== *)

Section OnCleanPaths.
Import OS Paths Clean.
#[local] Arguments GoPath.Join : simpl never.
#[local] Arguments GoPath.Dir : simpl never.
#[local] Arguments render : simpl never.

Lemma filter_nil {A} (g : A → bool) (l : list A) :
  List.filter g l = [] ↔ ∀ a, a ∈ l → g a = false.
Proof.
  induction l as [|a l IH]; simpl.
  - split; [intros _ a Ha; by inversion Ha | done].
  - destruct (g a) eqn:Ha.
    + split; [done |]. intros H. specialize (H a (list_elem_of_here _ _)).
      congruence.
    + rewrite IH. split.
      * intros H b [->|Hb]%elem_of_cons; [done | by apply H].
      * intros H b Hb. apply H. by right.
Qed.

Lemma vacant_spec (dryRun : bool) R fs l :
  vacant dryRun R fs l = true ↔
  ∀ n d, fs !! (l ++ [n]) = Some d → dryRun = true ∧ render (l ++ [n]) ∈ R.
Proof.
  unfold vacant. rewrite forallb_forall. split.
  - intros H n d Hn.
    specialize (H {| Name := n; IsDir := d |}).
    rewrite <- list_elem_of_In, entries_spec in H. specialize (H Hn).
    apply andb_true_iff in H as [H1 H2%bool_decide_eq_true]. simpl in H2.
    by destruct dryRun.
  - intros H f Hf%list_elem_of_In%entries_spec.
    destruct (H _ _ Hf) as [-> HR]. simpl. by apply bool_decide_eq_true.
Qed.

Lemma vacant_real R fs l :
  vacant false R fs l = true ↔ ∀ n, fs !! (l ++ [n]) = None.
Proof.
  rewrite vacant_spec. split.
  - intros H n. destruct (fs !! (l ++ [n])) as [d|] eqn:E; [|done].
    by destruct (H _ _ E).
  - intros H n d Hn. by rewrite H in Hn.
Qed.

(** The listing that [removeDirIfEmpty] tests is empty exactly when the
    directory is [vacant]. *)
Lemma listing_vacant (dryRun : bool) R fs l :
  wf_fs fs = true → Forall (λ n, valid_name n = true) l →
  (if dryRun then
     List.filter
       (fun f => negb (bool_decide (GoPath.Join [render l; Name f] ∈ R)))
       (merge_sort name_le (entries fs l))
   else merge_sort name_le (entries fs l)) = []
  ↔ vacant dryRun R fs l = true.
Proof.
  intros Hwf Hl. destruct dryRun.
  - rewrite filter_nil, vacant_spec. split.
    + intros H n d Hn. split; [done |].
      specialize (H {| Name := n; IsDir := d |}).
      rewrite merge_sort_Permutation, entries_spec in H.
      specialize (H Hn). simpl in H.
      apply negb_false_iff, bool_decide_eq_true in H.
      rewrite Join_render in H; [done |]. by eapply wf_valid.
    + intros H f Hf. rewrite merge_sort_Permutation, entries_spec in Hf.
      apply negb_false_iff, bool_decide_eq_true.
      rewrite Join_render by (by eapply wf_valid).
      by destruct (H _ _ Hf).
  - rewrite vacant_real, <- entries_nil. split.
    + intros H. apply Permutation_nil_r. rewrite <- H.
      by rewrite merge_sort_Permutation.
    + by intros ->.
Qed.

(** [removeDirIfEmpty] in terms of the files on the disk. *)
Lemma removeDirIfEmpty_render st l (dryRun : bool) :
  wf_fs (disk st) = true → Forall (λ n, valid_name n = true) l →
  removeDirIfEmpty (render l) dryRun st =
  match disk st !! l with
  | Some true =>
      if vacant dryRun (removedPaths st) (disk st) l then
        (mkState (if dryRun then disk st else rm l (disk st))
                 ({[render l]} ∪ removedPaths st)
                 (stdout st)
                 (if dryRun then unlinked st else unlinked st ++ [render l]),
         Ok true)
      else (st, Ok false)
  | Some false => (st, Err (ErrReadDirectory (render l) ENOTDIR))
  | None =>
      if under_file (disk st) l
      then (st, Err (ErrReadDirectory (render l) ENOTDIR))
      else (st, Ok false)
  end.
Proof.
  intros Hwf Hl.
  destruct (disk st !! l) as [[|]|] eqn:E.
  - rewrite (removeDirIfEmpty_eq st (render l) dryRun
               (merge_sort name_le (entries (disk st) l)))
      by (by rewrite ReadDir_render, E).
    cbv zeta. rewrite resolve_render, ends_with_dot_render by done.
    rewrite andb_false_r. fold (rm l (disk st)).
    pose proof (listing_vacant dryRun (removedPaths st) (disk st) l Hwf Hl)
      as Hv.
    destruct (vacant dryRun (removedPaths st) (disk st) l).
    + destruct Hv as [_ Hv]. by rewrite Hv.
    + destruct (if dryRun then _ else _) as [|f fs'] eqn:E'; [|done].
      destruct Hv as [Hv _]. by specialize (Hv eq_refl).
  - apply removeDirIfEmpty_unreadable.
    + by rewrite Stat_render, E.
    + by rewrite ReadDir_render, E.
  - unfold lookup_err. destruct (under_file (disk st) l) eqn:U.
    + replace ENOTDIR with (lookup_err (disk st) l)
        by (unfold lookup_err; by rewrite U).
      apply removeDirIfEmpty_unreadable.
      * rewrite Stat_render, E by done. unfold lookup_err. by rewrite U.
      * by rewrite ReadDir_render, E.
    + apply removeDirIfEmpty_absent.
      rewrite Stat_render, E by done. unfold lookup_err. by rewrite U.
Qed.

(** One iteration of the loop that walks up from a removed path. *)
Lemma cascade_render k lr rest n (dryRun : bool) st :
  Forall (λ n, valid_name n = true) (lr ++ rest ++ [n]) →
  cascade (S k) (render lr) dryRun (render (lr ++ rest ++ [n])) st =
  if decide (rest = []) then (st, Ok ())
  else if IsNotExist (err_of (Stat (disk st) (render (lr ++ rest))))
  then (st, Ok ())
  else
    match removeDirIfEmpty (render (lr ++ rest)) dryRun st with
    | (st', Ok true) =>
        cascade k (render lr) dryRun (render (lr ++ rest))
          (if dryRun
           then mkState (disk st') (removedPaths st')
                  (stdout st' ++ [path_line (render (lr ++ rest))])
                  (unlinked st')
           else st')
    | (st', Ok false) => (st', Ok ())
    | (st', Err e) => (st', Err e)
    | (st', NoReturn) => (st', NoReturn)
    | (st', Panic) => (st', Panic)
    end.
Proof.
  intros Hv. rewrite app_assoc in Hv |- *.
  pose proof Hv as [Hv' _]%valid_snoc.
  pose proof Hv' as [Hlr _]%Forall_app.
  simpl. rewrite Dir_render_snoc by done.
  destruct (decide (rest = [])) as [->|Hne].
  - rewrite app_nil_r. by rewrite bool_decide_eq_true_2.
  - rewrite bool_decide_eq_false_2.
    2:{ intros E%render_inj; [|done..].
        apply Hne. apply (app_inv_head lr). by rewrite app_nil_r. }
    unfold mbind, M_bind, get. simpl.
    destruct (IsNotExist _); [done |].
    destruct (removeDirIfEmpty _ dryRun st) as [st' [[|]|e| |]]; try done.
    destruct dryRun; simpl; [|done].
    unfold Fprintf. simpl. done.
Qed.

(** The body of the loop of [Run], call by call. *)
Lemma cleanPath_eq (dryRun : bool) p info st :
  cleanPath dryRun p info st =
  match removeTarget dryRun p info st with
  | (st1, Ok _) =>
      let st2 := mkState (disk st1) ({[p]} ∪ removedPaths st1)
                         (stdout st1) (unlinked st1) in
      if negb (GoStrings.Contains p (rootDir info))
      then (st2, Err (ErrRootDir (rootDir info) p))
      else
        match cascade (iterations p) (rootDir info) dryRun p st2 with
        | (st3, Ok _) =>
            match removeDirIfEmpty (rootDir info) dryRun st3 with
            | (st4, Ok b) =>
                (if b && dryRun
                 then mkState (disk st4) (removedPaths st4)
                        (stdout st4 ++ [path_line (rootDir info)])
                        (unlinked st4)
                 else st4, Ok ())
            | (st4, Err e) => (st4, Err e)
            | (st4, NoReturn) => (st4, NoReturn)
            | (st4, Panic) => (st4, Panic)
            end
        | (st3, Err e) => (st3, Err e)
        | (st3, NoReturn) => (st3, NoReturn)
        | (st3, Panic) => (st3, Panic)
        end
  | (st1, Err e) => (st1, Err e)
  | (st1, NoReturn) => (st1, NoReturn)
  | (st1, Panic) => (st1, Panic)
  end.
Proof.
  unfold cleanPath, mbind, M_bind.
  destruct (removeTarget dryRun p info st) as [st1 [[]|e| |]]; [|done..].
  unfold mark at 1. cbv zeta.
  destruct (negb (GoStrings.Contains p (rootDir info))); [done |].
  destruct (cascade _ _ _ _ _) as [st3 [[]|e| |]]; [|done..].
  destruct (removeDirIfEmpty _ _ st3) as [st4 [b|e| |]]; [|done..].
  by destruct b, dryRun.
Qed.

End OnCleanPaths.

(* ===================================================================== *)
(** ** The root directory as boundary *)
(* ===================================================================== *)

Section Boundary.
Import OS Paths Clean Effects.
#[local] Arguments GoPath.Join : simpl never.
#[local] Arguments GoPath.Dir : simpl never.
#[local] Arguments render : simpl never.

Lemma within_refl lr st : within lr st st.
Proof.
  repeat split.
  - exists []. by rewrite app_nil_r.
  - exists []. by rewrite app_nil_r.
Qed.

Lemma within_trans lr st1 st2 st3 :
  within lr st1 st2 → within lr st2 st3 → within lr st1 st3.
Proof.
  intros ([xs [E1 F1]] & [ys [E2 F2]] & D1) ([xs' [E1' F1']] & [ys' [E2' F2']] & D2).
  repeat split.
  - exists (xs ++ xs'). rewrite E1', E1, app_assoc. split; [done |].
    by apply Forall_app.
  - exists (ys ++ ys'). rewrite E2', E2, fmap_app, app_assoc. split; [done |].
    by apply Forall_app.
  - intros k Hk. by rewrite D2, D1.
Qed.

Lemma within_print lr st x :
  lr `prefix_of` resolve x →
  within lr st (mkState (disk st) (removedPaths st)
                        (stdout st ++ [path_line x]) (unlinked st)).
Proof.
  intros Hx. repeat split.
  - exists []. by rewrite app_nil_r.
  - exists [x]. split; [done |]. by constructor.
Qed.

Lemma within_mark lr st x :
  within lr st (mkState (disk st) ({[x]} ∪ removedPaths st)
                        (stdout st) (unlinked st)).
Proof.
  repeat split.
  - exists []. by rewrite app_nil_r.
  - exists []. by rewrite app_nil_r.
Qed.

Lemma within_unlink lr st x fs' R :
  lr `prefix_of` resolve x →
  (∀ k, ¬ resolve x `prefix_of` k → fs' !! k = disk st !! k) →
  within lr st (mkState fs' R (stdout st) (unlinked st ++ [x])).
Proof.
  intros Hx Hd. repeat split.
  - exists [x]. split; [done |]. by constructor.
  - exists []. by rewrite app_nil_r.
  - intros k Hk. apply Hd. intros Hp. apply Hk. by etrans.
Qed.

Lemma removeDirIfEmpty_cases st dir (dryRun : bool) :
  removeDirIfEmpty dir dryRun st = (st, Ok false) ∨
  (∃ e, removeDirIfEmpty dir dryRun st = (st, Err e)) ∨
  removeDirIfEmpty dir dryRun st =
    (mkState
       (if dryRun then disk st
        else filter (fun kv => ¬ resolve dir `prefix_of` kv.1) (disk st))
       ({[dir]} ∪ removedPaths st) (stdout st)
       (if dryRun then unlinked st else unlinked st ++ [dir]),
     Ok true).
Proof.
  destruct (IsNotExist (err_of (Stat (disk st) dir))) eqn:Hs.
  - left. by apply removeDirIfEmpty_absent.
  - destruct (ReadDir (disk st) dir) as [e|files] eqn:Hr.
    + right; left. exists (ErrReadDirectory dir e).
      by apply removeDirIfEmpty_unreadable.
    + rewrite (removeDirIfEmpty_eq _ _ _ _ Hr). cbv zeta.
      destruct (if dryRun then _ else files); [|auto].
      destruct (negb dryRun && ends_with_dot dir); eauto.
Qed.

Lemma removeDirIfEmpty_within lr st dir dryRun :
  lr `prefix_of` resolve dir →
  within lr st (removeDirIfEmpty dir dryRun st).1.
Proof.
  intros Hd.
  destruct (removeDirIfEmpty_cases st dir dryRun) as [->|[[e ->]| ->]];
    [apply within_refl.. |].
  simpl. destruct dryRun.
  - apply within_mark.
  - apply within_unlink; [done |].
    intros k Hk. by apply lookup_rm_other.
Qed.

Lemma removeDirIfEmpty_prints st dir dryRun :
  stdout (removeDirIfEmpty dir dryRun st).1 = stdout st.
Proof.
  by destruct (removeDirIfEmpty_cases st dir dryRun) as [->|[[e ->]| ->]].
Qed.

Lemma cascade_within k lr rest n dryRun st :
  Forall (λ n, valid_name n = true) (lr ++ rest ++ [n]) →
  within lr st
    (cascade k (render lr) dryRun (render (lr ++ rest ++ [n])) st).1.
Proof.
  revert rest n st. induction k as [|k IH]; intros rest n st Hv.
  { apply within_refl. }
  rewrite cascade_render by done.
  destruct (decide (rest = [])) as [->|Hne]; [apply within_refl |].
  destruct (IsNotExist _); [apply within_refl |].
  assert (Forall (λ n, valid_name n = true) (lr ++ rest)) as Hv'.
  { rewrite app_assoc in Hv. by apply valid_snoc in Hv as [? _]. }
  assert (lr `prefix_of` resolve (render (lr ++ rest))) as Hp.
  { rewrite resolve_render by done. by apply prefix_app_r. }
  pose proof (removeDirIfEmpty_within lr st _ dryRun Hp) as Hw.
  destruct (removeDirIfEmpty _ dryRun st) as [st' [[|]|e| |]]; try done.
  destruct (exists_last Hne) as (rest' & m & ->).
  eapply within_trans; [exact Hw |]. simpl in Hw.
  eapply within_trans; [|by apply IH].
  destruct dryRun; [by apply within_print | apply within_refl].
Qed.

Lemma entry_ok_inv p info :
  entry_ok p info = true →
  ∃ lr rest n,
    p = render (lr ++ rest ++ [n]) ∧ rootDir info = render lr ∧
    Forall (λ n, valid_name n = true) (lr ++ rest ++ [n]).
Proof.
  unfold entry_ok, below.
  intros [[Hp Hr]%andb_true_iff
          [Hpre%bool_decide_eq_true Hne%negb_true_iff%bool_decide_eq_false
          ]%andb_true_iff]%andb_true_iff.
  destruct Hpre as [t Ht].
  destruct (unsnoc_cases t) as [->|(rest & n & ->)].
  { rewrite app_nil_r in Ht. by rewrite Ht in Hne. }
  exists (resolve (rootDir info)), rest, n.
  rewrite <- Ht. split; [by apply abs_clean_render |].
  split; [by apply abs_clean_render | apply resolve_valid].
Qed.

Lemma removeTarget_within lr dryRun p info st :
  lr `prefix_of` resolve p →
  within lr st (removeTarget dryRun p info st).1.
Proof.
  intros Hp. unfold removeTarget. destruct dryRun.
  - by apply within_print.
  - unfold mbind, M_bind, get. simpl.
    destruct (Stat (disk st) p); [apply within_refl |].
    destruct (isDir info); unfold remove_call.
    + destruct (RemoveAll (disk st) p) as [e|fs'] eqn:E; simpl;
        [apply within_refl |].
      apply within_unlink; [done |]. intros k. by apply (removal_frame true).
    + destruct (Remove (disk st) p) as [e|fs'] eqn:E; simpl;
        [apply within_refl |].
      apply within_unlink; [done |]. intros k. by apply (removal_frame false).
Qed.

(** The step for an entry touches nothing outside its root directory. *)
Lemma cleanPath_within dryRun p info st :
  entry_ok p info = true →
  within (resolve (rootDir info)) st (cleanPath dryRun p info st).1.
Proof.
  intros (lr & rest & n & -> & Hr & Hv)%entry_ok_inv.
  destruct info as [root isd]. simpl in Hr. subst root. simpl.
  assert (Forall (λ n, valid_name n = true) lr) as Hlr
      by (by apply Forall_app in Hv as [? _]).
  rewrite resolve_render by done.
  assert (lr `prefix_of` resolve (render (lr ++ rest ++ [n]))) as Hp.
  { rewrite resolve_render by done. by apply prefix_app_r. }
  rewrite cleanPath_eq. cbv zeta.
  change (rootDir {| rootDir := render lr; isDir := isd |}) with (render lr).
  pose proof (removeTarget_within lr dryRun _
                {| rootDir := render lr; isDir := isd |} st Hp) as H1.
  destruct (removeTarget _ _ _ st) as [st1 [[]|e| |]]; try done.
  rewrite Contains_render.
  change (negb true) with false. cbv iota.
  set (st2 := mkState _ _ _ _).
  assert (within lr st st2) as H2
      by (eapply within_trans; [exact H1 | apply within_mark]).
  pose proof (cascade_within (iterations (render (lr ++ rest ++ [n])))
                lr rest n dryRun st2 Hv) as H3.
  destruct (cascade _ _ _ _ st2) as [st3 [[]|e| |]]; simpl in H3;
    try (by eapply within_trans).
  assert (lr `prefix_of` resolve (render lr)) as Hpr
      by (by rewrite resolve_render).
  pose proof (removeDirIfEmpty_within lr st3 _ dryRun Hpr) as H4.
  destruct (removeDirIfEmpty _ dryRun st3) as [st4 [b|e| |]]; simpl in H4;
    try (by repeat (eapply within_trans; [eassumption |]); apply within_refl).
  assert (within lr st st4) as H5
      by (by repeat (eapply within_trans; [eassumption |]); apply within_refl).
  destruct b, dryRun; try done.
  eapply within_trans; [exact H5 |]. by apply within_print.
Qed.

Lemma within_in_some_root removePaths p info st st' :
  removePaths !! p = Some info →
  within (resolve (rootDir info)) st st' → within_roots removePaths st st'.
Proof.
  intros Hp ([xs [E1 F1]] & [ys [E2 F2]] & D).
  assert (∀ k, resolve (rootDir info) `prefix_of` k → in_some_root removePaths k)
    as Hin by (intros k Hk; by exists p, info).
  repeat split.
  - exists xs. split; [done |]. eapply Forall_impl; [exact F1 |].
    intros x Hx. by apply Hin.
  - exists ys. split; [done |]. eapply Forall_impl; [exact F2 |].
    intros x Hx. by apply Hin.
  - intros k Hk. apply D. intros Hp'. apply Hk. by apply Hin.
Qed.

Lemma within_roots_refl removePaths st : within_roots removePaths st st.
Proof.
  repeat split.
  - exists []. by rewrite app_nil_r.
  - exists []. by rewrite app_nil_r.
Qed.

Lemma within_roots_trans removePaths st1 st2 st3 :
  within_roots removePaths st1 st2 → within_roots removePaths st2 st3 →
  within_roots removePaths st1 st3.
Proof.
  intros ([xs [E1 F1]] & [ys [E2 F2]] & D1) ([xs' [E1' F1']] & [ys' [E2' F2']] & D2).
  repeat split.
  - exists (xs ++ xs'). rewrite E1', E1, app_assoc. split; [done |].
    by apply Forall_app.
  - exists (ys ++ ys'). rewrite E2', E2, fmap_app, app_assoc. split; [done |].
    by apply Forall_app.
  - intros k Hk. by rewrite D2, D1.
Qed.

Lemma plan_ok_entry removePaths p info :
  plan_ok removePaths = true → removePaths !! p = Some info →
  entry_ok p info = true.
Proof.
  unfold plan_ok. rewrite forallb_forall. intros H Hp.
  by apply (H (p, info)), list_elem_of_In, elem_of_map_to_list.
Qed.

Lemma forPaths_within_roots removePaths dryRun paths st :
  plan_ok removePaths = true →
  (∀ p, p ∈ paths → is_Some (removePaths !! p)) →
  within_roots removePaths st
    (forPaths
       (fun currPath =>
          cleanPath dryRun currPath (default noInfo (removePaths !! currPath)))
       paths st).1.
Proof.
  intros Hok. revert st.
  induction paths as [|p paths IH]; intros st Hin; simpl.
  { apply within_roots_refl. }
  destruct (Hin p (list_elem_of_here _ _)) as [info Hp].
  unfold mbind, M_bind. rewrite Hp. simpl.
  pose proof (cleanPath_within dryRun p info st
                (plan_ok_entry _ _ _ Hok Hp)) as Hw.
  apply (within_in_some_root _ _ _ _ _ Hp) in Hw.
  destruct (cleanPath dryRun p info st) as [st' [[]|e| |]]; try done.
  eapply within_roots_trans; [exact Hw |].
  apply IH. intros q Hq. apply Hin. by right.
Qed.

(** When every entry of the plan has an absolute clean path and, as
    root directory, an absolute clean path of a directory above it, then
    the step for an entry removes and reports only paths at or below the
    root directory of that entry and leaves every file outside it as it
    is; and what the loop over the plan removes or reports lies at or
    below the root directory of some entry. *)
Lemma Execute_within_roots product removePaths (dryRun : bool) fs :
  plan_ok removePaths = true →
  (∀ p info st,
     removePaths !! p = Some info →
     within (resolve (rootDir info)) st (cleanPath dryRun p info st).1) ∧
  let r := Execute product removePaths dryRun (start fs) in
  Forall (fun x => in_some_root removePaths (resolve x)) (unlinked r.1) ∧
  (∃ ys,
     stdout r.1
     = (if dryRun then [header_line product] else []) ++ (path_line <$> ys) ∧
     Forall (fun y => in_some_root removePaths (resolve y)) ys) ∧
  (∀ k, ¬ in_some_root removePaths k → disk r.1 !! k = fs !! k).
Proof.
  intros Hok. split.
  { intros p info st Hp. apply cleanPath_within. by eapply plan_ok_entry. }
  cbv zeta. unfold Execute, mbind, M_bind.
  set (body := fun currPath => cleanPath dryRun currPath _).
  set (paths := GoStrings.Sort _).
  assert (∀ p, p ∈ paths → is_Some (removePaths !! p)) as Hin
      by (intros p; apply sortedPaths_elem).
  assert (∀ st, (when dryRun (Fprintf (header_line product)) st)
                = (mkState (disk st) (removedPaths st)
                     (stdout st ++ if dryRun then [header_line product] else [])
                     (unlinked st), Ok ())) as Hw.
  { intros st. destruct dryRun; simpl; [done |].
    unfold mret, M_ret. rewrite app_nil_r. by destruct st. }
  rewrite Hw. simpl.
  set (st1 := mkState _ _ _ _).
  pose proof (forPaths_within_roots removePaths dryRun paths st1 Hok Hin)
    as ([xs [E1 F1]] & [ys [E2 F2]] & D).
  fold body in E1, E2, D.
  destruct (forPaths body paths st1) as [st' [[]|e| |]];
    simpl in E1, E2, D |- *.
  all: rewrite E1, E2.
  all: change (stdout st1) with (if dryRun then [header_line product] else []).
  all: change (unlinked st1 ++ xs) with xs.
  all: split; [done |]; split; [by exists ys | done].
Qed.

End Boundary.

(* ===================================================================== *)
(** ** The steps of a real run *)
(* ===================================================================== *)

Section RealRun.
Import OS Paths Clean.
#[local] Arguments GoPath.Join : simpl never.
#[local] Arguments GoPath.Dir : simpl never.
#[local] Arguments render : simpl never.

Lemma parent_snoc (l : list string) n : parent (l ++ [n]) = l.
Proof. apply removelast_last. Qed.

Lemma settled_second st l :
  wf_fs (disk st) = true → Forall (λ n, valid_name n = true) l →
  settled (disk st) l →
  removeDirIfEmpty (render l) false st = (st, Ok false).
Proof.
  intros Hwf Hl Hs. rewrite removeDirIfEmpty_render by done.
  destruct Hs as [[-> ->]|[-> [n [d Hn]]]]; [done |].
  destruct (vacant false _ _ l) eqn:V; [|done].
  pose proof (proj1 (vacant_real _ _ _) V) as V'. by rewrite V' in Hn.
Qed.

Lemma real_removeTarget st lp info st1 :
  wf_fs (disk st) = true → Forall (λ n, valid_name n = true) lp →
  removeTarget false (render lp) info st = (st1, Ok ()) →
  wf_fs (disk st1) = true ∧ disk st1 !! lp = None ∧
  removedPaths st1 = removedPaths st ∧ stdout st1 = stdout st ∧
  ((disk st !! lp = None ∧ st1 = st) ∨
   (is_Some (disk st !! lp) ∧ disk st1 = rm lp (disk st) ∧
    unlinked st1 = unlinked st ++ [render lp])).
Proof.
  intros Hwf Hl. unfold removeTarget, mbind, M_bind, get.
  cbv beta iota. rewrite Stat_render by done.
  destruct (disk st !! lp) as [d|] eqn:E.
  - assert (wf_fs (rm lp (disk st)) = true ∧ rm lp (disk st) !! lp = None)
      as [? ?] by (split; [by apply wf_rm | by apply lookup_rm_under]).
    destruct (isDir info); unfold remove_call.
    + rewrite (RemoveAll_present _ _ d) by done. intros [= <-]. simpl.
      repeat split; try done. right. eauto.
    + rewrite Remove_render, E by done.
      destruct d.
      * destruct (entries (disk st) lp) as [|f es] eqn:Ee; [|done].
        rewrite delete_rm by (done || by apply entries_nil).
        intros [= <-]. simpl. repeat split; try done. right. eauto.
      * rewrite delete_rm by (done || intros n; by eapply file_no_entries).
        intros [= <-]. simpl. repeat split; try done. right. eauto.
  - intros [= <-]. repeat split; try done. by left.
Qed.

Lemma Execute_real product removePaths st :
  Execute product removePaths false st =
  forPaths
    (fun currPath =>
       cleanPath false currPath (default noInfo (removePaths !! currPath)))
    (GoStrings.Sort (map_to_list removePaths).*1)
    (mkState (disk st) ∅ (stdout st) (unlinked st)).
Proof.
  unfold Execute, mbind, M_bind. simpl. unfold mret, M_ret.
  by destruct (forPaths _ _ _) as [st' [[]|e| |]].
Qed.

Lemma Execute_real_start product removePaths fs :
  Execute product removePaths false (start fs) =
  forPaths
    (fun currPath =>
       cleanPath false currPath (default noInfo (removePaths !! currPath)))
    (GoStrings.Sort (map_to_list removePaths).*1) (start fs).
Proof. apply Execute_real. Qed.

End RealRun.

(* ===================================================================== *)
(** ** A dry run and a real run *)
(* ===================================================================== *)

Section Parity.
Import OS Paths Clean Effects.
#[local] Arguments GoPath.Join : simpl never.
#[local] Arguments GoPath.Dir : simpl never.
#[local] Arguments render : simpl never.

Lemma covered_mono R k k' : covered R k → k `prefix_of` k' → covered R k'.
Proof. intros (r & Hr & Hp) Hk. exists r. split; [done | by etrans]. Qed.

Lemma covered_union x R k :
  covered ({[x]} ∪ R) k ↔ resolve x `prefix_of` k ∨ covered R k.
Proof.
  unfold covered, set_Exists. split.
  - intros (r & [->%elem_of_singleton|Hr]%elem_of_union & Hp); [by left |].
    right. eauto.
  - intros [Hp|(r & Hr & Hp)].
    + exists x. split; [set_solver | done].
    + exists r. split; [set_solver | done].
Qed.

Lemma covered_empty k : ¬ covered ∅ k.
Proof. intros (r & Hr & _). set_solver. Qed.

Lemma pruned_covered R fs0 fs k : pruned R fs0 fs → covered R k → fs !! k = None.
Proof. intros H Hc. rewrite (H k). by rewrite decide_True. Qed.

Lemma pruned_other R fs0 fs k :
  pruned R fs0 fs → ¬ covered R k → fs !! k = fs0 !! k.
Proof. intros H Hc. rewrite (H k). by rewrite decide_False. Qed.

Lemma pruned_empty fs : pruned ∅ fs fs.
Proof.
  intros k. rewrite decide_False; [done | apply covered_empty].
Qed.

Lemma pruned_rm R fs0 fs x :
  pruned R fs0 fs → pruned ({[x]} ∪ R) fs0 (rm (resolve x) fs).
Proof.
  intros H k. destruct (decide (covered ({[x]} ∪ R) k)) as [Hc|Hc].
  - apply covered_union in Hc as [Hp|Hc].
    + by apply lookup_rm_under.
    + apply lookup_rm_None_mono. by eapply pruned_covered.
  - rewrite covered_union in Hc.
    rewrite lookup_rm_other by tauto.
    eapply pruned_other; [done | tauto].
Qed.

Lemma covered_child R l n :
  (∀ r, r ∈ R → abs_clean r = true) →
  ¬ covered R l → covered R (l ++ [n]) → render (l ++ [n]) ∈ R.
Proof.
  intros Hclean Hl (r & Hr & [Hp|Hp]%prefix_snoc_inv).
  - exfalso. apply Hl. by exists r.
  - rewrite <- Hp. by rewrite <- abs_clean_render by auto.
Qed.

(** The test of a dry run on the disk as it was and the test of a real
    run on the disk as it is come out the same. *)
Lemma vacant_agree fs0 fs R l :
  wf_fs fs0 = true → pruned R fs0 fs →
  (∀ r, r ∈ R → abs_clean r = true) → ¬ covered R l →
  vacant true R fs0 l = vacant false R fs l.
Proof.
  intros Hwf Hpr Hclean Hl. apply eq_true_iff_eq.
  rewrite vacant_spec, vacant_real. split.
  - intros H n. rewrite (Hpr (l ++ [n])).
    destruct (decide (covered R (l ++ [n]))) as [|Hc]; [done |].
    destruct (fs0 !! (l ++ [n])) as [d|] eqn:E; [|done].
    exfalso. apply Hc. destruct (H _ _ E) as [_ Hin].
    exists (render (l ++ [n])). split; [done |].
    by rewrite resolve_render by (by eapply wf_valid).
  - intros H n d Hn. split; [done |].
    apply covered_child; [done..|].
    destruct (decide (covered R (l ++ [n]))) as [|Hc]; [done |].
    rewrite <- (pruned_other _ _ _ _ Hpr Hc), H in Hn. done.
Qed.

(** A directory that the real run finds empty holds no file that is
    still to come. *)
Lemma vacant_pending fs0 fs R cur q :
  wf_fs fs0 = true → pruned R fs0 fs →
  (∀ n, fs !! (cur ++ [n]) = None) →
  is_Some (fs0 !! q) → ¬ covered R q → cur `prefix_of` q → q = cur.
Proof.
  intros Hwf Hpr Hv [d Hq] Hc [t ->].
  destruct t as [|n t]; [by rewrite app_nil_r |]. exfalso.
  assert (is_Some (fs0 !! (cur ++ [n]))) as [d' Hn].
  { destruct (decide (t = [])) as [->|Ht]; [by eexists |].
    change (n :: t) with ([n] ++ t) in Hq. rewrite app_assoc in Hq.
    apply (wf_above _ _ _ _ Hwf) in Hq; [by eexists | done]. }
  assert (¬ covered R (cur ++ [n])) as Hc'.
  { intros Hc'. apply Hc. eapply covered_mono; [exact Hc' |].
    change (n :: t) with ([n] ++ t). rewrite app_assoc. by apply prefix_app_r. }
  rewrite <- (pruned_other _ _ _ _ Hpr Hc'), Hv in Hn. done.
Qed.

Lemma sim_check fs0 head sd sr l sr' b :
  wf_fs fs0 = true → in_step fs0 head sd sr →
  Forall (λ n, valid_name n = true) l →
  fs0 !! l = Some true → ¬ covered (removedPaths sr) l →
  removeDirIfEmpty (render l) false sr = (sr', Ok b) →
  ∃ sd',
    removeDirIfEmpty (render l) true sd = (sd', Ok b) ∧
    in_step fs0 head
      (if b then mkState (disk sd') (removedPaths sd')
                         (stdout sd' ++ [path_line (render l)]) (unlinked sd')
       else sd') sr' ∧
    (b = true →
       removedPaths sr' = {[render l]} ∪ removedPaths sr ∧
       ∀ n, disk sr !! (l ++ [n]) = None) ∧
    (b = false → sr' = sr).
Proof.
  intros Hwf (Hd & Hu & HR & Hpr & Hwfr & Hout & Hclean) Hl Hdir Hc.
  rewrite !removeDirIfEmpty_render by (done || by rewrite Hd).
  rewrite Hd, HR, Hdir.
  rewrite (pruned_other _ _ _ _ Hpr Hc), Hdir.
  rewrite (vacant_agree fs0 (disk sr)) by done.
  destruct (vacant false (removedPaths sr) (disk sr) l) eqn:V;
    intros [= <- <-].
  - eexists. split; [done |]. simpl. split; [|split; [|done]].
    + repeat split; simpl; try done.
      * rewrite <- (resolve_render l) at 2 by done. by apply pruned_rm.
      * by apply wf_rm.
      * by rewrite Hout, fmap_app, (app_assoc head).
      * intros r [->%elem_of_singleton|Hr]%elem_of_union; [|by apply Hclean].
        by apply render_abs_clean.
    + intros _. split; [done |]. exact (proj1 (vacant_real _ _ _) V).
  - exists sd. split; [done |]. split; [done |]. done.
Qed.

Lemma sim_cascade fs0 head k lr rest n sd sr sr' :
  wf_fs fs0 = true →
  Forall (λ n, valid_name n = true) (lr ++ rest ++ [n]) →
  is_Some (fs0 !! (lr ++ rest ++ [n])) →
  in_step fs0 head sd sr → ¬ covered (removedPaths sr) (lr ++ rest) →
  cascade k (render lr) false (render (lr ++ rest ++ [n])) sr = (sr', Ok ()) →
  ∃ sd',
    cascade k (render lr) true (render (lr ++ rest ++ [n])) sd = (sd', Ok ()) ∧
    in_step fs0 head sd' sr' ∧
    ¬ covered (removedPaths sr') lr ∧
    (∀ q, is_Some (fs0 !! q) → ¬ q `prefix_of` (lr ++ rest) →
          ¬ covered (removedPaths sr) q → ¬ covered (removedPaths sr') q).
Proof.
  intros Hwf. revert rest n sd sr.
  induction k as [|k IH]; intros rest n sd sr Hv Hin Hsim Hc; [done |].
  rewrite !cascade_render by done.
  assert (Forall (λ n, valid_name n = true) (lr ++ rest)) as Hv'.
  { rewrite app_assoc in Hv. by apply valid_snoc in Hv as [? _]. }
  destruct (decide (rest = [])) as [->|Hne].
  { intros [= <-]. exists sd. rewrite app_nil_r in Hc. done. }
  assert (fs0 !! (lr ++ rest) = Some true) as Hdir.
  { destruct Hin as [d Hin]. rewrite app_assoc in Hin.
    by eapply wf_parent. }
  pose proof Hsim as (Hd & _ & _ & Hpr & Hwfr & _).
  rewrite !Stat_render by (done || by rewrite Hd).
  rewrite Hd, (pruned_other _ _ _ _ Hpr Hc), Hdir. simpl.
  destruct (removeDirIfEmpty _ false sr) as [sr1 [b|e| |]] eqn:Hr; [|done..].
  destruct (sim_check _ _ _ _ _ _ _ Hwf Hsim Hv' Hdir Hc Hr)
    as (sd1 & -> & Hsim1 & Ht & Hf).
  destruct b.
  - destruct (Ht eq_refl) as [HR1 Hvac].
    destruct (exists_last Hne) as (rest' & m & ->).
    assert (¬ covered (removedPaths sr1) (lr ++ rest')) as Hc1.
    { rewrite HR1, covered_union. rewrite resolve_render by done.
      intros [Hp|Hp].
      - apply prefix_length in Hp. rewrite !length_app in Hp. simpl in Hp. lia.
      - apply Hc. eapply covered_mono; [exact Hp |].
        rewrite app_assoc. by apply prefix_app_r. }
    intros Hk.
    destruct (IH rest' m _ sr1 Hv' (ex_intro _ _ Hdir) Hsim1 Hc1 Hk)
      as (sd' & Hk' & Hsim' & Hc' & HQ).
    exists sd'. split; [done |]. split; [done |]. split; [done |].
    intros q Hq Hnp Hcq. apply HQ; [done | |].
    + intros Hp. apply Hnp. etrans; [exact Hp |].
      rewrite app_assoc. by apply prefix_app_r.
    + rewrite HR1, covered_union. rewrite resolve_render by done.
      intros [Hp|Hp]; [|done].
      apply Hnp. by rewrite (vacant_pending _ _ _ _ _ Hwf Hpr Hvac Hq Hcq Hp).
  - rewrite (Hf eq_refl) in *. intros [= <-].
    exists sd1. split; [done |]. split; [done |]. split; [|done].
    intros Hp. apply Hc. eapply covered_mono; [exact Hp |].
    by apply prefix_app_r.
Qed.

Lemma sim_step fs0 head lr rest n isd sd sr sr' :
  wf_fs fs0 = true →
  Forall (λ n, valid_name n = true) (lr ++ rest ++ [n]) →
  is_Some (fs0 !! (lr ++ rest ++ [n])) →
  in_step fs0 head sd sr →
  ¬ covered (removedPaths sr) (lr ++ rest ++ [n]) →
  cleanPath false (render (lr ++ rest ++ [n]))
            {| rootDir := render lr; isDir := isd |} sr = (sr', Ok ()) →
  ∃ sd',
    cleanPath true (render (lr ++ rest ++ [n]))
              {| rootDir := render lr; isDir := isd |} sd = (sd', Ok ()) ∧
    in_step fs0 head sd' sr' ∧
    (∀ q, is_Some (fs0 !! q) →
          ¬ q `prefix_of` (lr ++ rest ++ [n]) →
          ¬ (lr ++ rest ++ [n]) `prefix_of` q →
          ¬ covered (removedPaths sr) q → ¬ covered (removedPaths sr') q).
Proof.
  intros Hwf Hv Hin Hsim Hc. rewrite !cleanPath_eq. cbv zeta.
  change (rootDir {| rootDir := render lr; isDir := isd |}) with (render lr).
  assert (Forall (λ n, valid_name n = true) lr) as Hlr
      by (by apply Forall_app in Hv as [? _]).
  pose proof Hsim as (Hd & Hu & HR & Hpr & Hwfr & Hout & Hclean).
  destruct (removeTarget false _ _ sr) as [sr1 [[]|e| |]] eqn:H1; [|done..].
  apply real_removeTarget in H1 as (Hwf1 & _ & HR1 & Hout1 & Hcase); [|done..].
  destruct Hcase as [[Hnone _]|(_ & Hd1 & Hu1)].
  { rewrite (pruned_other _ _ _ _ Hpr Hc) in Hnone.
    destruct Hin as [d Hin]. congruence. }
  unfold removeTarget at 1, Fprintf at 1.
  rewrite Contains_render. change (negb true) with false. cbv iota.
  simpl disk. simpl removedPaths. simpl stdout. simpl unlinked.
  set (sr2 := mkState (disk sr1) _ _ _). set (sd2 := mkState (disk sd) _ _ _).
  assert (in_step fs0 head sd2 sr2) as Hsim2.
  { repeat split; simpl; try done.
    - by rewrite HR, HR1.
    - rewrite Hd1, HR1.
      rewrite <- (resolve_render (lr ++ rest ++ [n])) at 2 by done.
      by apply pruned_rm.
    - by rewrite Hout, Hu1, fmap_app, (app_assoc head).
    - intros r [->%elem_of_singleton|Hr]%elem_of_union.
      + by apply render_abs_clean.
      + apply Hclean. by rewrite <- HR1. }
  assert (∀ q, covered (removedPaths sr2) q ↔
               (lr ++ rest ++ [n]) `prefix_of` q ∨ covered (removedPaths sr) q)
    as Hcov2.
  { intros q. simpl. rewrite HR1, covered_union.
    by rewrite resolve_render by done. }
  assert (¬ covered (removedPaths sr2) (lr ++ rest)) as Hc2.
  { rewrite Hcov2. intros [Hp|Hp].
    - apply prefix_length in Hp. rewrite !length_app in Hp. simpl in Hp. lia.
    - apply Hc. eapply covered_mono; [exact Hp |].
      rewrite app_assoc. by apply prefix_app_r. }
  destruct (cascade _ _ false _ sr2) as [sr3 [[]|e| |]] eqn:H3; [|done..].
  destruct (sim_cascade _ _ _ _ _ _ _ _ _ Hwf Hv Hin Hsim2 Hc2 H3)
    as (sd3 & -> & Hsim3 & Hc3 & HQ3).
  assert (fs0 !! lr = Some true) as Hroot.
  { destruct Hin as [d Hin]. eapply wf_above; [done | exact Hin |].
    by destruct rest. }
  destruct (removeDirIfEmpty _ false sr3) as [sr4 [b|e| |]] eqn:H4; [|done..].
  destruct (sim_check _ _ _ _ _ _ _ Hwf Hsim3 Hlr Hroot Hc3 H4)
    as (sd4 & -> & Hsim4 & Ht & Hf).
  rewrite andb_false_r, andb_true_r. intros [= <-].
  eexists. split; [done |]. split; [exact Hsim4 |].
  intros q Hq Hnp Hnp' Hcq.
  assert (¬ covered (removedPaths sr3) q) as Hc3q.
  { apply HQ3; [done | |].
    - intros Hp. apply Hnp. etrans; [exact Hp |].
      rewrite app_assoc. by apply prefix_app_r.
    - rewrite Hcov2. tauto. }
  destruct b; [|by rewrite (Hf eq_refl)].
  destruct (Ht eq_refl) as [HR4 Hvac].
  rewrite HR4, covered_union. rewrite resolve_render by done.
  intros [Hp|Hp]; [|done].
  destruct Hsim3 as (_ & _ & _ & Hpr3 & _).
  apply Hnp. rewrite (vacant_pending _ _ _ _ _ Hwf Hpr3 Hvac Hq Hc3q Hp).
  by apply prefix_app_r.
Qed.

Lemma all_present_spec fs removePaths p info :
  all_present fs removePaths = true → removePaths !! p = Some info →
  is_Some (fs !! resolve p).
Proof.
  unfold all_present. rewrite forallb_forall. intros H Hp.
  apply elem_of_map_to_list, list_elem_of_In, H in Hp.
  by apply bool_decide_eq_true in Hp.
Qed.

Lemma none_nested_spec removePaths p info q info' :
  none_nested removePaths = true →
  removePaths !! p = Some info → removePaths !! q = Some info' → p ≠ q →
  ¬ resolve p `prefix_of` resolve q.
Proof.
  unfold none_nested. rewrite forallb_forall. intros H Hp Hq Hne.
  apply elem_of_map_to_list, list_elem_of_In, H in Hp.
  rewrite forallb_forall in Hp.
  apply elem_of_map_to_list, list_elem_of_In, Hp in Hq. simpl in Hq.
  apply orb_true_iff in Hq as [Hq%bool_decide_eq_true|Hq]; [done |].
  by apply negb_true_iff, bool_decide_eq_false in Hq.
Qed.

Lemma sim_run fs0 head removePaths paths sd sr sr' :
  wf_fs fs0 = true → plan_ok removePaths = true →
  all_present fs0 removePaths = true → none_nested removePaths = true →
  NoDup paths → (∀ p, p ∈ paths → is_Some (removePaths !! p)) →
  in_step fs0 head sd sr →
  (∀ p, p ∈ paths → ¬ covered (removedPaths sr) (resolve p)) →
  forPaths
    (fun currPath =>
       cleanPath false currPath (default noInfo (removePaths !! currPath)))
    paths sr = (sr', Ok ()) →
  ∃ sd',
    forPaths
      (fun currPath =>
         cleanPath true currPath (default noInfo (removePaths !! currPath)))
      paths sd = (sd', Ok ()) ∧
    in_step fs0 head sd' sr'.
Proof.
  intros Hwf Hok Hall Hnest. revert sd sr.
  induction paths as [|p paths IH]; intros sd sr Hnd Hin Hsim Hcov.
  { intros [= <-]. by exists sd. }
  simpl. unfold mbind, M_bind.
  destruct (Hin p (list_elem_of_here _ _)) as [info Hp]. rewrite Hp. simpl.
  destruct (cleanPath false p info sr) as [sr1 [[]|e| |]] eqn:Hc; [|done..].
  pose proof (all_present_spec _ _ _ _ Hall Hp) as Hpres.
  pose proof (Hcov p (list_elem_of_here _ _)) as Hcp.
  pose proof (plan_ok_entry _ _ _ Hok Hp)
    as (lr & rest & n & Ep & Hr & Hv)%entry_ok_inv.
  destruct info as [root isd]. simpl in Hr. subst root.
  rewrite Ep in Hc, Hpres, Hcp |- *.
  rewrite resolve_render in Hpres, Hcp by done.
  destruct (sim_step _ _ _ _ _ _ _ _ _ Hwf Hv Hpres Hsim Hcp Hc)
    as (sd1 & -> & Hsim1 & HQ).
  apply NoDup_cons in Hnd as [Hnotin Hnd].
  intros Hrest. eapply IH; [done | | exact Hsim1 | | exact Hrest].
  - intros q Hq. apply Hin. by right.
  - intros q Hq.
    destruct (Hin q (list_elem_of_further _ _ _ Hq)) as [info' Hq'].
    assert (p ≠ q) as Hne by (intros ->; done).
    apply HQ.
    + by eapply all_present_spec.
    + rewrite <- (resolve_render (lr ++ rest ++ [n])), <- Ep by done.
      by eapply none_nested_spec.
    + rewrite <- (resolve_render (lr ++ rest ++ [n])), <- Ep by done.
      by eapply none_nested_spec.
    + apply Hcov. by right.
Qed.

Lemma Execute_dry product removePaths st :
  Execute product removePaths true st =
  forPaths
    (fun currPath =>
       cleanPath true currPath (default noInfo (removePaths !! currPath)))
    (GoStrings.Sort (map_to_list removePaths).*1)
    (mkState (disk st) ∅ (stdout st ++ [header_line product]) (unlinked st)).
Proof.
  unfold Execute, mbind, M_bind. simpl.
  by destruct (forPaths _ _ _) as [st' [[]|e| |]].
Qed.

Lemma Execute_dry_start product removePaths fs :
  Execute product removePaths true (start fs) =
  forPaths
    (fun currPath =>
       cleanPath true currPath (default noInfo (removePaths !! currPath)))
    (GoStrings.Sort (map_to_list removePaths).*1)
    (mkState fs ∅ [header_line product] []).
Proof. apply Execute_dry. Qed.

(** C1, for a real run that returns no error.  Let the file system be
    well formed, the entries of the plan be as [Run] makes them, every
    path of the plan be on the disk and no path of the plan lie below
    another one.  When the real run returns no error, the dry run on the
    same file system returns no error, and after its first line it
    reports, line by line and in the same order, the paths that the real
    run removes: the paths of the plan and the directories removed on
    the way up.  The dry run removes nothing and leaves the disk as it
    is. *)
Theorem dry_run_parity product removePaths fs :
  wf_fs fs = true → plan_ok removePaths = true →
  all_present fs removePaths = true → none_nested removePaths = true →
  let real := Execute product removePaths false (start fs) in
  let dry := Execute product removePaths true (start fs) in
  real.2 = Ok () →
  dry.2 = Ok () ∧
  stdout dry.1 = header_line product :: (path_line <$> unlinked real.1) ∧
  disk dry.1 = fs ∧ unlinked dry.1 = [].
Proof.
  intros Hwf Hok Hall Hnest. cbv zeta.
  rewrite Execute_real_start, Execute_dry_start.
  set (paths := GoStrings.Sort _).
  destruct (forPaths _ paths (start fs)) as [sr' r] eqn:Hreal. simpl.
  intros ->.
  assert (∀ p, p ∈ paths → is_Some (removePaths !! p)) as Hin
      by (intros p; apply sortedPaths_elem).
  assert (NoDup paths) as Hnd.
  { unfold paths, GoStrings.Sort. rewrite merge_sort_Permutation.
    apply NoDup_fst_map_to_list. }
  assert (in_step fs [header_line product]
            (mkState fs ∅ [header_line product] []) (start fs)) as Hsim0.
  { repeat split; done. }
  assert (∀ p, p ∈ paths → ¬ covered (removedPaths (start fs)) (resolve p))
    as Hcov by (intros p _; apply covered_empty).
  destruct (sim_run _ _ _ _ _ _ _ Hwf Hok Hall Hnest Hnd Hin Hsim0 Hcov Hreal)
    as (sd' & -> & Hd & Hu & _ & _ & _ & Hout & _).
  done.
Qed.

End Parity.

(* ===================================================================== *)
(** ** A dry run leaves the disk alone *)
(* ===================================================================== *)

Section DryRun.
Import OS Clean.

Lemma cascade_S n root dryRun cur :
  cascade (S n) root dryRun cur =
  let currParentDir := GoPath.Dir cur in
  if bool_decide (currParentDir = root) then mret ()
  else
    st ← get;
    if IsNotExist (err_of (Stat (disk st) currParentDir)) then mret ()
    else
      removed ← removeDirIfEmpty currParentDir dryRun;
      if negb removed then mret ()
      else
        when dryRun (Fprintf (path_line currParentDir));;
        cascade n root dryRun currParentDir.
Proof. reflexivity. Qed.

(** A walk that returns within [n] iterations returns the same with any
    larger bound. *)
Lemma cascade_more_iterations n m root dryRun cur st st' r :
  cascade n root dryRun cur st = (st', r) → r ≠ NoReturn → n ≤ m →
  cascade m root dryRun cur st = (st', r).
Proof.
  revert m cur st. induction n as [|n IH]; intros m cur st.
  { intros [= <- <-]. done. }
  intros H Hr Hm. destruct m as [|m]; [lia |].
  rewrite cascade_S in H |- *. cbv zeta in H |- *.
  destruct (bool_decide _); [done |].
  unfold mbind, M_bind, get in H |- *.
  destruct (IsNotExist _); [done |].
  destruct (removeDirIfEmpty _ dryRun st) as [st1 [[|]|e| |]]; try done.
  cbn [negb] in H |- *.
  destruct (when dryRun (Fprintf (path_line (GoPath.Dir cur))) st1)
    as [st2 [[]|e| |]]; try done.
  apply IH; [done.. | lia].
Qed.

Lemma removeDirIfEmpty_dry st dir :
  disk (removeDirIfEmpty dir true st).1 = disk st ∧
  unlinked (removeDirIfEmpty dir true st).1 = unlinked st.
Proof.
  by destruct (removeDirIfEmpty_cases st dir true) as [->|[[e ->]| ->]].
Qed.

Lemma cascade_dry n root cur st :
  disk (cascade n root true cur st).1 = disk st ∧
  unlinked (cascade n root true cur st).1 = unlinked st.
Proof.
  revert cur st. induction n as [|n IH]; intros cur st; [done |].
  rewrite cascade_S. cbv zeta.
  destruct (bool_decide _); [done |].
  unfold mbind, M_bind, get.
  destruct (IsNotExist _); [done |].
  pose proof (removeDirIfEmpty_dry st (GoPath.Dir cur)) as [H1 H2].
  destruct (removeDirIfEmpty _ true st) as [st1 [[|]|e| |]]; try done.
  simpl in H1, H2. simpl.
  destruct (IH (GoPath.Dir cur)
              (mkState (disk st1) (removedPaths st1)
                 (stdout st1 ++ [path_line (GoPath.Dir cur)]) (unlinked st1)))
    as [H3 H4].
  simpl in H3, H4. by rewrite H3, H4.
Qed.

Lemma cleanPath_dry p info st :
  disk (cleanPath true p info st).1 = disk st ∧
  unlinked (cleanPath true p info st).1 = unlinked st.
Proof.
  rewrite cleanPath_eq. unfold removeTarget, Fprintf. cbv zeta.
  destruct (negb _); [done |].
  set (st2 := mkState _ _ _ _).
  pose proof (cascade_dry (iterations p) (rootDir info) p st2) as [H1 H2].
  destruct (cascade _ _ true p st2) as [st3 [[]|e| |]]; try done.
  pose proof (removeDirIfEmpty_dry st3 (rootDir info)) as [H3 H4].
  destruct (removeDirIfEmpty _ true st3) as [st4 [b|e| |]];
    simpl in *; try (by rewrite H3, H4).
  destruct b; simpl; by rewrite H3, H4.
Qed.

(** The dry run performs no removal, whatever the plan and the file
    system are, also when it returns an error or does not return. *)
Lemma dry_run_keeps_disk product removePaths st :
  disk (Execute product removePaths true st).1 = disk st ∧
  unlinked (Execute product removePaths true st).1 = unlinked st.
Proof.
  rewrite Execute_dry.
  set (st1 := mkState _ _ _ _).
  change (disk st) with (disk st1). change (unlinked st) with (unlinked st1).
  generalize st1. clear st1.
  induction (GoStrings.Sort _) as [|p paths IH]; intros st1; [done |].
  simpl. unfold mbind, M_bind.
  pose proof (cleanPath_dry p (default noInfo (removePaths !! p)) st1)
    as [H1 H2].
  destruct (cleanPath true p _ st1) as [st2 [[]|e| |]]; try done.
  destruct (IH st2) as [H3 H4]. simpl in H1, H2. by rewrite H3, H4.
Qed.

End DryRun.

(* ===================================================================== *)
(** ** The walk up from a removed file *)
(* ===================================================================== *)

Section Cascade.
Import OS Paths Clean Effects.
#[local] Arguments GoPath.Join : simpl never.
#[local] Arguments GoPath.Dir : simpl never.
#[local] Arguments render : simpl never.

(** An iteration on a directory that has become empty removes it and
    goes on with the directory above. *)
Lemma cascade_up k lr rest n st :
  Forall (λ n, valid_name n = true) (lr ++ rest ++ [n]) →
  wf_fs (disk st) = true → rest ≠ [] →
  disk st !! (lr ++ rest) = Some true →
  (∀ m, disk st !! ((lr ++ rest) ++ [m]) = None) →
  cascade (S k) (render lr) false (render (lr ++ rest ++ [n])) st =
  cascade k (render lr) false (render (lr ++ rest))
    (mkState (rm (lr ++ rest) (disk st))
             ({[render (lr ++ rest)]} ∪ removedPaths st) (stdout st)
             (unlinked st ++ [render (lr ++ rest)])).
Proof.
  intros Hv Hwf Hne Hdir Hvac. rewrite cascade_render by done.
  assert (Forall (λ n, valid_name n = true) (lr ++ rest)) as Hv'.
  { rewrite app_assoc in Hv. by apply valid_snoc in Hv as [? _]. }
  rewrite decide_False by done.
  rewrite Stat_render, Hdir by done. simpl.
  rewrite removeDirIfEmpty_render, Hdir by done.
  by rewrite (proj2 (vacant_real _ _ _) Hvac).
Qed.

(** An iteration on a directory that has an entry left ends the walk. *)
Lemma cascade_stop k lr rest n st m :
  Forall (λ n, valid_name n = true) (lr ++ rest ++ [n]) →
  wf_fs (disk st) = true →
  is_Some (disk st !! ((lr ++ rest) ++ [m])) →
  cascade (S k) (render lr) false (render (lr ++ rest ++ [n])) st = (st, Ok ()).
Proof.
  intros Hv Hwf Hm. rewrite cascade_render by done.
  assert (Forall (λ n, valid_name n = true) (lr ++ rest)) as Hv'.
  { rewrite app_assoc in Hv. by apply valid_snoc in Hv as [? _]. }
  destruct (decide (rest = [])); [done |].
  destruct (IsNotExist _); [done |].
  rewrite settled_second; [done..|].
  right. split; [|by exists m].
  destruct Hm as [d Hm]. by eapply wf_parent.
Qed.

Lemma forPaths_one body p st :
  forPaths body [p] st =
  match body p st with
  | (st', Ok _) => (st', Ok ())
  | (st', Err e) => (st', Err e)
  | (st', NoReturn) => (st', NoReturn)
  | (st', Panic) => (st', Panic)
  end.
Proof.
  simpl. unfold mbind, M_bind. by destruct (body p st) as [st' [[]|e| |]].
Qed.

(** The first statement of the loop on a regular file removes it. *)
Lemma removeTarget_file st lp info :
  wf_fs (disk st) = true → Forall (λ n, valid_name n = true) lp →
  disk st !! lp = Some false → isDir info = false →
  removeTarget false (render lp) info st
  = (mkState (rm lp (disk st)) (removedPaths st) (stdout st)
             (unlinked st ++ [render lp]), Ok ()).
Proof.
  intros Hwf Hv Hf Hd. unfold removeTarget, mbind, M_bind, get.
  cbv beta iota. rewrite Stat_render, Hf, Hd by done.
  unfold remove_call. rewrite Remove_render, Hf by done.
  by rewrite delete_rm by (done || intros n; by eapply file_no_entries).
Qed.

Lemma rm_rm x y fs : x `prefix_of` y → rm x (rm y fs) = rm x fs.
Proof.
  intros Hxy. apply map_eq. intros k.
  destruct (decide (x `prefix_of` k)) as [Hx|Hx].
  - by rewrite !lookup_rm_under.
  - rewrite (lookup_rm_other x (rm y fs)), (lookup_rm_other x fs) by done.
    apply lookup_rm_other. intros Hy. apply Hx. by etrans.
Qed.

Lemma sortedPaths_singleton p (info : pathInfo) :
  GoStrings.Sort (map_to_list ({[p := info]} : gmap string pathInfo)).*1 = [p].
Proof. by rewrite map_to_list_singleton. Qed.

Lemma plan_ok_singleton lr rest n isd :
  Forall (λ n, valid_name n = true) (lr ++ rest ++ [n]) →
  plan_ok {[render (lr ++ rest ++ [n])
              := {| rootDir := render lr; isDir := isd |}]} = true.
Proof.
  intros Hv. unfold plan_ok. rewrite map_to_list_singleton. simpl.
  assert (Forall (λ n, valid_name n = true) lr) as Hlr
      by (by apply Forall_app in Hv as [? _]).
  unfold entry_ok, below. simpl.
  rewrite !render_abs_clean, !resolve_render by done.
  rewrite bool_decide_eq_true_2 by (by apply prefix_app_r).
  rewrite bool_decide_eq_false_2; [done |].
  intros E. apply (f_equal length) in E. rewrite !length_app in E.
  simpl in E. lia.
Qed.

(** C2.  In a well-formed file system let the regular file [file] be
    the only entry of the directory [c], let [c] be the only entry of
    [b], and let [a] hold an entry [other] besides [b].  For the plan
    with the single path [root/a/b/c/file] and the root directory
    [root], the real run returns no error and removes the file, [c] and
    [b], in this order, and nothing else: every other file, [a] and
    [root] among them, is as before.  The dry run reports the same three
    paths and leaves the disk as it is. *)
Theorem cascade_correct product fs lr a b c file other d :
  wf_fs fs = true →
  entries fs (lr ++ [a; b; c]) = [{| Name := file; IsDir := false |}] →
  entries fs (lr ++ [a; b]) = [{| Name := c; IsDir := true |}] →
  fs !! (lr ++ [a; other]) = Some d → other ≠ b →
  let removePaths : gmap string pathInfo :=
    {[ render (lr ++ [a; b; c; file])
         := {| rootDir := render lr; isDir := false |} ]} in
  let removed := [lr ++ [a; b; c; file]; lr ++ [a; b; c]; lr ++ [a; b]] in
  let real := Execute product removePaths false (start fs) in
  let dry := Execute product removePaths true (start fs) in
  (real.2 = Ok () ∧
   unlinked real.1 = render <$> removed ∧
   (∀ k, disk real.1 !! k = if bool_decide (k ∈ removed) then None else fs !! k) ∧
   disk real.1 !! (lr ++ [a]) = Some true ∧
   disk real.1 !! lr = Some true) ∧
  (dry.2 = Ok () ∧
   stdout dry.1 = header_line product :: (path_line <$> (render <$> removed)) ∧
   disk dry.1 = fs).
Proof.
  intros Hwf Hec Heb Hother' Hne. cbv zeta.
  assert (fs !! (lr ++ [a; b; c; file]) = Some false) as Hfile.
  { change (lr ++ [a; b; c; file]) with (lr ++ [a; b; c] ++ [file]).
    rewrite app_assoc.
    apply (entries_spec fs _ {| Name := file; IsDir := false |}).
    rewrite Hec. by left. }
  assert (∀ n, is_Some (fs !! (lr ++ [a; b; c; n])) → n = file) as Hc.
  { intros n [d' Hn].
    change (lr ++ [a; b; c; n]) with (lr ++ [a; b; c] ++ [n]) in Hn.
    rewrite app_assoc in Hn.
    apply (entries_spec fs _ {| Name := n; IsDir := d' |}) in Hn.
    rewrite Hec in Hn. apply list_elem_of_singleton in Hn. by injection Hn. }
  assert (∀ n, is_Some (fs !! (lr ++ [a; b; n])) → n = c) as Hb.
  { intros n [d' Hn].
    change (lr ++ [a; b; n]) with (lr ++ [a; b] ++ [n]) in Hn.
    rewrite app_assoc in Hn.
    apply (entries_spec fs _ {| Name := n; IsDir := d' |}) in Hn.
    rewrite Heb in Hn. apply list_elem_of_singleton in Hn. by injection Hn. }
  assert (is_Some (fs !! (lr ++ [a; other]))) as Hother by (by eexists).
  assert (Forall (λ n, valid_name n = true) (lr ++ [a; b; c; file])) as Hv
      by (by eapply wf_valid).
  assert (Forall (λ n, valid_name n = true) lr) as Hlr
      by (by apply Forall_app in Hv as [? _]).
  assert (fs !! (lr ++ [a; b; c]) = Some true) as Hdc.
  { eapply (wf_parent _ _ file); [done |].
    rewrite <- app_assoc. exact Hfile. }
  assert (fs !! (lr ++ [a; b]) = Some true) as Hdb.
  { eapply (wf_parent _ _ c); [done |]. rewrite <- app_assoc. exact Hdc. }
  assert (fs !! (lr ++ [a]) = Some true) as Hda.
  { eapply (wf_parent _ _ b); [done |]. rewrite <- app_assoc. exact Hdb. }
  assert (fs !! lr = Some true) as Hdr by (by eapply wf_parent).
  pose proof (wf_valid _ _ _ Hwf Hdc) as Hvc.
  pose proof (wf_valid _ _ _ Hwf Hdb) as Hvb.
  (* the real run *)
  assert (Execute product
            {[render (lr ++ [a; b; c; file])
                := {| rootDir := render lr; isDir := false |}]}
            false (start fs)
          = (mkState (rm (lr ++ [a; b]) fs)
               ({[render (lr ++ [a; b])]} ∪
                ({[render (lr ++ [a; b; c])]} ∪
                 ({[render (lr ++ [a; b; c; file])]} ∪ ∅)))
               []
               (render <$> [lr ++ [a; b; c; file]; lr ++ [a; b; c];
                            lr ++ [a; b]]),
             Ok ())) as Hreal.
  { rewrite Execute_real_start, sortedPaths_singleton, forPaths_one.
    rewrite lookup_singleton_eq. unfold start.
    change (default noInfo (Some ?i)) with i.
    rewrite cleanPath_eq. cbv zeta.
    rewrite removeTarget_file by done.
    cbn [disk removedPaths stdout unlinked rootDir isDir].
    rewrite (Contains_render lr [a; b; c; file]).
    change (negb true) with false. cbv iota.
    replace (iterations (render (lr ++ [a; b; c; file])))
      with (S (S (S (String.length (render (lr ++ [a; b; c; file]))))))
      by (unfold iterations; lia).
    rewrite (cascade_up _ lr [a; b; c] file);
      cbn [disk removedPaths stdout unlinked]; try done.
    2:{ by apply wf_rm. }
    2:{ rewrite lookup_rm_other; [done |].
        intros Hp%prefix_length. rewrite !length_app in Hp. simpl in Hp. lia. }
    2:{ intros m. destruct (decide (m = file)) as [->|Hm].
        - rewrite <- app_assoc. by apply lookup_rm_under.
        - apply lookup_rm_None_mono. rewrite <- app_assoc. simpl.
          destruct (fs !! (lr ++ [a; b; c; m])) eqn:E; [|done].
          destruct Hm. apply Hc. by eexists. }
    rewrite rm_rm by (by apply prefix_app, prefix_cons, prefix_cons,
                              prefix_cons, prefix_nil).
    rewrite (cascade_up _ lr [a; b] c);
      cbn [disk removedPaths stdout unlinked]; try done.
    2:{ by apply wf_rm. }
    2:{ rewrite lookup_rm_other; [done |].
        intros Hp%prefix_length. rewrite !length_app in Hp. simpl in Hp. lia. }
    2:{ intros m. destruct (decide (m = c)) as [->|Hm].
        - rewrite <- app_assoc. by apply lookup_rm_under.
        - apply lookup_rm_None_mono. rewrite <- app_assoc. simpl.
          destruct (fs !! (lr ++ [a; b; m])) eqn:E; [|done].
          destruct Hm. apply Hb. by eexists. }
    rewrite rm_rm by (by apply prefix_app, prefix_cons, prefix_cons,
                              prefix_nil).
    assert (rm (lr ++ [a; b]) fs !! (lr ++ [a; other])
            = fs !! (lr ++ [a; other])) as Ho.
    { apply lookup_rm_other. intros [t Ht].
      rewrite <- !app_assoc in Ht. apply app_inv_head in Ht.
      simpl in Ht. congruence. }
    rewrite (cascade_stop _ lr [a] b _ other);
      cbn [disk removedPaths stdout unlinked]; try done.
    2:{ by apply wf_rm. }
    2:{ rewrite <- app_assoc. simpl app at 2. by rewrite Ho. }
    rewrite settled_second; cbn [disk removedPaths stdout unlinked]; try done;
      try (by apply wf_rm).
    right. split.
    - rewrite lookup_rm_other; [done |].
      intros Hp%prefix_length. rewrite !length_app in Hp. simpl in Hp. lia.
    - exists a. rewrite lookup_rm_other; [by eexists |].
      intros Hp%prefix_length. rewrite !length_app in Hp. simpl in Hp. lia. }
  split.
  - rewrite Hreal. simpl. split; [done |]. split; [done |].
    assert (∀ k, rm (lr ++ [a; b]) fs !! k
                 = if bool_decide (k ∈ [lr ++ [a; b; c; file]; lr ++ [a; b; c];
                                        lr ++ [a; b]])
                   then None else fs !! k) as Hlook.
    { intros k. case_bool_decide as Hk.
      - apply lookup_rm_under.
        repeat (apply elem_of_cons in Hk as [->|Hk]);
          [apply prefix_app, prefix_cons, prefix_cons, prefix_nil.. |
           by apply elem_of_nil in Hk].
      - destruct (decide ((lr ++ [a; b]) `prefix_of` k)) as [[t ->]|Hp];
          [|by apply lookup_rm_other].
        rewrite lookup_rm_under by (by apply prefix_app_r).
        destruct (fs !! ((lr ++ [a; b]) ++ t)) as [dk|] eqn:E; [|done].
        exfalso. apply Hk. rewrite <- app_assoc in E. simpl in E.
        destruct t as [|n1 t].
        { rewrite app_nil_r.
          apply list_elem_of_further, list_elem_of_further, list_elem_of_here. }
        assert (n1 = c) as ->.
        { apply Hb. destruct (decide (t = [])) as [->|Ht]; [by eexists |].
          exists true. eapply (wf_above _ _ t); [done | | done].
          rewrite <- app_assoc. exact E. }
        destruct t as [|n2 t].
        { rewrite <- app_assoc.
          apply list_elem_of_further, list_elem_of_here. }
        assert (n2 = file) as ->.
        { apply Hc. destruct (decide (t = [])) as [->|Ht]; [by eexists |].
          exists true. eapply (wf_above _ _ t); [done | | done].
          rewrite <- app_assoc. exact E. }
        destruct t as [|n3 t].
        { rewrite <- app_assoc. apply list_elem_of_here. }
        assert (fs !! (lr ++ [a; b; c; file]) = Some true) as Hcontra.
        { eapply (wf_above _ _ (n3 :: t)); [done | | done].
          rewrite <- app_assoc. exact E. }
        congruence. }
    split; [exact Hlook |].
    rewrite !Hlook.
    rewrite !bool_decide_eq_false_2; [done | |].
    + intros Hin. repeat (apply elem_of_cons in Hin as [Hin|Hin]);
        try (apply (f_equal length) in Hin; rewrite ?length_app in Hin;
             simpl in Hin; lia).
      by apply elem_of_nil in Hin.
    + intros Hin. repeat (apply elem_of_cons in Hin as [Hin|Hin]);
        try (apply (f_equal length) in Hin; rewrite ?length_app in Hin;
             simpl in Hin; lia).
      by apply elem_of_nil in Hin.
  - pose proof Hreal as Hreal'.
    rewrite Execute_real_start in Hreal'.
    rewrite Execute_dry_start.
    change (lr ++ [a; b; c; file]) with (lr ++ [a; b; c] ++ [file]) in Hv.
    eapply (sim_run fs [header_line product]) in Hreal'
      as (sd' & -> & Hd & Hu & _ & _ & _ & Hout & _).
    + simpl. split; [done |]. split; [|done]. by rewrite Hout.
    + done.
    + by apply (plan_ok_singleton lr [a; b; c] file).
    + unfold all_present. rewrite map_to_list_singleton. simpl.
      rewrite andb_true_r. apply bool_decide_eq_true.
      rewrite resolve_render by done. by eexists.
    + unfold none_nested. rewrite map_to_list_singleton. simpl.
      by rewrite bool_decide_eq_true_2.
    + rewrite sortedPaths_singleton. apply NoDup_singleton.
    + intros q. by apply sortedPaths_elem.
    + repeat split; done.
    + intros q _. apply covered_empty.
Qed.

End Cascade.

(* ===================================================================== *)
(** ** The walk up ends *)
(* ===================================================================== *)

Section Termination.
Import OS Paths Clean.
#[local] Arguments GoPath.Join : simpl never.
#[local] Arguments GoPath.Dir : simpl never.
#[local] Arguments render : simpl never.

Lemma removeDirIfEmpty_returns dir dryRun st :
  (removeDirIfEmpty dir dryRun st).2 ≠ NoReturn.
Proof.
  by destruct (removeDirIfEmpty_cases st dir dryRun) as [->|[[e ->]| ->]].
Qed.

(** From a path below the root directory the walk reaches the root
    directory within as many iterations as there are directories in
    between, and one more. *)
Lemma cascade_returns k lr rest n dryRun st :
  Forall (λ n, valid_name n = true) (lr ++ rest ++ [n]) →
  length rest < k →
  (cascade k (render lr) dryRun (render (lr ++ rest ++ [n])) st).2 ≠ NoReturn.
Proof.
  revert rest n st. induction k as [|k IH]; intros rest n st Hv Hk; [lia |].
  rewrite cascade_render by done.
  destruct (decide (rest = [])) as [->|Hne]; [done |].
  destruct (IsNotExist _); [done |].
  pose proof (removeDirIfEmpty_returns (render (lr ++ rest)) dryRun st) as Hr.
  destruct (removeDirIfEmpty _ dryRun st) as [st' [[|]|e| |]]; try done.
  destruct (exists_last Hne) as (rest' & m & ->).
  apply IH.
  - rewrite app_assoc in Hv. by apply valid_snoc in Hv as [Hv _].
  - rewrite length_app in Hk. simpl in Hk. lia.
Qed.

Lemma iterations_enough (lr rest : list string) n :
  length rest < iterations (render (lr ++ rest ++ [n])).
Proof.
  unfold iterations, render. rewrite slash_app.
  change (String.length (String "/" ?s)) with (S (String.length s)).
  pose proof (length_join (lr ++ rest ++ [n])) as H.
  rewrite !length_app in H. simpl in H. lia.
Qed.

Lemma cleanPath_returns dryRun p info st :
  entry_ok p info = true → (cleanPath dryRun p info st).2 ≠ NoReturn.
Proof.
  intros (lr & rest & n & -> & Hr & Hv)%entry_ok_inv.
  destruct info as [root isd]. simpl in Hr. subst root.
  rewrite cleanPath_eq. cbv zeta.
  change (rootDir {| rootDir := render lr; isDir := isd |}) with (render lr).
  assert ((removeTarget dryRun (render (lr ++ rest ++ [n]))
             {| rootDir := render lr; isDir := isd |} st).2 ≠ NoReturn) as H1.
  { unfold removeTarget. destruct dryRun; [done |].
    unfold mbind, M_bind, get. cbv beta iota.
    destruct (Stat _ _); [done |]. unfold remove_call.
    destruct isd; simpl; [by destruct (RemoveAll _ _) | by destruct (Remove _ _)]. }
  destruct (removeTarget _ _ _ st) as [st1 [[]|e| |]]; try done.
  destruct (negb _); [done |].
  set (st2 := mkState _ _ _ _).
  pose proof (cascade_returns _ lr rest n dryRun st2 Hv
                (iterations_enough lr rest n)) as H3.
  destruct (cascade _ _ dryRun _ st2) as [st3 [[]|e| |]]; try done.
  pose proof (removeDirIfEmpty_returns (render lr) dryRun st3) as H4.
  by destruct (removeDirIfEmpty _ dryRun st3) as [st4 [b|e| |]].
Qed.

(** The execution of a plan whose entries are as [Run] makes them
    returns: with [nil] or with an error. *)
Lemma Execute_returns product removePaths (dryRun : bool) st :
  plan_ok removePaths = true →
  (Execute product removePaths dryRun st).2 ≠ NoReturn.
Proof.
  intros Hok.
  assert (∀ paths st,
            (∀ p, p ∈ paths → is_Some (removePaths !! p)) →
            (forPaths
               (fun currPath =>
                  cleanPath dryRun currPath
                    (default noInfo (removePaths !! currPath)))
               paths st).2 ≠ NoReturn) as Hfor.
  { induction paths as [|p paths IH]; intros st1 Hin; [done |].
    simpl. unfold mbind, M_bind.
    destruct (Hin p (list_elem_of_here _ _)) as [info Hp]. rewrite Hp. simpl.
    pose proof (cleanPath_returns dryRun p info st1
                  (plan_ok_entry _ _ _ Hok Hp)) as H1.
    destruct (cleanPath dryRun p info st1) as [st2 [[]|e| |]]; try done.
    apply IH. intros q Hq. apply Hin. by right. }
  destruct dryRun.
  - rewrite Execute_dry. apply Hfor. intros p. apply sortedPaths_elem.
  - rewrite Execute_real. apply Hfor. intros p. apply sortedPaths_elem.
Qed.

End Termination.

(* ===================================================================== *)
(** ** The plan that [Run] makes *)
(* ===================================================================== *)

Section Plan.
Import OS Paths Clean Effects.
#[local] Arguments GoPath.Join : simpl never.
#[local] Arguments GoPath.Clean : simpl never.
#[local] Arguments render : simpl never.

Lemma clean_loop_app rooted es1 es2 out :
  GoPath.clean_loop rooted (es1 ++ es2) out
  = GoPath.clean_loop rooted es2 (rev (GoPath.clean_loop rooted es1 out)).
Proof.
  revert out. induction es1 as [|e es1 IH]; intros out.
  { simpl. by rewrite rev_involutive. }
  simpl. destruct (_ || _); [apply IH |].
  destruct (bool_decide (e = "..")); [|apply IH].
  destruct out as [|top out']; [destruct rooted; apply IH |].
  destruct (bool_decide (top = "..")); apply IH.
Qed.

Lemma elems_nonempty s : GoPath.elems s ≠ [].
Proof.
  destruct s as [|c s]; simpl; [done |].
  destruct (GoPath.is_slash c); [done |]. by destruct (GoPath.elems s).
Qed.

Lemma elems_app s t :
  GoPath.elems (s +:+ String "/" t) = GoPath.elems s ++ GoPath.elems t.
Proof.
  induction s as [|c s IH]; [done |].
  rewrite append_cons. simpl. rewrite IH.
  destruct (GoPath.is_slash c); [done |].
  pose proof (elems_nonempty s). by destruct (GoPath.elems s).
Qed.

Lemma resolve_snoc s n :
  valid_name n = true → resolve (s +:+ String "/" n) = resolve s ++ [n].
Proof.
  intros Hn. unfold resolve. rewrite elems_app, clean_loop_app.
  rewrite elems_noslash by (apply valid_name_spec in Hn; tauto).
  apply valid_name_spec in Hn as (H1 & H2 & H3 & _). simpl.
  rewrite !bool_decide_eq_false_2 by done. simpl.
  by rewrite rev_involutive.
Qed.

(** [path.Join] with an absolute first element gives an absolute clean
    path. *)
Lemma Join_rooted c s es :
  GoPath.Join (String c s :: es)
  = GoPath.Clean (GoPath.join (String c s :: es)).
Proof. reflexivity. Qed.

Lemma Join_abs_clean s es :
  abs_clean (GoPath.Join (String "/" s :: es)) = true.
Proof.
  rewrite Join_rooted.
  assert (∃ t, GoPath.join (String "/" s :: es) = String "/" t) as [t ->].
  { destruct es; [by eexists |]. simpl. rewrite append_cons. by eexists. }
  rewrite Clean_rooted. apply render_abs_clean, resolve_valid.
Qed.

Lemma Join_name dir n :
  abs_clean dir = true → valid_name n = true →
  GoPath.Join [dir; n] = render (resolve dir ++ [n]).
Proof.
  intros Hd Hn. rewrite (abs_clean_render dir Hd) at 1.
  apply Join_render. apply valid_snoc. split; [apply resolve_valid | done].
Qed.

Lemma Join3_name s o n :
  valid_name n = true →
  GoPath.Join [String "/" s; o; n]
  = render (resolve (GoPath.Join [String "/" s; o]) ++ [n]).
Proof.
  intros Hn. rewrite !Join_rooted.
  assert (∃ t, GoPath.join [String "/" s; o] = String "/" t) as [t Ht].
  { simpl. rewrite append_cons. by eexists. }
  assert (GoPath.join [String "/" s; o; n]
          = GoPath.join [String "/" s; o] +:+ String "/" n) as ->.
  { simpl. by rewrite !append_assoc. }
  rewrite Ht. rewrite append_cons, !Clean_rooted.
  rewrite <- append_cons, resolve_snoc by done.
  by rewrite resolve_render by apply resolve_valid.
Qed.

Lemma ReadDir_entry fs dir files f :
  ReadDir fs dir = inr files → f ∈ files →
  fs !! (resolve dir ++ [Name f]) = Some (IsDir f).
Proof.
  intros [_ ->]%ReadDir_inr Hf.
  rewrite merge_sort_Permutation in Hf. by apply entries_spec.
Qed.

Lemma foldE_inv {A S} (P : S → Prop) (body : S → A → error + S) l s s' :
  P s →
  (∀ s a s', a ∈ l → P s → body s a = inr s' → P s') →
  foldE body l s = inr s' → P s'.
Proof.
  revert s. induction l as [|a l IH]; intros s Hs Hstep; simpl.
  { by intros [= <-]. }
  destruct (body s a) as [e|s1] eqn:E; [done |].
  apply IH.
  - eapply Hstep; [by left | done..].
  - intros s2 b s3 Hb. apply Hstep. by right.
Qed.

Lemma fold_left_inv {A S} (P : S → Prop) (f : S → A → S) l s :
  P s → (∀ s a, a ∈ l → P s → P (f s a)) → P (fold_left f l s).
Proof.
  revert s. induction l as [|a l IH]; intros s Hs Hstep; simpl; [done |].
  apply IH.
  - apply Hstep; [by left | done].
  - intros s2 b Hb. apply Hstep. by right.
Qed.

Lemma good_entry_below fs dir rest d isd :
  wf_fs fs = true → abs_clean dir = true → rest ≠ [] →
  fs !! (resolve dir ++ rest) = Some d →
  good_entry_on fs (render (resolve dir ++ rest))
    {| rootDir := dir; isDir := isd |}.
Proof.
  intros Hwf Hd Hne Hn.
  pose proof (wf_valid _ _ _ Hwf Hn) as Hv.
  split.
  - unfold entry_ok, below. simpl.
    rewrite render_abs_clean, Hd, resolve_render by done. simpl.
    rewrite bool_decide_eq_true_2 by (by apply prefix_app_r).
    rewrite bool_decide_eq_false_2; [done |].
    intros E. apply (f_equal length) in E. rewrite length_app in E.
    destruct rest; [done |]. simpl in E. lia.
  - rewrite resolve_render by done. by eexists.
Qed.

(** The paths that [cleanBinOutput] returns lie three levels below the
    output directory and are on the disk. *)
Lemma cleanBinOutput_paths fs outputDir products removed :
  wf_fs fs = true → abs_clean outputDir = true →
  cleanBinOutput fs outputDir products = inr removed →
  ∀ k, k ∈ removed →
       ∃ tag osarch name,
         k = render (resolve outputDir ++ [tag; osarch; name]) ∧
         is_Some (fs !! (resolve outputDir ++ [tag; osarch; name])).
Proof.
  intros Hwf Hd. unfold cleanBinOutput.
  destruct (ReadDir fs outputDir) as [e|files1] eqn:H1.
  { intros [= <-] k Hk. set_solver. }
  apply (foldE_inv
           (fun removed : gset string =>
              ∀ k, k ∈ removed →
                   ∃ tag osarch name,
                     k = render (resolve outputDir ++ [tag; osarch; name]) ∧
                     is_Some (fs !! (resolve outputDir ++ [tag; osarch; name])))).
  { intros k Hk. set_solver. }
  intros s1 f1 s1' Hf1 Hs1.
  destruct (IsDir f1); simpl; [|by intros [= <-]].
  pose proof (ReadDir_entry _ _ _ _ H1 Hf1) as He1.
  pose proof (wf_valid _ _ _ Hwf He1) as Hv1.
  assert (valid_name (Name f1) = true) as Hn1
      by (by apply valid_snoc in Hv1 as [_ ?]).
  rewrite Join_name by done.
  destruct (ReadDir fs (render _)) as [e|files2] eqn:H2; [done |].
  rewrite ReadDir_render in H2 by done.
  apply (foldE_inv
           (fun removed : gset string =>
              ∀ k, k ∈ removed →
                   ∃ tag osarch name,
                     k = render (resolve outputDir ++ [tag; osarch; name]) ∧
                     is_Some (fs !! (resolve outputDir ++ [tag; osarch; name]))));
    [done |].
  intros s2 f2 s2' Hf2 Hs2.
  destruct (IsDir f2); simpl; [|by intros [= <-]].
  destruct (osArchToProducts products !! Name f2) as [prods|];
    [|by intros [= <-]].
  assert (fs !! ((resolve outputDir ++ [Name f1]) ++ [Name f2])
          = Some (IsDir f2)) as He2.
  { destruct (fs !! (resolve outputDir ++ [Name f1])) as [[|]|]; [|done..].
    injection H2 as <-. rewrite merge_sort_Permutation in Hf2.
    by apply entries_spec. }
  pose proof (wf_valid _ _ _ Hwf He2) as Hv2.
  rewrite Join_render by done.
  destruct (ReadDir fs (render _)) as [e|files3] eqn:H3; [done |].
  rewrite ReadDir_render in H3 by done.
  intros [= <-].
  apply (fold_left_inv
           (fun removed : gset string =>
              ∀ k, k ∈ removed →
                   ∃ tag osarch name,
                     k = render (resolve outputDir ++ [tag; osarch; name]) ∧
                     is_Some (fs !! (resolve outputDir ++ [tag; osarch; name]))));
    [done |].
  intros s3 f3 Hf3 Hs3.
  case_bool_decide; [|done].
  assert (fs !! (((resolve outputDir ++ [Name f1]) ++ [Name f2]) ++ [Name f3])
          = Some (IsDir f3)) as He3.
  { destruct (fs !! ((resolve outputDir ++ [Name f1]) ++ [Name f2]))
      as [[|]|]; [|done..].
    injection H3 as <-. rewrite merge_sort_Permutation in Hf3.
    by apply entries_spec. }
  pose proof (wf_valid _ _ _ Hwf He3) as Hv3.
  rewrite Join_render by done.
  intros k [->%elem_of_singleton|Hk]%elem_of_union; [|by apply Hs3].
  exists (Name f1), (Name f2), (Name f3).
  rewrite <- !app_assoc in He3 |- *. simpl in He3 |- *.
  split; [done | by eexists].
Qed.

Lemma plan_ok_intro removePaths :
  (∀ p info, removePaths !! p = Some info → entry_ok p info = true) →
  plan_ok removePaths = true.
Proof.
  intros H. unfold plan_ok. apply forallb_forall.
  intros [p info] Hin%list_elem_of_In%elem_of_map_to_list. by apply H.
Qed.

Lemma all_present_intro fs removePaths :
  (∀ p info, removePaths !! p = Some info → is_Some (fs !! resolve p)) →
  all_present fs removePaths = true.
Proof.
  intros H. unfold all_present. apply forallb_forall.
  intros [p info] Hin%list_elem_of_In%elem_of_map_to_list.
  apply bool_decide_eq_true. by eapply H.
Qed.

Section OfRun.
Variable Dist : Type.
Variable Dist_OutputDir : Dist → string.
Variable FullArtifactsPaths : ProductBuildSpec Dist → Dist → list string.
Variable Compiles : string → bool.
Variable MatchString : string → string → bool.
Variable b : ProductBuildSpecWithDeps Dist.
Variable fs : FS.

(** The removal plan that [Run] makes from the file system. *)
Lemma Run_eq dryRun st :
  Run Dist Dist_OutputDir FullArtifactsPaths Compiles MatchString b dryRun st =
  match binPaths Dist (disk st) b with
  | inl e => (st, Err e)
  | inr removePaths =>
      if Outputs.compiles Dist FullArtifactsPaths Compiles b then
        Execute (ProductName Dist (Spec Dist b))
          (fold_left
             (distFiles Dist Dist_OutputDir FullArtifactsPaths MatchString
                        (disk st) (withVersion Dist (Spec Dist b) ".+"))
             (Dists Dist (Spec Dist b)) removePaths)
          dryRun st
      else (st, Panic)
  end.
Proof.
  rewrite Run_planFiles. unfold Outputs.planFiles.
  by destruct (binPaths Dist (disk st) b).
Qed.

Hypothesis wf : wf_fs fs = true.
Hypothesis absolute :
  ∃ s, ProjectDir Dist (Spec Dist b) = String "/" s.

Lemma outputDirToMap_keys outputDir products :
  outputDirToMap Dist b !! outputDir = Some products →
  abs_clean outputDir = true.
Proof.
  destruct absolute as [s Hs]. unfold outputDirToMap. rewrite Hs.
  revert outputDir products.
  apply (fold_left_inv
           (fun m : gmap string (gmap string (list OSArch)) =>
              ∀ k v, m !! k = Some v → abs_clean k = true)).
  - intros k v [<- _]%lookup_singleton_Some. apply Join_abs_clean.
  - intros m [name dep] _ Hm k v.
    intros [[<- _]|[_ Hk]]%lookup_insert_Some; [|by eapply Hm].
    apply Join_abs_clean.
Qed.

Lemma binPaths_good removePaths :
  binPaths Dist fs b = inr removePaths →
  ∀ p info, removePaths !! p = Some info → good_entry_on fs p info.
Proof.
  unfold binPaths.
  apply (foldE_inv
           (fun rp : gmap string pathInfo =>
              ∀ p info, rp !! p = Some info → good_entry_on fs p info)).
  { intros p info Hp. by rewrite lookup_empty in Hp. }
  intros rp [outputDir products] rp' Hin%elem_of_map_to_list Hrp.
  destruct (cleanBinOutput fs outputDir products) as [e|removed] eqn:Hc;
    [done |].
  intros [= <-].
  pose proof (outputDirToMap_keys _ _ Hin) as Hd.
  apply (fold_left_inv
           (fun rp : gmap string pathInfo =>
              ∀ p info, rp !! p = Some info → good_entry_on fs p info));
    [done |].
  intros rp1 k Hk%elem_of_elements Hrp1 p info.
  intros [[<- <-]|[_ Hp]]%lookup_insert_Some; [|by eapply Hrp1].
  destruct (cleanBinOutput_paths _ _ _ _ wf Hd Hc k Hk)
    as (tag & osarch & name & -> & [d Hpres]).
  by eapply good_entry_below.
Qed.

Lemma distPaths_good spec removePaths currDist :
  ProjectDir Dist spec = ProjectDir Dist (Spec Dist b) →
  (∀ p info, removePaths !! p = Some info → good_entry_on fs p info) →
  ∀ p info,
    distFiles Dist Dist_OutputDir FullArtifactsPaths MatchString
              fs spec removePaths currDist !! p = Some info →
    good_entry_on fs p info.
Proof.
  intros Hproj Hrp. destruct absolute as [s Hs].
  unfold distFiles. rewrite Hproj, Hs.
  destruct (ReadDir fs _) as [e|files] eqn:Hr; [done |].
  apply (fold_left_inv
           (fun rp : gmap string pathInfo =>
              ∀ p info, rp !! p = Some info → good_entry_on fs p info));
    [done |].
  intros rp1 f Hf Hrp1 p info.
  destruct (existsb _ _); [|by apply Hrp1].
  intros [[<- <-]|[_ Hp]]%lookup_insert_Some; [|by eapply Hrp1].
  pose proof (ReadDir_entry _ _ _ _ Hr Hf) as He.
  pose proof (wf_valid _ _ _ wf He) as [_ Hn]%valid_snoc.
  rewrite Join3_name by done.
  eapply good_entry_below; [done | apply Join_abs_clean | done | exact He].
Qed.

(** The plan of [Run], for a project directory that is an absolute path
    and a well-formed file system: every entry has an absolute clean
    path that is on the disk, and as root directory an absolute clean
    path of a directory above it. *)
Lemma Run_plan_good removePaths :
  binPaths Dist fs b = inr removePaths →
  let plan :=
    fold_left
      (distFiles Dist Dist_OutputDir FullArtifactsPaths MatchString
                 fs (withVersion Dist (Spec Dist b) ".+"))
      (Dists Dist (Spec Dist b)) removePaths in
  plan_ok plan = true ∧ all_present fs plan = true.
Proof.
  intros Hb. cbv zeta.
  assert (∀ p info,
            fold_left
              (distFiles Dist Dist_OutputDir FullArtifactsPaths MatchString
                         fs (withVersion Dist (Spec Dist b) ".+"))
              (Dists Dist (Spec Dist b)) removePaths !! p = Some info →
            good_entry_on fs p info) as Hgood.
  { apply (fold_left_inv
             (fun rp : gmap string pathInfo =>
                ∀ p info, rp !! p = Some info → good_entry_on fs p info)).
    - by apply binPaths_good.
    - intros rp d _ Hrp. by apply distPaths_good. }
  split.
  - apply plan_ok_intro. intros p info Hp. by destruct (Hgood _ _ Hp).
  - apply all_present_intro. intros p info Hp. by destruct (Hgood _ _ Hp).
Qed.

(** [Run] removes and reports only paths at or below the root directory
    of an entry of its plan, and leaves every other file as it is. *)
Lemma Run_within_roots (dryRun : bool) removePaths :
  binPaths Dist fs b = inr removePaths →
  Outputs.compiles Dist FullArtifactsPaths Compiles b = true →
  within_roots
    (fold_left
       (distFiles Dist Dist_OutputDir FullArtifactsPaths MatchString
                  fs (withVersion Dist (Spec Dist b) ".+"))
       (Dists Dist (Spec Dist b)) removePaths)
    (mkState fs ∅ (if dryRun then [header_line (ProductName Dist (Spec Dist b))]
                   else []) [])
    (Run Dist Dist_OutputDir FullArtifactsPaths Compiles MatchString b dryRun
         (start fs)).1.
Proof.
  intros Hb Hc. rewrite Run_eq. simpl disk. rewrite Hb, Hc.
  destruct (Run_plan_good _ Hb) as [Hok _].
  set (plan := fold_left _ _ _) in *.
  destruct dryRun.
  - rewrite Execute_dry_start. apply forPaths_within_roots; [done |].
    intros p. apply sortedPaths_elem.
  - rewrite Execute_real_start. apply forPaths_within_roots; [done |].
    intros p. apply sortedPaths_elem.
Qed.

(** [Run] returns. *)
Lemma Run_returns dryRun :
  (Run Dist Dist_OutputDir FullArtifactsPaths Compiles MatchString b dryRun
       (start fs)).2 ≠ NoReturn.
Proof.
  rewrite Run_eq. simpl disk.
  destruct (binPaths Dist fs b) as [e|removePaths] eqn:Hb; [done |].
  destruct (Outputs.compiles _ _ _ _); [|done].
  apply Execute_returns. by destruct (Run_plan_good _ Hb).
Qed.

(** The dry run of [Run] and its real run: when no path of the plan lies
    below another one and the real run returns no error, the dry run
    reports what the real run removes. *)
Lemma Run_parity removePaths :
  binPaths Dist fs b = inr removePaths →
  none_nested
    (fold_left
       (distFiles Dist Dist_OutputDir FullArtifactsPaths MatchString
                  fs (withVersion Dist (Spec Dist b) ".+"))
       (Dists Dist (Spec Dist b)) removePaths) = true →
  let real :=
    Run Dist Dist_OutputDir FullArtifactsPaths Compiles MatchString b false (start fs) in
  let dry :=
    Run Dist Dist_OutputDir FullArtifactsPaths Compiles MatchString b true (start fs) in
  real.2 = Ok () →
  dry.2 = Ok () ∧
  stdout dry.1
  = header_line (ProductName Dist (Spec Dist b))
      :: (path_line <$> unlinked real.1) ∧
  disk dry.1 = fs.
Proof.
  intros Hb Hnest. cbv zeta. rewrite !Run_eq. simpl disk. rewrite Hb.
  destruct (Outputs.compiles _ _ _ _); [|done].
  destruct (Run_plan_good _ Hb) as [Hok Hall].
  set (plan := fold_left _ _ _) in *.
  rewrite Execute_real_start, Execute_dry_start.
  set (paths := GoStrings.Sort _).
  destruct (forPaths _ paths (start fs)) as [sr' r] eqn:Hreal. simpl.
  intros ->.
  assert (∀ p, p ∈ paths → is_Some (plan !! p)) as Hin
      by (intros p; apply sortedPaths_elem).
  assert (NoDup paths) as Hnd.
  { unfold paths, GoStrings.Sort. rewrite merge_sort_Permutation.
    apply NoDup_fst_map_to_list. }
  set (head := [header_line (ProductName Dist (Spec Dist b))]).
  assert (in_step fs head (mkState fs ∅ head []) (start fs)) as Hsim0.
  { repeat split; done. }
  assert (∀ p, p ∈ paths → ¬ covered (removedPaths (start fs)) (resolve p))
    as Hcov by (intros p _; apply covered_empty).
  destruct (sim_run _ _ _ _ _ _ _ wf Hok Hall Hnest Hnd Hin Hsim0 Hcov Hreal)
    as (sd' & -> & Hd & Hu & _ & _ & _ & Hout & _).
  done.
Qed.

End OfRun.

End Plan.

(* ===================================================================== *)
(** ** What every step of a run keeps *)
(* ===================================================================== *)

(** The loop body of [Run] is made of three kinds of steps: the removal
    (or report) of the path with its entry in [removedPaths], a call of
    [removeDirIfEmpty], and, in a dry run, a line written.  A relation
    between states that these steps respect holds from the start of the
    loop over [sortedPaths] to its end, however the loop ends. *)
Section Walk.
Import OS Clean.

Variable R : state → state → Prop.
Hypothesis R_refl : ∀ st, R st st.
Hypothesis R_trans : ∀ st1 st2 st3, R st1 st2 → R st2 st3 → R st1 st3.
Variable dryRun : bool.
Hypothesis R_check : ∀ dir st, R st (removeDirIfEmpty dir dryRun st).1.
Hypothesis R_print :
  dryRun = true → ∀ x st, R st (Fprintf (path_line x) st).1.

Lemma cascade_rel n root cur st : R st (cascade n root dryRun cur st).1.
Proof.
  revert cur st. induction n as [|n IH]; intros cur st; [apply R_refl |].
  rewrite cascade_S. cbv zeta.
  destruct (bool_decide _); [apply R_refl |].
  unfold mbind, M_bind, get.
  destruct (IsNotExist _); [apply R_refl |].
  pose proof (R_check (GoPath.Dir cur) st) as H1.
  destruct (removeDirIfEmpty _ dryRun st) as [st1 [[|]|e| |]];
    simpl in H1; try exact H1.
  cbn [negb]. apply (R_trans _ _ _ H1).
  unfold when. destruct (decide (dryRun = true)) as [Hd|Hd].
  - replace (if dryRun then Fprintf (path_line (GoPath.Dir cur)) else mret ())
      with (Fprintf (path_line (GoPath.Dir cur))) by (by rewrite Hd).
    eapply R_trans; [apply (R_print Hd (GoPath.Dir cur) st1) |].
    apply IH.
  - apply not_true_is_false in Hd.
    replace (if dryRun then Fprintf (path_line (GoPath.Dir cur)) else mret ())
      with (mret () : M unit) by (by rewrite Hd).
    apply IH.
Qed.

End Walk.

Section Steps.
Import OS Clean.

Variable R : state → state → Prop.
Hypothesis R_refl : ∀ st, R st st.
Hypothesis R_trans : ∀ st1 st2 st3, R st1 st2 → R st2 st3 → R st1 st3.
Variable dryRun : bool.
Variable Q : string → Prop.
Hypothesis R_target :
  ∀ p info st, Q p → R st ((removeTarget dryRun p info;; mark p) st).1.
Hypothesis R_check : ∀ dir st, R st (removeDirIfEmpty dir dryRun st).1.
Hypothesis R_print :
  dryRun = true → ∀ x st, R st (Fprintf (path_line x) st).1.

Lemma cleanPath_rel p info st : Q p → R st (cleanPath dryRun p info st).1.
Proof.
  intros Hq. pose proof (R_target p info st Hq) as H1.
  rewrite cleanPath_eq. unfold mbind, M_bind, mark in H1.
  destruct (removeTarget dryRun p info st) as [st1 [[]|e| |]]; try done.
  cbv zeta. simpl in H1.
  destruct (negb _); [done |].
  set (st2 := mkState _ _ _ _) in *.
  pose proof (cascade_rel R R_refl R_trans dryRun R_check R_print
                (iterations p) (rootDir info) p st2) as H2.
  destruct (cascade _ _ dryRun p st2) as [st3 [[]|e| |]];
    try (by eapply R_trans).
  pose proof (R_check (rootDir info) st3) as H3.
  simpl in H2.
  destruct (removeDirIfEmpty _ dryRun st3) as [st4 [r|e| |]];
    try (by eapply R_trans; [|eapply R_trans]).
  simpl in H3 |- *.
  apply (R_trans _ _ _ H1), (R_trans _ _ _ H2), (R_trans _ _ _ H3).
  destruct (r && dryRun) eqn:Hr; [|apply R_refl].
  apply andb_true_iff in Hr as [_ Hr].
  apply (R_print Hr (rootDir info) st4).
Qed.

Lemma forPaths_rel (info : string → pathInfo) paths st :
  Forall Q paths →
  R st (forPaths (fun currPath => cleanPath dryRun currPath (info currPath))
                 paths st).1.
Proof.
  revert st. induction paths as [|p paths IH]; intros st Hq; [apply R_refl |].
  apply Forall_cons in Hq as [Hp Hq].
  simpl. unfold mbind, M_bind.
  pose proof (cleanPath_rel p (info p) st Hp) as H1.
  destruct (cleanPath dryRun p _ st) as [st1 [[]|e| |]]; try done.
  eapply R_trans; [exact H1 |]. by apply IH.
Qed.

End Steps.

(* ===================================================================== *)
(** ** A real run writes nothing, and no run makes a file *)
(* ===================================================================== *)

Section Frame.
Import OS Clean.

Lemma removeTarget_mark_cases (dryRun : bool) p info st :
  let r := (removeTarget dryRun p info;; mark p) st in
  (dryRun = true ∧
   r = (mkState (disk st) ({[p]} ∪ removedPaths st)
                (stdout st ++ [path_line p]) (unlinked st), Ok ())) ∨
  (dryRun = false ∧ (∃ e, Stat (disk st) p = inl e) ∧
   r = (mkState (disk st) ({[p]} ∪ removedPaths st) (stdout st) (unlinked st),
        Ok ())) ∨
  (dryRun = false ∧ (∃ fi, Stat (disk st) p = inr fi) ∧
   ∃ fs', (if isDir info then RemoveAll else Remove) (disk st) p = inr fs' ∧
          r = (mkState fs' ({[p]} ∪ removedPaths st) (stdout st)
                       (unlinked st ++ [p]), Ok ())) ∨
  (dryRun = false ∧ (∃ fi, Stat (disk st) p = inr fi) ∧
   ∃ e, (if isDir info then RemoveAll else Remove) (disk st) p = inl e ∧
        r = (st, Err ((if isDir info then ErrRemoveDirectory
                       else ErrRemoveFile) p e))).
Proof.
  cbv zeta. unfold removeTarget, mbind, M_bind, get, mark, Fprintf.
  destruct dryRun; [by left |]. right.
  destruct (Stat (disk st) p) as [e|fi] eqn:Hp;
    [left; split; [done |]; split; [by eexists | done] |].
  right. unfold remove_call.
  destruct (isDir info).
  - destruct (RemoveAll (disk st) p) as [e|fs'] eqn:Hr.
    + right. split; [done |]. split; [by eexists |]. by exists e.
    + left. split; [done |]. split; [by eexists |]. by exists fs'.
  - destruct (Remove (disk st) p) as [e|fs'] eqn:Hr.
    + right. split; [done |]. split; [by eexists |]. by exists e.
    + left. split; [done |]. split; [by eexists |]. by exists fs'.
Qed.

Lemma removal_shrinks (isd : bool) fs p fs' :
  (if isd then RemoveAll else Remove) fs p = inr fs' → fs' ⊆ fs.
Proof.
  destruct isd.
  - intros [->| ->]%RemoveAll_inr; [done | apply map_filter_subseteq].
  - intros [-> _]%Remove_inr. apply delete_subseteq.
Qed.

Lemma removal_gone (isd : bool) fs p fs' :
  (if isd then RemoveAll else Remove) fs p = inr fs' →
  ∃ e, Stat fs' p = inl e.
Proof.
  destruct isd.
  - apply RemoveAll_gone.
  - intros [-> _]%Remove_inr. apply Stat_gone, lookup_delete_eq.
Qed.

Lemma target_silent p info st :
  stdout ((removeTarget false p info;; mark p) st).1 = stdout st.
Proof.
  destruct (removeTarget_mark_cases false p info st)
    as [[? _]|[(_ & _ & ->)|[(_ & _ & fs' & _ & ->)|(_ & _ & e & _ & ->)]]];
    done.
Qed.

Lemma forPaths_real_silent (info : string → pathInfo) paths st :
  stdout (forPaths (fun currPath => cleanPath false currPath (info currPath))
                   paths st).1 = stdout st.
Proof.
  apply (forPaths_rel (fun st st' => stdout st' = stdout st))
    with (Q := fun _ => True).
  - done.
  - intros st2 st3 st4 H1 H2. by rewrite H2.
  - intros p i st2 _. apply target_silent.
  - intros dir st1. apply removeDirIfEmpty_prints.
  - done.
  - by apply Forall_forall.
Qed.

Lemma target_shrinks dryRun p info st :
  disk ((removeTarget dryRun p info;; mark p) st).1 ⊆ disk st.
Proof.
  destruct (removeTarget_mark_cases dryRun p info st)
    as [[_ ->]|[(_ & _ & ->)|[(_ & _ & fs' & Hr & ->)|(_ & _ & e & _ & ->)]]];
    try done.
  simpl. by eapply removal_shrinks.
Qed.

Lemma check_shrinks dryRun dir st :
  disk (removeDirIfEmpty dir dryRun st).1 ⊆ disk st.
Proof.
  destruct (removeDirIfEmpty_cases st dir dryRun) as [->|[[e ->]| ->]];
    try done.
  simpl. destruct dryRun; [done |]. apply map_filter_subseteq.
Qed.

Lemma cascade_shrinks dryRun n root cur st :
  disk (cascade n root dryRun cur st).1 ⊆ disk st.
Proof.
  apply (cascade_rel (fun st st' => disk st' ⊆ disk st)).
  - done.
  - intros st2 st3 st4 H1 H2. by etrans.
  - intros. apply check_shrinks.
  - done.
Qed.

Lemma forPaths_shrinks dryRun (info : string → pathInfo) paths st :
  disk (forPaths (fun currPath => cleanPath dryRun currPath (info currPath))
                 paths st).1 ⊆ disk st.
Proof.
  apply (forPaths_rel (fun st st' => disk st' ⊆ disk st))
    with (Q := fun _ => True).
  - done.
  - intros st2 st3 st4 H1 H2. by etrans.
  - intros p i st2 _. apply target_shrinks.
  - intros. apply check_shrinks.
  - done.
  - by apply Forall_forall.
Qed.

Lemma Execute_shrinks product removePaths dryRun st :
  disk (Execute product removePaths dryRun st).1 ⊆ disk st.
Proof.
  destruct dryRun.
  - rewrite Execute_dry.
    apply (forPaths_shrinks true _ _ (mkState _ _ _ _)).
  - rewrite Execute_real.
    apply (forPaths_shrinks false _ _ (mkState _ _ _ _)).
Qed.

Lemma Execute_real_silent product removePaths st :
  stdout (Execute product removePaths false st).1 = stdout st.
Proof.
  rewrite Execute_real.
  apply (forPaths_real_silent _ _ (mkState _ _ _ _)).
Qed.

Lemma Run_dry_keeps_disk Dist Dist_OutputDir FullArtifactsPaths Compiles
    MatchString (b : ProductBuildSpecWithDeps Dist) st :
  let r :=
    Run Dist Dist_OutputDir FullArtifactsPaths Compiles MatchString b true st in
  disk r.1 = disk st ∧ unlinked r.1 = unlinked st.
Proof.
  cbv zeta. rewrite Run_eq. destruct (binPaths _ _ _); [done |].
  destruct (Outputs.compiles _ _ _ _); [|done].
  apply dry_run_keeps_disk.
Qed.

Lemma Run_real_silent Dist Dist_OutputDir FullArtifactsPaths Compiles
    MatchString (b : ProductBuildSpecWithDeps Dist) st :
  stdout (Run Dist Dist_OutputDir FullArtifactsPaths Compiles MatchString
              b false st).1
  = stdout st.
Proof.
  rewrite Run_eq. destruct (binPaths _ _ _); [done |].
  destruct (Outputs.compiles _ _ _ _); [|done].
  apply Execute_real_silent.
Qed.

Lemma Run_shrinks Dist Dist_OutputDir FullArtifactsPaths Compiles
    MatchString (b : ProductBuildSpecWithDeps Dist) dryRun st :
  disk (Run Dist Dist_OutputDir FullArtifactsPaths Compiles MatchString
            b dryRun st).1
  ⊆ disk st.
Proof.
  rewrite Run_eq. destruct (binPaths _ _ _); [done |].
  destruct (Outputs.compiles _ _ _ _); [|done].
  apply Execute_shrinks.
Qed.

(** X12.  A real run writes nothing to [stdout]: every line of [Run] is
    written in a dry run only.  This holds for every plan and every
    state, also when the run returns an error. *)
Theorem real_run_is_silent :
  (∀ product removePaths st,
     stdout (Execute product removePaths false st).1 = stdout st) ∧
  (∀ Dist Dist_OutputDir FullArtifactsPaths Compiles MatchString
     (b : ProductBuildSpecWithDeps Dist) st,
     stdout (Run Dist Dist_OutputDir FullArtifactsPaths Compiles MatchString
                 b false st).1
     = stdout st).
Proof.
  split; [apply Execute_real_silent |]. intros. apply Run_real_silent.
Qed.

(** X13.  No run makes a file or changes the kind of one: every file on
    the disk after [Run] was there before, as a directory or as a
    regular file as before.  This holds in both modes, for every plan,
    and however the run ends. *)
Theorem run_only_removes :
  (∀ product removePaths dryRun st k d,
     disk (Execute product removePaths dryRun st).1 !! k = Some d →
     disk st !! k = Some d) ∧
  (∀ Dist Dist_OutputDir FullArtifactsPaths Compiles MatchString
     (b : ProductBuildSpecWithDeps Dist) dryRun st k d,
     disk (Run Dist Dist_OutputDir FullArtifactsPaths Compiles MatchString
               b dryRun st).1
       !! k = Some d →
     disk st !! k = Some d).
Proof.
  split.
  - intros product removePaths dryRun st k d H.
    eapply lookup_weaken; [exact H | apply Execute_shrinks].
  - intros Dist Dist_OutputDir FullArtifactsPaths Compiles MatchString b
      dryRun st k d H.
    eapply lookup_weaken; [exact H | apply Run_shrinks].
Qed.

End Frame.

(* ===================================================================== *)
(** ** What a real run leaves *)
(* ===================================================================== *)

Section Outcome.
Import OS Paths Clean Outputs.

Lemma target_gone p info st st2 :
  (removeTarget false p info;; mark p) st = (st2, Ok ()) →
  ∃ e, Stat (disk st2) p = inl e.
Proof.
  destruct (removeTarget_mark_cases false p info st)
    as [[? _]|[(_ & Hp & ->)|[(_ & _ & fs' & Hr & ->)|(_ & _ & e & _ & ->)]]];
    [done | by intros [= <-] | | done].
  intros [= <-]. simpl. by eapply removal_gone.
Qed.

Lemma cleanPath_real_gone p info st st' :
  cleanPath false p info st = (st', Ok ()) → ∃ e, Stat (disk st') p = inl e.
Proof.
  rewrite cleanPath_eq.
  pose proof (target_gone p info st) as H1.
  unfold mbind, M_bind, mark in H1.
  destruct (removeTarget false p info st) as [st1 [[]|e| |]]; try done.
  specialize (H1 _ eq_refl). cbv zeta.
  destruct (negb _); [done |].
  set (st2 := mkState _ _ _ _) in *.
  pose proof (cascade_shrinks false (iterations p) (rootDir info) p st2) as H2.
  destruct (cascade _ _ false p st2) as [st3 [[]|e| |]]; try done.
  pose proof (check_shrinks false (rootDir info) st3) as H3.
  destruct (removeDirIfEmpty _ false st3) as [st4 [r|e| |]]; try done.
  rewrite andb_false_r. intros [= <-]. destruct H1 as [e1 H1].
  destruct (Stat_sub _ _ _ _ H2 H1) as [e2 H2'].
  by apply (Stat_sub _ _ _ _ H3 H2').
Qed.

Lemma forPaths_real_gone (info : string → pathInfo) paths st st' :
  forPaths (fun currPath => cleanPath false currPath (info currPath)) paths st
  = (st', Ok ()) →
  ∀ p, p ∈ paths → ∃ e, Stat (disk st') p = inl e.
Proof.
  revert st. induction paths as [|q paths IH]; intros st H p Hp.
  { by apply elem_of_nil in Hp. }
  simpl in H. unfold mbind, M_bind in H.
  destruct (cleanPath false q (info q) st) as [st1 [[]|e| |]] eqn:Hq; try done.
  apply elem_of_cons in Hp as [->|Hp]; [|by eapply IH].
  apply cleanPath_real_gone in Hq as [e Hq].
  eapply Stat_sub; [|exact Hq].
  pose proof (forPaths_shrinks false info paths st1) as Hs.
  by rewrite H in Hs.
Qed.

(** X14.  When a real run returns no error, none of the paths of its plan
    is on the disk any more: [os.Stat] fails on each of them.  This
    holds for every plan. *)
Theorem real_run_removes_plan product removePaths st :
  (Execute product removePaths false st).2 = Ok () →
  ∀ p, is_Some (removePaths !! p) →
       ∃ e, Stat (disk (Execute product removePaths false st).1) p = inl e.
Proof.
  rewrite Execute_real.
  destruct (forPaths _ _ _) as [st' r] eqn:H. simpl. intros ->.
  intros p Hp%sortedPaths_elem.
  exact (forPaths_real_gone _ _ _ _ H p Hp).
Qed.

Lemma removeDirIfEmpty_real_true dir st st' :
  removeDirIfEmpty dir false st = (st', Ok true) →
  disk st !! resolve dir = Some true ∧
  entries (disk st) (resolve dir) = [] ∧
  st' = mkState (rm (resolve dir) (disk st)) ({[dir]} ∪ removedPaths st)
                (stdout st) (unlinked st ++ [dir]).
Proof.
  destruct (IsNotExist (err_of (Stat (disk st) dir))) eqn:Hs.
  { by rewrite removeDirIfEmpty_absent. }
  destruct (ReadDir (disk st) dir) as [e|files] eqn:Hr.
  { by rewrite (removeDirIfEmpty_unreadable _ _ _ e). }
  rewrite (removeDirIfEmpty_eq _ _ _ _ Hr). cbv zeta.
  apply ReadDir_inr in Hr as [Hd ->].
  destruct (merge_sort name_le _) as [|f files] eqn:Hm; [|done].
  destruct (ends_with_dot dir); [done |].
  intros [= <-]. split; [done |]. split; [|done].
  apply Permutation_nil_r. rewrite <- Hm. by rewrite merge_sort_Permutation.
Qed.

(** A removal call that succeeds on a well-formed file system removes
    the file at the path and, with [os.RemoveAll], the files below it. *)
Lemma removal_rm (isd : bool) fs p fi fs' :
  wf_fs fs = true → Stat fs p = inr fi →
  (if isd then RemoveAll else Remove) fs p = inr fs' →
  fs' = rm (resolve p) fs.
Proof.
  intros Hwf Hs. destruct isd.
  { rewrite (RemoveAll_found _ _ _ Hs).
    destruct (ends_with_dot p); [done |]. by intros [= <-]. }
  intros [-> [Hf|[Hd He]]]%Remove_inr.
  - apply delete_rm; [done |]. intros n. by eapply file_no_entries.
  - apply delete_rm; [done |]. by apply entries_nil.
Qed.

Lemma rm_empty_dir fs l k :
  wf_fs fs = true → entries fs l = [] → k ≠ l → rm l fs !! k = fs !! k.
Proof.
  intros Hwf He Hk. rewrite <- delete_rm by (done || by apply entries_nil).
  by rewrite lookup_delete_ne.
Qed.

Section Spared.
Variable removePaths : gmap string pathInfo.

Lemma forPaths_spares (info : string → pathInfo) paths st :
  (∀ p, p ∈ paths → is_Some (removePaths !! p)) →
  spares removePaths st
    (forPaths (fun currPath => cleanPath false currPath (info currPath))
              paths st).1.
Proof.
  intros Hin.
  apply (forPaths_rel (spares removePaths)) with (Q := fun p => is_Some (removePaths !! p)).
  - by intros st1 Hwf.
  - intros st1 st2 st3 H1 H2 Hwf.
    destruct (H1 Hwf) as [Hwf2 H12]. destruct (H2 Hwf2) as [Hwf3 H23].
    split; [done |]. intros k Hk Hp. apply H23; [|done]. by apply H12.
  - intros p i st1 Hp Hwf.
    destruct (removeTarget_mark_cases false p i st1)
      as [[? _]|[(_ & _ & ->)|
                 [(_ & [fi Hs] & fs' & Hr & ->)|(_ & _ & e & _ & ->)]]];
      try done.
    simpl. apply (removal_rm _ _ _ fi) in Hr as ->; [|done..].
    split; [by apply wf_rm |].
    intros k Hk Hnot. rewrite lookup_rm_other; [done |]. by apply Hnot.
  - intros dir st1 Hwf.
    destruct (removeDirIfEmpty dir false st1) as [st2 [[|]|e| |]] eqn:Hc.
    + apply removeDirIfEmpty_real_true in Hc as (Hd & He & ->). simpl.
      split; [by apply wf_rm |].
      intros k Hk _. rewrite rm_empty_dir; [done.. |].
      intros ->. by rewrite Hd in Hk.
    + destruct (removeDirIfEmpty_cases st1 dir false) as [E|[[e E]|E]];
        rewrite Hc in E; by simplify_eq.
    + destruct (removeDirIfEmpty_cases st1 dir false) as [E|[[e' E]|E]];
        rewrite Hc in E; by simplify_eq.
    + by pose proof (removeDirIfEmpty_returns dir false st1) as Hn;
        rewrite Hc in Hn.
    + destruct (removeDirIfEmpty_cases st1 dir false) as [E|[[e' E]|E]];
        rewrite Hc in E; by simplify_eq.
  - done.
  - by apply Forall_forall.
Qed.

End Spared.

(** X15.  A real run on a well-formed file system removes no regular file
    but the paths of its plan and the files below them: a regular file
    that is not at or below a path of the plan is on the disk after the
    run, with every directory on the way to it.  What the walk up
    removes besides are empty directories.  This holds for every plan,
    and however the run ends. *)
Theorem unplanned_files_stay product removePaths fs k :
  wf_fs fs = true → fs !! k = Some false →
  (∀ p, is_Some (removePaths !! p) → ¬ resolve p `prefix_of` k) →
  let r := Execute product removePaths false (start fs) in
  ∀ l, l `prefix_of` k → disk r.1 !! l = fs !! l.
Proof.
  intros Hwf Hk Hnot r. subst r. rewrite Execute_real_start.
  destruct (forPaths_spares removePaths
              (fun p => default noInfo (removePaths !! p))
              (GoStrings.Sort (map_to_list removePaths).*1) (start fs))
    as [Hwf' Hstay]; [intros p; apply sortedPaths_elem | done |].
  specialize (Hstay k Hk Hnot).
  intros l [rest ->].
  destruct (decide (rest = [])) as [->|Hne].
  - rewrite app_nil_r in *. by rewrite Hstay, Hk.
  - rewrite (wf_above _ _ _ _ Hwf Hk Hne).
    by rewrite (wf_above _ _ _ _ Hwf' Hstay Hne).
Qed.

(** X17.  [removeDirIfEmpty] on a path that is no directory, in both
    modes.  When the path names no file ([os.Stat] fails with "does not
    exist"), the call gives [false] and no error.  When the path leads
    through a regular file or names one, the call gives the error of
    [ioutil.ReadDir] as "failed to read directory".  Nothing is removed,
    recorded or written in either case.  For an absolute clean path on
    a well-formed file system these cases are: no file at the path and
    none of the directories above it a regular file; a regular file at
    the path or above it. *)
Theorem removeDirIfEmpty_off_directory dirPath (dryRun : bool) st :
  (Stat (disk st) dirPath = inl ENOENT →
   removeDirIfEmpty dirPath dryRun st = (st, Ok false)) ∧
  ((∃ fi, Stat (disk st) dirPath = inr fi ∧ IsDir fi = false) ∨
   Stat (disk st) dirPath = inl ENOTDIR →
   removeDirIfEmpty dirPath dryRun st
   = (st, Err (ErrReadDirectory dirPath ENOTDIR))) ∧
  (wf_fs (disk st) = true → abs_clean dirPath = true →
   (disk st !! resolve dirPath = None →
    under_file (disk st) (resolve dirPath) = false →
    removeDirIfEmpty dirPath dryRun st = (st, Ok false)) ∧
   (disk st !! resolve dirPath = Some false ∨
    (disk st !! resolve dirPath = None ∧
     under_file (disk st) (resolve dirPath) = true) →
    removeDirIfEmpty dirPath dryRun st
    = (st, Err (ErrReadDirectory dirPath ENOTDIR)))).
Proof.
  split; [|split].
  - intros Hn. apply removeDirIfEmpty_absent. by rewrite Hn.
  - intros [(fi & Hf & Hd)|Hf].
    + apply removeDirIfEmpty_unreadable; [by rewrite Hf |].
      unfold Stat in Hf. unfold ReadDir.
      destruct (locate (disk st) dirPath) as [e|[l []]]; [done | | done].
      injection Hf as <-. done.
    + apply removeDirIfEmpty_unreadable; [by rewrite Hf |].
      unfold Stat in Hf. unfold ReadDir.
      destruct (locate (disk st) dirPath) as [e|[l d]]; [|done].
      by injection Hf as ->.
  - intros Hwf Hp%abs_clean_render.
    pose proof (resolve_valid dirPath) as Hv.
    assert (removeDirIfEmpty dirPath dryRun st
            = removeDirIfEmpty (render (resolve dirPath)) dryRun st) as ->
        by (by rewrite <- Hp).
    rewrite removeDirIfEmpty_render by done.
    rewrite <- Hp. split.
    + intros -> ->. done.
    + intros [->|[-> ->]]; done.
Qed.

End Outcome.

(* ===================================================================== *)
(** ** What a dry run lists *)
(* ===================================================================== *)

Section Listing.
Import OS Paths Clean.

#[local] Instance le_total : Total GoStrings.le.
Proof.
  intros s t. unfold GoStrings.le.
  destruct (String.leb_total s t) as [H|H]; auto.
Qed.

#[local] Instance le_trans : Transitive GoStrings.le.
Proof.
  intros s t u. unfold GoStrings.le. intros H1%Is_true_true H2%Is_true_true.
  apply Is_true_true. by etrans.
Qed.

(** The steps of a dry run append lines that name paths. *)
Lemma forPaths_lists (info : string → pathInfo) paths st st' :
  forPaths (fun currPath => cleanPath true currPath (info currPath)) paths st
  = (st', Ok ()) →
  ∃ ys, stdout st' = stdout st ++ (path_line <$> ys) ∧ paths `sublist_of` ys.
Proof.
  revert st. induction paths as [|p paths IH]; intros st H.
  { injection H as <-. exists []. by rewrite app_nil_r. }
  simpl in H. unfold mbind, M_bind in H.
  destruct (cleanPath true p (info p) st) as [st1 [[]|e| |]] eqn:Hp; try done.
  destruct (IH _ H) as (ys & Hys & Hsub).
  assert (∃ zs, stdout st1 = stdout st ++ (path_line <$> p :: zs))
    as [zs Hzs].
  { revert Hp. rewrite cleanPath_eq. unfold removeTarget, Fprintf.
    cbv zeta. destruct (negb _); [done |].
    set (st2 := mkState _ _ _ _).
    set (lines := fun st st' : state =>
                    ∃ zs, stdout st' = stdout st ++ (path_line <$> zs)).
    assert (∀ st, lines st st) as Hrefl.
    { intros s. exists []. by rewrite app_nil_r. }
    assert (∀ s1 s2 s3, lines s1 s2 → lines s2 s3 → lines s1 s3) as Htrans.
    { intros s1 s2 s3 [z1 H1] [z2 H2]. exists (z1 ++ z2).
      by rewrite H2, H1, fmap_app, app_assoc. }
    assert (∀ dir s, lines s (removeDirIfEmpty dir true s).1) as Hcheck.
    { intros dir s. exists []. by rewrite removeDirIfEmpty_prints, app_nil_r. }
    assert (∀ x s, lines s (Fprintf (path_line x) s).1) as Hprint.
    { intros x s. by exists [x]. }
    pose proof (cascade_rel lines Hrefl Htrans true Hcheck
                  (fun _ => Hprint) (iterations p) (rootDir (info p)) p st2)
      as H2.
    destruct (cascade _ _ true p st2) as [st3 [[]|e| |]]; try done.
    pose proof (Hcheck (rootDir (info p)) st3) as H3.
    destruct (removeDirIfEmpty _ true st3) as [st4 [r|e| |]]; try done.
    intros [= <-].
    assert (lines st2 (if r && true
                       then mkState (disk st4) (removedPaths st4)
                              (stdout st4 ++ [path_line (rootDir (info p))])
                              (unlinked st4)
                       else st4)) as [zs Hzs].
    { apply (Htrans _ _ _ H2), (Htrans _ _ _ H3).
      destruct (r && true); [apply Hprint | apply Hrefl]. }
    exists zs. rewrite Hzs. simpl. by rewrite <- app_assoc. }
  exists (p :: zs ++ ys). split.
  - rewrite Hys, Hzs. rewrite !fmap_cons, fmap_app, <- app_assoc. done.
  - apply sublist_skip. by apply sublist_inserts_l.
Qed.

(** X16.  A dry run that returns no error lists every path of the plan
    after the header line: the paths of the plan, in ascending order of
    [sort.Strings] and each of them once, are a subsequence of the
    paths that are printed.  The other printed paths are those of the
    walk up, and they can name a path of the plan a second time. *)
Theorem dry_run_lists_plan product removePaths st :
  let r := Execute product removePaths true st in
  r.2 = Ok () →
  ∃ paths ys,
    stdout r.1 = stdout st ++ header_line product :: (path_line <$> ys) ∧
    paths `sublist_of` ys ∧
    StronglySorted GoStrings.le paths ∧ NoDup paths ∧
    ∀ p, p ∈ paths ↔ is_Some (removePaths !! p).
Proof.
  cbv zeta. rewrite Execute_dry.
  destruct (forPaths _ _ _) as [st' r] eqn:H. simpl. intros ->.
  apply forPaths_lists in H as (ys & Hys & Hsub).
  exists (GoStrings.Sort (map_to_list removePaths).*1), ys.
  split; [by rewrite Hys; simpl; rewrite <- app_assoc |].
  split; [done |]. split; [apply StronglySorted_merge_sort; apply _ |].
  split; [|apply sortedPaths_elem].
  unfold GoStrings.Sort. rewrite merge_sort_Permutation.
  apply NoDup_fst_map_to_list.
Qed.

End Listing.


(* ===================================================================== *)
(** ** The binaries that [cleanBinOutput] finds *)
(* ===================================================================== *)

Section Binaries.
Import OS Paths Clean.
#[local] Arguments GoPath.Join : simpl never.
#[local] Arguments GoPath.Clean : simpl never.
#[local] Arguments render : simpl never.

Lemma osArchToProducts_step currProduct (prodOSArchs : list OSArch)
    (m : gmap string (gset string)) s name :
  name ∈ default ∅
           (fold_left
              (fun m currOSArch =>
                 <[OSArch_String currOSArch :=
                     {[currProduct]}
                       ∪ default ∅ (m !! OSArch_String currOSArch)]> m)
              prodOSArchs m !! s)
  ↔ name ∈ default ∅ (m !! s) ∨
    (name = currProduct ∧ ∃ o, o ∈ prodOSArchs ∧ OSArch_String o = s).
Proof.
  revert m. induction prodOSArchs as [|o archs IH]; intros m; simpl.
  { split; [auto |]. intros [H|(_ & o & Ho & _)]; [done |].
    by apply elem_of_nil in Ho. }
  rewrite IH. destruct (decide (OSArch_String o = s)) as [<-|Hne].
  - rewrite lookup_insert_eq. simpl. rewrite elem_of_union, elem_of_singleton.
    split.
    + intros [[->|H]|(-> & o' & Ho' & E)]; [right | by left | right].
      * split; [done |]. exists o. split; [by left | done].
      * split; [done |]. exists o'. split; [by right | done].
    + intros [H|(-> & o' & Ho' & E)]; [by left; right |]. by left; left.
  - rewrite lookup_insert_ne by done.
    split.
    + intros [H|(-> & o' & Ho' & E)]; [by left |].
      right. split; [done |]. exists o'. split; [by right | done].
    + intros [H|(-> & o' & Ho' & E)]; [by left |].
      apply elem_of_cons in Ho' as [->|Ho']; [done |].
      right. split; [done |]. by exists o'.
Qed.

Lemma osArchToProducts_spec (products : gmap string (list OSArch)) s name :
  name ∈ default ∅ (osArchToProducts products !! s) ↔
  ∃ prodOSArchs o,
    products !! name = Some prodOSArchs ∧ o ∈ prodOSArchs ∧
    OSArch_String o = s.
Proof.
  unfold osArchToProducts.
  assert (∀ (l : list (string * list OSArch)) (m : gmap string (gset string)),
            name ∈ default ∅
                     (fold_left
                        (fun m '(currProduct, prodOSArchs) =>
                           fold_left
                             (fun m currOSArch =>
                                <[OSArch_String currOSArch :=
                                    {[currProduct]}
                                      ∪ default ∅
                                          (m !! OSArch_String currOSArch)]> m)
                             prodOSArchs m)
                        l m !! s)
            ↔ name ∈ default ∅ (m !! s) ∨
              ∃ prodOSArchs o,
                (name, prodOSArchs) ∈ l ∧ o ∈ prodOSArchs ∧
                OSArch_String o = s) as Hl.
  { induction l as [|[p archs] l IH]; intros m; simpl.
    { split; [auto |]. intros [H|(a & o & Ha & _)]; [done |].
      by apply elem_of_nil in Ha. }
    rewrite IH, osArchToProducts_step. split.
    - intros [[H|(-> & o & Ho & E)]|(a & o & Ha & Ho & E)].
      + by left.
      + right. exists archs, o. split; [by left | done].
      + right. exists a, o. split; [by right | done].
    - intros [H|(a & o & Ha & Ho & E)]; [by left; left |].
      apply elem_of_cons in Ha as [[= -> ->]|Ha].
      + left; right. split; [done |]. by exists o.
      + right. by exists a, o. }
  rewrite Hl. rewrite lookup_empty. simpl. split.
  - intros [H|(a & o & Ha%elem_of_map_to_list & Ho & E)]; [set_solver |].
    by exists a, o.
  - intros (a & o & Ha & Ho & E). right. exists a, o.
    split; [by apply elem_of_map_to_list | done].
Qed.

(** X4.  The first loop of [cleanBinOutput] turns the map from products
    to OS/architecture pairs around: a product is listed under the
    name of an OS/architecture directory exactly when it is built for
    that OS/architecture. *)
Theorem osArchToProducts_inverts (products : gmap string (list OSArch))
    osArch currProduct :
  (∃ currProductsMap,
     osArchToProducts products !! osArch = Some currProductsMap ∧
     currProduct ∈ currProductsMap) ↔
  (∃ prodOSArchs currOSArch,
     products !! currProduct = Some prodOSArchs ∧
     currOSArch ∈ prodOSArchs ∧ OSArch_String currOSArch = osArch).
Proof.
  rewrite <- osArchToProducts_spec.
  destruct (osArchToProducts products !! osArch) as [m|]; simpl.
  - split; [by intros (? & [= <-] & ?) | by exists m].
  - split; [by intros (? & ? & _) | set_solver].
Qed.

Lemma foldE_collect {A} (body : gset string → A → error + gset string)
    (G : A → string → Prop) l s :
  (∀ s a, a ∈ l →
          ∃ s', body s a = inr s' ∧ ∀ k, k ∈ s' ↔ k ∈ s ∨ G a k) →
  ∃ s', foldE body l s = inr s' ∧
        ∀ k, k ∈ s' ↔ k ∈ s ∨ ∃ a, a ∈ l ∧ G a k.
Proof.
  revert s. induction l as [|a l IH]; intros s Hbody; simpl.
  { exists s. split; [done |]. intros k. split; [auto |].
    intros [H|(a & Ha & _)]; [done |]. by apply elem_of_nil in Ha. }
  destruct (Hbody s a (list_elem_of_here _ _)) as (s1 & -> & H1).
  destruct (IH s1) as (s2 & -> & H2).
  { intros s' a' Ha'. apply Hbody. by right. }
  exists s2. split; [done |]. intros k. rewrite H2, H1. split.
  - intros [[H|H]|(a' & Ha' & H)]; [by left | right..].
    + exists a. split; [by left | done].
    + exists a'. split; [by right | done].
  - intros [H|(a' & [->|Ha']%elem_of_cons & H)];
      [by left; left | by left; right |].
    right. by exists a'.
Qed.

Lemma fold_left_collect {A} (f : gset string → A → gset string)
    (G : A → string → Prop) l s :
  (∀ s a, a ∈ l → ∀ k, k ∈ f s a ↔ k ∈ s ∨ G a k) →
  ∀ k, k ∈ fold_left f l s ↔ k ∈ s ∨ ∃ a, a ∈ l ∧ G a k.
Proof.
  revert s. induction l as [|a l IH]; intros s Hf k; simpl.
  { split; [auto |]. intros [H|(a & Ha & _)]; [done |].
    by apply elem_of_nil in Ha. }
  rewrite IH by (intros s' a' Ha'; apply Hf; by right).
  rewrite (Hf s a (list_elem_of_here _ _)). split.
  - intros [[H|H]|(a' & Ha' & H)]; [by left | right..].
    + exists a. split; [by left | done].
    + exists a'. split; [by right | done].
  - intros [H|(a' & [->|Ha']%elem_of_cons & H)];
      [by left; left | by left; right |].
    right. by exists a'.
Qed.

Lemma ReadDir_dir fs l :
  wf_fs fs = true → fs !! l = Some true →
  ∃ files, ReadDir fs (render l) = inr files ∧
           ∀ f, f ∈ files ↔ fs !! (l ++ [Name f]) = Some (IsDir f).
Proof.
  intros Hwf Hl. pose proof (wf_valid _ _ _ Hwf Hl) as Hv.
  rewrite ReadDir_render, Hl by done. eexists. split; [done |].
  intros f. rewrite merge_sort_Permutation. apply entries_spec.
Qed.

(** [cleanBinOutput] on a well-formed file system: it returns no error,
    and the paths [outputDir/tag/osArch/product] of the files in the
    OS/architecture directories that are named like a product built for
    that OS/architecture. *)
Lemma cleanBinOutput_spec fs outputDir products :
  wf_fs fs = true → abs_clean outputDir = true →
  ∃ removed,
    cleanBinOutput fs outputDir products = inr removed ∧
    ∀ k, k ∈ removed ↔
         ∃ tag osArch product,
           k = render (resolve outputDir ++ [tag; osArch; product]) ∧
           fs !! (resolve outputDir ++ [tag]) = Some true ∧
           fs !! (resolve outputDir ++ [tag; osArch]) = Some true ∧
           is_Some (fs !! (resolve outputDir ++ [tag; osArch; product])) ∧
           product ∈ default ∅ (osArchToProducts products !! osArch).
Proof.
  intros Hwf Hd. unfold cleanBinOutput.
  set (out := resolve outputDir).
  destruct (ReadDir fs outputDir) as [e|files1] eqn:H1.
  { exists ∅. split; [done |]. intros k. split; [set_solver |].
    intros (tag & o & n & _ & Ht & _).
    apply wf_parent in Ht; [|done].
    by destruct (ReadDir_unreadable _ _ _ Hwf Hd H1). }
  set (G1 := fun (f1 : FileInfo) (k : string) =>
               IsDir f1 = true ∧
               ∃ osArch product,
                 k = render (out ++ [Name f1; osArch; product]) ∧
                 fs !! (out ++ [Name f1; osArch]) = Some true ∧
                 is_Some (fs !! (out ++ [Name f1; osArch; product])) ∧
                 product ∈ default ∅ (osArchToProducts products !! osArch)).
  match goal with
  | |- ∃ removed, foldE ?body files1 ∅ = inr removed ∧ _ =>
      destruct (foldE_collect body G1 files1 ∅) as (removed & Hr & Hk)
  end.
  2:{ exists removed. split; [done |]. intros k. rewrite Hk. split.
      - intros [H|(f1 & Hf1 & Hdir & o & n & -> & Ho & Hn & Hp)];
          [set_solver |].
        exists (Name f1), o, n. split; [done |]. split; [|done].
        pose proof (ReadDir_entry _ _ _ _ H1 Hf1) as He. by rewrite Hdir in He.
      - intros (tag & o & n & -> & Ht & Ho & Hn & Hp). right.
        exists {| Name := tag; IsDir := true |}. split.
        + apply ReadDir_inr in H1 as [_ ->].
          rewrite merge_sort_Permutation. by apply entries_spec.
        + split; [done |]. by exists o, n. }
  intros s1 f1 Hf1.
  pose proof (ReadDir_entry _ _ _ _ H1 Hf1) as He1. fold out in He1.
  destruct (IsDir f1) eqn:Hdir1; simpl.
  2:{ exists s1. split; [done |]. intros k. split; [auto |].
      intros [H|[Hc _]]; [done |]. unfold G1 in Hc. congruence. }
  pose proof (wf_valid _ _ _ Hwf He1) as Hv1.
  assert (valid_name (Name f1) = true) as Hn1
      by (by apply valid_snoc in Hv1 as [_ ?]).
  rewrite Join_name by done. fold out.
  destruct (ReadDir_dir _ _ Hwf He1) as (files2 & Hrd2 & Hfiles2).
  rewrite Hrd2.
  set (G2 := fun (f2 : FileInfo) (k : string) =>
               IsDir f2 = true ∧
               ∃ product,
                 k = render (out ++ [Name f1; Name f2; product]) ∧
                 is_Some (fs !! (out ++ [Name f1; Name f2; product])) ∧
                 product ∈ default ∅ (osArchToProducts products !! Name f2)).
  match goal with
  | |- ∃ s', foldE ?body files2 s1 = inr s' ∧ _ =>
      destruct (foldE_collect body G2 files2 s1) as (s2 & Hr & Hk)
  end.
  2:{ exists s2. split; [done |]. intros k. rewrite Hk.
      apply or_iff_compat_l. unfold G1. split.
      - intros (f2 & Hf2 & Hdir2 & n & -> & Hn & Hp).
        split; [done |]. exists (Name f2), n. split; [done |]. split; [|done].
        apply Hfiles2 in Hf2. rewrite Hdir2 in Hf2.
        by rewrite <- app_assoc in Hf2.
      - intros (_ & o & n & -> & Ho & Hn & Hp).
        exists {| Name := o; IsDir := true |}. split.
        + apply Hfiles2. simpl. by rewrite <- app_assoc.
        + split; [done |]. by exists n. }
  intros s2' f2 Hf2. apply Hfiles2 in Hf2 as He2.
  destruct (IsDir f2) eqn:Hdir2; simpl.
  2:{ exists s2'. split; [done |]. intros k. split; [auto |].
      intros [H|[Hc _]]; [done |]. congruence. }
  destruct (osArchToProducts products !! Name f2) as [prods|] eqn:Hprods.
  2:{ exists s2'. split; [done |]. intros k. split; [auto |].
      intros [H|(_ & n & _ & _ & Hc)]; [done |].
      rewrite Hprods in Hc. by apply elem_of_empty in Hc. }
  pose proof (wf_valid _ _ _ Hwf He2) as Hv2.
  rewrite Join_render by done.
  destruct (ReadDir_dir _ _ Hwf He2) as (files3 & Hrd3 & Hfiles3).
  rewrite Hrd3.
  eexists. split; [done |].
  intros k.
  rewrite (fold_left_collect _
             (fun (f3 : FileInfo) k =>
                Name f3 ∈ prods ∧
                k = render (((out ++ [Name f1]) ++ [Name f2]) ++ [Name f3]))).
  2:{ intros s3 f3 Hf3 k'. apply Hfiles3 in Hf3.
      pose proof (wf_valid _ _ _ Hwf Hf3) as Hv3.
      rewrite Join_render by done.
      case_bool_decide as Hin.
      - rewrite elem_of_union, elem_of_singleton. split.
        + intros [->|H]; [by right | by left].
        + intros [H|[_ ->]]; [by right | by left].
      - split; [auto |]. by intros [H|[Hc _]]. }
  apply or_iff_compat_l. unfold G2. simpl. split.
  - intros (f3 & Hf3 & Hp & ->). split; [done |].
    exists (Name f3). apply Hfiles3 in Hf3.
    rewrite <- !app_assoc in Hf3 |- *. simpl in Hf3 |- *.
    split; [done |]. split; [by eexists |]. by rewrite Hprods.
  - intros (_ & n & -> & [d Hn] & Hp). rewrite Hprods in Hp.
    exists {| Name := n; IsDir := d |}. split.
    + apply Hfiles3. simpl. by rewrite <- !app_assoc.
    + split; [done |]. simpl. by rewrite <- !app_assoc.
Qed.

(** X5.  What [cleanBinOutput] returns on a well-formed file system: the
    paths [outputDir/tag/osArch/product] of the files that are on the
    disk in a directory [osArch] of a directory [tag] of the output
    directory, where [product] is a key of [products] and [osArch] the
    name of an OS/architecture pair it is built for.  Regular files in
    the place of [tag] or [osArch], and the files of other products and
    of other OS/architecture pairs, are not returned. *)
Theorem cleanBinOutput_finds fs outputDir products removed :
  wf_fs fs = true → abs_clean outputDir = true →
  cleanBinOutput fs outputDir products = inr removed →
  ∀ binToRemovePath,
    binToRemovePath ∈ removed ↔
    ∃ tag osArch product prodOSArchs currOSArch,
      binToRemovePath = render (resolve outputDir ++ [tag; osArch; product]) ∧
      fs !! (resolve outputDir ++ [tag]) = Some true ∧
      fs !! (resolve outputDir ++ [tag; osArch]) = Some true ∧
      is_Some (fs !! (resolve outputDir ++ [tag; osArch; product])) ∧
      products !! product = Some prodOSArchs ∧
      currOSArch ∈ prodOSArchs ∧ OSArch_String currOSArch = osArch.
Proof.
  intros Hwf Hd Hc k.
  destruct (cleanBinOutput_spec fs outputDir products Hwf Hd)
    as (removed' & Hc' & Hk).
  rewrite Hc in Hc'. injection Hc' as <-. rewrite Hk. split.
  - intros (tag & o & n & -> & Ht & Ho & Hn & Hp).
    apply osArchToProducts_spec in Hp as (archs & a & Hp & Ha & E).
    by exists tag, o, n, archs, a.
  - intros (tag & o & n & archs & a & -> & Ht & Ho & Hn & Hp & Ha & E).
    exists tag, o, n. repeat (split; [done |]).
    apply osArchToProducts_spec. by exists archs, a.
Qed.

End Binaries.

(* ===================================================================== *)
(** ** The output directories and the plan of [Run] *)
(* ===================================================================== *)

Section OutputDirs.
Import OS Paths Clean.
#[local] Arguments GoPath.Join : simpl never.
#[local] Arguments GoPath.Clean : simpl never.
#[local] Arguments render : simpl never.

Variable Dist : Type.
Variable b : ProductBuildSpecWithDeps Dist.

Lemma outputDirToMap_step (m : gmap string (gmap string (list OSArch)))
    dir name archs outputDir product :
  <[dir := <[name := archs]> (default ∅ (m !! dir))]> m !! outputDir
    ≫= (.!! product)
  = if decide (outputDir = dir ∧ product = name) then Some archs
    else m !! outputDir ≫= (.!! product).
Proof.
  destruct (decide (outputDir = dir)) as [->|Hd].
  - rewrite lookup_insert_eq. simpl.
    destruct (decide (product = name)) as [->|Hn].
    + rewrite lookup_insert_eq. by rewrite decide_True.
    + rewrite lookup_insert_ne by done.
      rewrite decide_False by (by intros [_ ?]).
      by destruct (m !! dir).
  - rewrite lookup_insert_ne by done.
    by rewrite decide_False by (by intros [? _]).
Qed.

(** X3.  The map [outputDirToMap] of [Run] lists a product under an
    output directory exactly when it is the product to clean, or one of
    its dependencies, and the directory is the build output directory of
    that product below the project directory; the OS/architecture pairs
    listed with it are those of such a product. *)
Theorem outputDirToMap_lists outputDir product :
  let dirOf (s : ProductBuildSpec Dist) :=
    GoPath.Join [ProjectDir Dist (Spec Dist b);
                 Build_OutputDir (Build Dist s)] in
  let listed (s : ProductBuildSpec Dist) :=
    s = Spec Dist b ∨ ∃ name, Deps Dist b !! name = Some s in
  ((∃ osArchs,
      outputDirToMap Dist b !! outputDir ≫= (.!! product) = Some osArchs) ↔
   (∃ s, listed s ∧ outputDir = dirOf s ∧ product = ProductName Dist s)) ∧
  (∀ osArchs,
     outputDirToMap Dist b !! outputDir ≫= (.!! product) = Some osArchs →
     ∃ s, listed s ∧ outputDir = dirOf s ∧ product = ProductName Dist s ∧
          osArchs = OSArchs (Build Dist s)).
Proof.
  cbv zeta. unfold outputDirToMap.
  set (dirOf := fun s : ProductBuildSpec Dist =>
         GoPath.Join [ProjectDir Dist (Spec Dist b);
                      Build_OutputDir (Build Dist s)]).
  match goal with
  | |- context [fold_left ?f _ ?m0] => set (step := f); set (first := m0)
  end.
  assert (∀ l m,
            ((∃ a, fold_left step l m !! outputDir ≫= (.!! product) = Some a) ↔
             (∃ a, m !! outputDir ≫= (.!! product) = Some a) ∨
             ∃ nd, nd ∈ l ∧ outputDir = dirOf nd.2 ∧
                   product = ProductName Dist nd.2) ∧
            (∀ a, fold_left step l m !! outputDir ≫= (.!! product) = Some a →
                  m !! outputDir ≫= (.!! product) = Some a ∨
                  ∃ nd, nd ∈ l ∧ outputDir = dirOf nd.2 ∧
                        product = ProductName Dist nd.2 ∧
                        a = OSArchs (Build Dist nd.2))) as Hl.
  { induction l as [|[n d] l IH]; intros m.
    { simpl. split; [|auto]. split; [auto |].
      intros [H|(nd & Hnd & _)]; [done |]. by apply elem_of_nil in Hnd. }
    destruct (IH (step m (n, d))) as [IH1 IH2].
    change (fold_left step ((n, d) :: l) m)
      with (fold_left step l (step m (n, d))).
    split.
    - rewrite IH1. unfold step. rewrite outputDirToMap_step.
      fold (dirOf d). split.
      + intros [[a Ha]|(nd & Hnd & H)].
        * destruct (decide _) as [[-> ->]|_].
          -- right. exists (n, d). split; [by left | done].
          -- left. by exists a.
        * right. exists nd. split; [by right | done].
      + intros [[a Ha]|(nd & [->|Hnd]%elem_of_cons & Hd & Hp)].
        * left. destruct (decide _); by eexists.
        * left. simpl in Hd, Hp. rewrite decide_True by done. by eexists.
        * right. by exists nd.
    - intros a [Ha|(nd & Hnd & H)]%IH2.
      + unfold step in Ha. rewrite outputDirToMap_step in Ha.
        fold (dirOf d) in Ha.
        destruct (decide _) as [[-> ->]|_]; [|by left].
        injection Ha as <-. right. exists (n, d). split; [by left | done].
      + right. exists nd. split; [by right | done]. }
  destruct (Hl (map_to_list (Deps Dist b)) first) as [H1 H2].
  assert (∀ a,
            first !! outputDir ≫= (.!! product) = Some a ↔
            outputDir = dirOf (Spec Dist b) ∧
            product = ProductName Dist (Spec Dist b) ∧
            a = OSArchs (Build Dist (Spec Dist b))) as H0.
  { intros a. unfold first. fold (dirOf (Spec Dist b)).
    destruct (decide (outputDir = dirOf (Spec Dist b))) as [->|Hd].
    - rewrite lookup_singleton_eq. simpl. rewrite lookup_singleton_Some.
      split; [by intros [-> ->] | by intros (_ & -> & ->)].
    - rewrite lookup_singleton_ne by done. simpl.
      split; [done | by intros [? _]]. }
  split.
  - rewrite H1. split.
    + intros [[a (-> & -> & _)%H0]|([n d] & Hnd%elem_of_map_to_list & Hd & Hp)].
      * exists (Spec Dist b). split; [by left | done].
      * exists d. split; [right; by exists n | done].
    + intros (s & [->|[n Hn]] & -> & ->).
      * left. eexists. by apply H0.
      * right. exists (n, s). split; [by apply elem_of_map_to_list | done].
  - intros a [(-> & -> & ->)%H0|([n d] & Hnd%elem_of_map_to_list & Hd & Hp & ->)]%H2.
    + exists (Spec Dist b). split; [by left | done].
    + exists d. split; [right; by exists n | done].
Qed.

End OutputDirs.

Section DistFiles.
Import OS Paths Clean Outputs.
#[local] Arguments GoPath.Join : simpl never.
#[local] Arguments GoPath.Clean : simpl never.
#[local] Arguments render : simpl never.

(** A loop that puts entries into a map: what the map holds at the end. *)
Lemma fold_left_insert {A V} (c : A → bool) (key : A → string) (val : A → V)
    (l : list A) (m : gmap string V) p v :
  (∀ a a', a ∈ l → a' ∈ l → key a = key a' → val a = val a') →
  fold_left (fun m a => if c a then <[key a := val a]> m else m) l m !! p
  = Some v ↔
  (∃ a, a ∈ l ∧ c a = true ∧ key a = p ∧ val a = v) ∨
  (m !! p = Some v ∧ ∀ a, a ∈ l → c a = true → key a ≠ p).
Proof.
  revert m. induction l as [|a l IH]; intros m Hkey; simpl.
  { split; [intros H; right; split; [done |] |].
    - intros a Ha. by apply elem_of_nil in Ha.
    - intros [(a & Ha & _)|[H _]]; [by apply elem_of_nil in Ha | done]. }
  rewrite IH by (intros a1 a2 H1 H2; apply Hkey; by right).
  split.
  - intros [(a' & Ha' & Hc & Hk & Hv)|[Hm Hl]].
    { left. exists a'. split; [by right | done]. }
    destruct (c a) eqn:Hc.
    + apply lookup_insert_Some in Hm as [[Hk Hv]|[Hk Hm]].
      * left. exists a. split; [by left | done].
      * right. split; [done |].
        intros a' [->|Ha']%elem_of_cons Hc'; [done | by apply Hl].
    + right. split; [done |].
      intros a' [->|Ha']%elem_of_cons Hc'; [congruence | by apply Hl].
  - intros [(a' & [->|Ha']%elem_of_cons & Hc & Hk & Hv)|[Hm Hl]].
    + destruct (decide (Exists (fun a' => c a' = true ∧ key a' = p) l))
        as [(a' & Ha' & Hc' & Hk')%Exists_exists|Hno].
      * left. exists a'. repeat (split; [done |]).
        rewrite <- Hv. symmetry. apply Hkey; [by left | by right | congruence].
      * right. rewrite Hc. split.
        -- subst. apply lookup_insert_eq.
        -- intros a' Ha' Hc' Hk'. apply Hno, Exists_exists. by exists a'.
    + left. by exists a'.
    + right. split.
      * destruct (c a) eqn:Hc; [|done].
        rewrite lookup_insert_ne; [done |].
        apply Hl; [by left | done].
      * intros a' Ha'. apply Hl. by right.
Qed.

Variable Dist : Type.
Variable Dist_OutputDir : Dist → string.
Variable FullArtifactsPaths : ProductBuildSpec Dist → Dist → list string.
Variable Compiles : string → bool.
Variable MatchString : string → string → bool.

Lemma ReadDir_elem fs dir files f :
  ReadDir fs dir = inr files →
  f ∈ files ↔ fs !! (resolve dir ++ [Name f]) = Some (IsDir f).
Proof.
  intros [_ ->]%ReadDir_inr. rewrite merge_sort_Permutation.
  apply entries_spec.
Qed.

Lemma distPaths_lookup fs (spec : ProductBuildSpec Dist) removePaths currDist :
  wf_fs fs = true → (∃ s, ProjectDir Dist spec = String "/" s) →
  let distDir :=
    GoPath.Join [ProjectDir Dist spec; Dist_OutputDir currDist] in
  let found name (isd : bool) p :=
    fs !! (resolve distDir ++ [name]) = Some isd ∧
    distMatch Dist FullArtifactsPaths MatchString spec currDist name = true ∧
    p = render (resolve distDir ++ [name]) in
  ∀ p info,
    distFiles Dist Dist_OutputDir FullArtifactsPaths MatchString
              fs spec removePaths currDist !! p = Some info ↔
    (∃ name isd,
       found name isd p ∧ info = {| rootDir := distDir; isDir := isd |}) ∨
    (removePaths !! p = Some info ∧ ¬ ∃ name isd, found name isd p).
Proof.
  intros Hwf [s Hs]. cbv zeta. intros p info.
  unfold distFiles. rewrite Hs.
  set (distDir := GoPath.Join [String "/" s; Dist_OutputDir currDist]).
  destruct (ReadDir fs distDir) as [e|files] eqn:Hr.
  { assert (¬ ∃ name isd,
              fs !! (resolve distDir ++ [name]) = Some isd ∧
              distMatch Dist FullArtifactsPaths MatchString spec currDist name
              = true ∧
              p = render (resolve distDir ++ [name])) as Hno.
    { intros (name & isd & Hn & _). apply wf_parent in Hn; [|done].
      destruct (ReadDir_unreadable _ _ _ Hwf (Join_abs_clean _ _) Hr).
      exact Hn. }
    split; [by right |]. intros [(name & isd & Hf & _)|[H _]]; [|done].
    destruct Hno. by exists name, isd. }
  assert (∀ f, f ∈ files →
               GoPath.Join [String "/" s; Dist_OutputDir currDist; Name f]
               = render (resolve distDir ++ [Name f])) as Hjoin.
  { intros f Hf%(ReadDir_elem _ _ _ _ Hr).
    pose proof (wf_valid _ _ _ Hwf Hf) as [_ Hn]%valid_snoc.
    by apply Join3_name. }
  rewrite (fold_left_insert
             (fun f => distMatch Dist FullArtifactsPaths MatchString spec
                         currDist (Name f))
             (fun f => GoPath.Join [String "/" s; Dist_OutputDir currDist;
                                    Name f])
             (fun f => {| rootDir := distDir; isDir := IsDir f |})).
  2:{ intros f f' Hf Hf'. rewrite (Hjoin f Hf), (Hjoin f' Hf').
      apply (ReadDir_elem _ _ _ _ Hr) in Hf, Hf'.
      intros E%render_inj; [| by eapply wf_valid..].
      apply app_inj_tail in E as [_ E]. rewrite E in Hf. congruence. }
  assert ((∃ f, f ∈ files ∧
                distMatch Dist FullArtifactsPaths MatchString spec currDist
                          (Name f) = true ∧
                GoPath.Join [String "/" s; Dist_OutputDir currDist; Name f] = p)
          ↔ ∃ name isd,
              fs !! (resolve distDir ++ [name]) = Some isd ∧
              distMatch Dist FullArtifactsPaths MatchString spec currDist name
              = true ∧
              p = render (resolve distDir ++ [name])) as Hsame.
  { split.
    - intros (f & Hf & Hm & <-). exists (Name f), (IsDir f).
      rewrite (Hjoin f Hf). by apply (ReadDir_elem _ _ _ _ Hr) in Hf.
    - intros (name & isd & Hn & Hm & ->).
      assert ({| Name := name; IsDir := isd |} ∈ files) as Hf
          by (by apply (ReadDir_elem _ _ _ _ Hr)).
      eexists. split; [exact Hf |]. split; [done |]. by rewrite (Hjoin _ Hf). }
  split.
  - intros [(f & Hf & Hm & <- & <-)|[Hp Hno]].
    + left. exists (Name f), (IsDir f). rewrite (Hjoin f Hf).
      by apply (ReadDir_elem _ _ _ _ Hr) in Hf.
    + right. split; [done |]. intros (f & Hf & Hm & E)%Hsame.
      by apply (Hno f).
  - intros [(name & isd & (Hn & Hm & ->) & ->)|[Hp Hno]].
    + left. assert ({| Name := name; IsDir := isd |} ∈ files) as Hf
          by (by apply (ReadDir_elem _ _ _ _ Hr)).
      eexists. split; [exact Hf |]. by rewrite (Hjoin _ Hf).
    + right. split; [done |]. intros f Hf Hm E. apply Hno, Hsame. by exists f.
Qed.

(** X6.  One iteration of the loop of [Run] over the distributions, on a
    well-formed file system and for an absolute project directory, when
    the texts of [distDirRegexps] are regular expressions: the
    iteration does not panic, and the entries of the output directory
    of the distribution whose name matches one of [distDirRegexps] are
    put into [removePaths], each with that directory as root directory
    and with [isDir] as the entry is on the disk; every other entry of
    [removePaths] stays as it is, and, when the directory cannot be
    read, all of [removePaths]. *)
Theorem distPaths_plans fs (spec : ProductBuildSpec Dist) removePaths currDist :
  wf_fs fs = true → (∃ s, ProjectDir Dist spec = String "/" s) →
  forallb Compiles (distDirRegexps Dist FullArtifactsPaths spec currDist)
  = true →
  let distDir :=
    GoPath.Join [ProjectDir Dist spec; Dist_OutputDir currDist] in
  let found name (isd : bool) p :=
    fs !! (resolve distDir ++ [name]) = Some isd ∧
    distMatch Dist FullArtifactsPaths MatchString spec currDist name = true ∧
    p = render (resolve distDir ++ [name]) in
  ∃ removePaths',
    distPaths Dist Dist_OutputDir FullArtifactsPaths Compiles MatchString
              fs spec removePaths currDist = Some removePaths' ∧
    ∀ p info,
      removePaths' !! p = Some info ↔
      (∃ name isd,
         found name isd p ∧ info = {| rootDir := distDir; isDir := isd |}) ∨
      (removePaths !! p = Some info ∧ ¬ ∃ name isd, found name isd p).
Proof.
  intros Hwf Habs Hc. cbv zeta. unfold distPaths. rewrite Hc.
  eexists. split; [done |]. by apply distPaths_lookup.
Qed.

End DistFiles.


(* ===================================================================== *)
(** ** The entries of the plan of [Run] *)
(* ===================================================================== *)

Section RunPlan.
Import OS Paths Clean Effects Outputs.
#[local] Arguments GoPath.Join : simpl never.
#[local] Arguments GoPath.Clean : simpl never.
#[local] Arguments render : simpl never.

Variable Dist : Type.
Variable Dist_OutputDir : Dist → string.
Variable FullArtifactsPaths : ProductBuildSpec Dist → Dist → list string.
Variable Compiles : string → bool.
Variable MatchString : string → string → bool.
Variable b : ProductBuildSpecWithDeps Dist.
Variable fs : FS.

Lemma binPaths_entries removePaths :
  binPaths Dist fs b = inr removePaths →
  (∀ p info, removePaths !! p = Some info → binEntry Dist fs b p info) ∧
  (∀ outputDir products removed p,
     outputDirToMap Dist b !! outputDir = Some products →
     cleanBinOutput fs outputDir products = inr removed →
     p ∈ removed → is_Some (removePaths !! p)).
Proof.
  unfold binPaths.
  set (body := fun (removePaths : gmap string pathInfo)
                   '((outputDir, products)
                     : string * gmap string (list OSArch)) => _).
  assert (∀ l rp rp',
            (∀ od, od ∈ l → outputDirToMap Dist b !! od.1 = Some od.2) →
            foldE body l rp = inr rp' →
            (∀ p info, rp' !! p = Some info →
                       rp !! p = Some info ∨ binEntry Dist fs b p info) ∧
            (∀ p, is_Some (rp !! p) → is_Some (rp' !! p)) ∧
            (∀ od removed p,
               od ∈ l → cleanBinOutput fs od.1 od.2 = inr removed →
               p ∈ removed → is_Some (rp' !! p))) as Hl.
  { induction l as [|[od ps] l IH]; intros rp rp' Hin; simpl.
    { intros [= <-]. split; [auto |]. split; [auto |].
      intros od removed p Hod. by apply elem_of_nil in Hod. }
    destruct (cleanBinOutput fs od ps) as [e|removed] eqn:Hc; [done |].
    set (rp1 := fold_left _ (elements removed) rp).
    assert ((∀ p info, rp1 !! p = Some info →
                       rp !! p = Some info ∨
                       (p ∈ removed ∧
                        info = {| rootDir := od; isDir := false |})) ∧
            (∀ p, is_Some (rp !! p) → is_Some (rp1 !! p)) ∧
            (∀ p, p ∈ removed → is_Some (rp1 !! p))) as (H1 & H2 & H3).
    { unfold rp1. clear rp1.
      assert (∀ (ks : list string) (m : gmap string pathInfo),
                let m' :=
                  fold_left
                    (fun removePaths k =>
                       <[k := {| rootDir := od; isDir := false |}]> removePaths)
                    ks m in
                (∀ p info, m' !! p = Some info →
                           m !! p = Some info ∨
                           (p ∈ ks ∧
                            info = {| rootDir := od; isDir := false |})) ∧
                (∀ p, is_Some (m !! p) → is_Some (m' !! p)) ∧
                (∀ p, p ∈ ks → is_Some (m' !! p))) as Hks.
      { induction ks as [|k ks IHk]; intros m; simpl.
        { split; [auto |]. split; [auto |]. intros p Hp.
          by apply elem_of_nil in Hp. }
        destruct (IHk (<[k := {| rootDir := od; isDir := false |}]> m))
          as (I1 & I2 & I3).
        split; [|split].
        - intros p info [[[<- <-]|[_ Hm]]%lookup_insert_Some|[Hp ->]]%I1.
          + right. split; [by left | done].
          + by left.
          + right. split; [by right | done].
        - intros p Hp. apply I2.
          destruct (decide (k = p)) as [->|Hne].
          + rewrite lookup_insert_eq. by eexists.
          + by rewrite lookup_insert_ne.
        - intros p [->|Hp]%elem_of_cons; [|by apply I3].
          apply I2. rewrite lookup_insert_eq. by eexists. }
      destruct (Hks (elements removed) rp) as (I1 & I2 & I3).
      split; [|split; [done |]].
      - intros p info [H|[Hp%elem_of_elements ->]]%I1; auto.
      - intros p Hp. apply I3. by apply elem_of_elements. }
    intros Hf.
    destruct (IH rp1 rp') as (J1 & J2 & J3); [|done |].
    { intros od' Hod'. apply Hin. by right. }
    pose proof (Hin (od, ps) (list_elem_of_here _ _)) as Hhere. simpl in Hhere.
    split; [|split].
    - intros p info [[H|[Hp ->]]%H1|H]%J1; [by left | right | by right].
      by exists od, ps, removed.
    - intros p Hp. by apply J2, H2.
    - intros od' removed' p [->|Hod']%elem_of_cons Hc' Hp.
      + simpl in Hc'. rewrite Hc in Hc'. injection Hc' as <-. by apply J2, H3.
      + by eapply J3. }
  intros Hb.
  destruct (Hl _ _ _ (fun od H => proj1 (elem_of_map_to_list _ od.1 od.2)
                                    ltac:(by destruct od)) Hb)
    as (H1 & _ & H3).
  split.
  - intros p info [H|H]%H1; [by rewrite lookup_empty in H | done].
  - intros od ps removed p Hod Hc Hp.
    apply (H3 (od, ps) removed p); [by apply elem_of_map_to_list | done..].
Qed.

Lemma distPaths_mono (spec : ProductBuildSpec Dist) removePaths currDist p :
  is_Some (removePaths !! p) →
  is_Some (distFiles Dist Dist_OutputDir FullArtifactsPaths MatchString
                     fs spec removePaths currDist !! p).
Proof.
  intros Hp. unfold distFiles. destruct (ReadDir fs _); [done |].
  apply (fold_left_inv (fun m : gmap string pathInfo => is_Some (m !! p)));
    [done |].
  intros m f _ Hm. destruct (existsb _ _); [|done].
  destruct (decide (GoPath.Join [ProjectDir Dist spec; Dist_OutputDir currDist;
                                 Name f] = p)) as [->|Hne].
  - rewrite lookup_insert_eq. by eexists.
  - by rewrite lookup_insert_ne.
Qed.

Lemma Run_plan dryRun st :
  compiles Dist FullArtifactsPaths Compiles b = true →
  Run Dist Dist_OutputDir FullArtifactsPaths Compiles MatchString b dryRun st =
  match planFiles Dist Dist_OutputDir FullArtifactsPaths MatchString
          (disk st) b with
  | inl e => (st, Err e)
  | inr removePaths =>
      Execute (ProductName Dist (Spec Dist b)) removePaths dryRun st
  end.
Proof. intros Hc. by rewrite Run_planFiles, Hc. Qed.

(** When a text of a distribution is no regular expression, and the
    directories of the binaries can be read, [Run] panics before it has
    removed or written anything. *)
Lemma Run_panics dryRun st :
  compiles Dist FullArtifactsPaths Compiles b = false →
  Run Dist Dist_OutputDir FullArtifactsPaths Compiles MatchString b dryRun st =
  match binPaths Dist (disk st) b with
  | inl e => (st, Err e)
  | inr _ => (st, Panic)
  end.
Proof. intros Hc. by rewrite Run_eq, Hc. Qed.

(** The plan that [Run] has made is the one of [planFiles], and the
    texts of the distributions are regular expressions. *)
Lemma plan_Ok removePaths :
  plan Dist Dist_OutputDir FullArtifactsPaths Compiles MatchString fs b
  = Ok removePaths →
  planFiles Dist Dist_OutputDir FullArtifactsPaths MatchString fs b
  = inr removePaths ∧
  compiles Dist FullArtifactsPaths Compiles b = true.
Proof.
  rewrite plan_eq. destruct (planFiles _ _ _ _ _ _); [done |].
  destruct (compiles _ _ _ _); [|done]. by intros [= ->].
Qed.

Lemma outputDirToMap_dirs outputDir products :
  outputDirToMap Dist b !! outputDir = Some products →
  outputDir ∈ outputDirs Dist Dist_OutputDir b.
Proof.
  intros H. unfold outputDirs. apply elem_of_app. left.
  revert outputDir products H. unfold outputDirToMap.
  set (dirOf := fun s : ProductBuildSpec Dist =>
         GoPath.Join [ProjectDir Dist (Spec Dist b);
                      Build_OutputDir (Build Dist s)]).
  assert (∀ l : list (string * ProductBuildSpec Dist),
            l ⊆ map_to_list (Deps Dist b) →
            ∀ m : gmap string (gmap string (list OSArch)),
              (∀ k v, m !! k = Some v →
                      k ∈ dirOf <$> Spec Dist b :: (map_to_list (Deps Dist b)).*2) →
              ∀ k v,
                fold_left
                  (fun m '(_, currDepSpec) =>
                     let dir := dirOf currDepSpec in
                     <[dir := <[ProductName Dist currDepSpec
                                  := OSArchs (Build Dist currDepSpec)]>
                                (default ∅ (m !! dir))]> m)
                  l m !! k = Some v →
                k ∈ dirOf <$> Spec Dist b :: (map_to_list (Deps Dist b)).*2)
    as Hl.
  { induction l as [|[n d] l IH]; intros Hsub m Hm; [done |].
    simpl. apply IH.
    - intros x Hx. apply Hsub. by right.
    - intros k v [[<- _]|[_ Hk]]%lookup_insert_Some; [|by eapply Hm].
      apply list_elem_of_fmap. exists d. split; [done |]. right.
      apply list_elem_of_fmap. exists (n, d). split; [done |].
      apply Hsub. by left. }
  apply Hl; [done |].
  intros k v [<- _]%lookup_singleton_Some.
  apply list_elem_of_fmap. exists (Spec Dist b). split; [done | by left].
Qed.

Hypothesis wf : wf_fs fs = true.
Hypothesis absolute : ∃ s, ProjectDir Dist (Spec Dist b) = String "/" s.

Lemma foldE_returns {A S} (body : S → A → error + S) l s :
  (∀ s a, a ∈ l → ∃ s', body s a = inr s') → ∃ s', foldE body l s = inr s'.
Proof.
  revert s. induction l as [|a l IH]; intros s Hbody; simpl; [by eexists |].
  destruct (Hbody s a (list_elem_of_here _ _)) as [s1 ->].
  apply IH. intros s' a' Ha'. apply Hbody. by right.
Qed.

(** On a well-formed file system every directory can be read:
    [cleanBinOutput] returns no error, and [Run] makes a plan. *)
Lemma plan_made :
  ∃ removePaths,
    planFiles Dist Dist_OutputDir FullArtifactsPaths MatchString fs b
    = inr removePaths.
Proof.
  unfold planFiles.
  assert (∃ rp, binPaths Dist fs b = inr rp) as [rp ->]; [|by eexists].
  unfold binPaths. apply foldE_returns.
  intros rp [outputDir products] Hin%elem_of_map_to_list.
  pose proof (outputDirToMap_keys Dist b absolute _ _ Hin) as Hd.
  destruct (cleanBinOutput_spec fs outputDir products wf Hd) as (r & -> & _).
  by eexists.
Qed.

(** The entries of the plan: entries for binaries and entries for the
    files of the distributions, and all of them. *)
Lemma plan_entries removePaths :
  planFiles Dist Dist_OutputDir FullArtifactsPaths MatchString fs b
  = inr removePaths →
  (∀ p info,
     removePaths !! p = Some info →
     binEntry Dist fs b p info ∨
     distEntry Dist Dist_OutputDir FullArtifactsPaths MatchString fs b p info) ∧
  (∀ p info,
     binEntry Dist fs b p info ∨
     distEntry Dist Dist_OutputDir FullArtifactsPaths MatchString fs b p info →
     is_Some (removePaths !! p)).
Proof.
  unfold planFiles.
  destruct (binPaths Dist fs b) as [e|rp0] eqn:Hb; [done |].
  intros [= <-].
  destruct (binPaths_entries _ Hb) as [B1 B2].
  set (spec := withVersion Dist (Spec Dist b) ".+").
  assert (∃ s, ProjectDir Dist spec = String "/" s) as Habs by done.
  assert (∀ l rp,
            (∀ d, d ∈ l → d ∈ Dists Dist (Spec Dist b)) →
            let rp' :=
              fold_left
                (distFiles Dist Dist_OutputDir FullArtifactsPaths MatchString
                           fs spec) l rp in
            (∀ p info,
               rp' !! p = Some info →
               rp !! p = Some info ∨
               distEntry Dist Dist_OutputDir FullArtifactsPaths MatchString
                         fs b p info) ∧
            (∀ p, is_Some (rp !! p) → is_Some (rp' !! p)) ∧
            (∀ d name isd,
               d ∈ l →
               fs !! (resolve (GoPath.Join [ProjectDir Dist (Spec Dist b);
                                            Dist_OutputDir d]) ++ [name])
               = Some isd →
               distMatch Dist FullArtifactsPaths MatchString spec d name
               = true →
               is_Some
                 (rp' !! render
                           (resolve (GoPath.Join [ProjectDir Dist (Spec Dist b);
                                                  Dist_OutputDir d])
                              ++ [name])))) as Hl.
  { induction l as [|d l IH]; intros rp Hin; cbv zeta.
    { simpl. split; [auto |]. split; [auto |].
      intros d name isd Hd. by apply elem_of_nil in Hd. }
    simpl.
    pose proof (distPaths_lookup Dist Dist_OutputDir FullArtifactsPaths
                  MatchString fs spec rp d wf Habs) as Hd.
    cbv zeta in Hd.
    change (ProjectDir Dist spec) with (ProjectDir Dist (Spec Dist b)) in Hd.
    set (rp1 := distFiles _ _ _ _ fs spec rp d) in *.
    destruct (IH rp1) as (I1 & I2 & I3).
    { intros d' Hd'. apply Hin. by right. }
    assert (∀ p, is_Some (rp !! p) → is_Some (rp1 !! p)) as Hmono
        by (intros p; apply distPaths_mono).
    split; [|split].
    - intros p info [[(name & isd & (Hn & Hm & ->) & ->)|[Hp _]]%Hd|H]%I1;
        [right | by left | by right].
      exists d, name, isd. split; [apply Hin; by left | done].
    - intros p Hp. by apply I2, Hmono.
    - intros d' name isd [->|Hd']%elem_of_cons Hn Hm; [|by eapply I3].
      apply I2. eexists. apply Hd. left. by exists name, isd. }
  destruct (Hl (Dists Dist (Spec Dist b)) rp0) as (H1 & H2 & H3); [done |].
  split.
  - intros p info [H|H]%H1; [left; by apply B1 | by right].
  - intros p info [(od & ps & removed & Hod & Hc & Hp & _)|
                   (d & name & isd & Hd & Hn & Hm & -> & _)].
    + apply H2. by eapply B2.
    + by eapply H3.
Qed.

Lemma distEntry_unique p info info' :
  distEntry Dist Dist_OutputDir FullArtifactsPaths MatchString fs b p info →
  distEntry Dist Dist_OutputDir FullArtifactsPaths MatchString fs b p info' →
  info = info'.
Proof.
  intros (d & n & isd & _ & Hn & _ & -> & ->)
         (d' & n' & isd' & _ & Hn' & _ & E & ->).
  cbv zeta in *. destruct absolute as [s Hs]. rewrite Hs in *.
  apply render_inj in E; [|by eapply wf_valid..].
  apply app_inj_tail in E as [Ed ->].
  rewrite Ed in Hn. assert (isd = isd') as -> by congruence.
  f_equal.
  rewrite (abs_clean_render _ (Join_abs_clean s [Dist_OutputDir d])).
  rewrite (abs_clean_render _ (Join_abs_clean s [Dist_OutputDir d'])).
  by rewrite Ed.
Qed.

(** The entry for a file of a distribution is in the plan as it is: it
    takes the place of an entry for a binary with the same path. *)
Lemma plan_dist_entry removePaths p info :
  planFiles Dist Dist_OutputDir FullArtifactsPaths MatchString fs b
  = inr removePaths →
  distEntry Dist Dist_OutputDir FullArtifactsPaths MatchString fs b p info →
  removePaths !! p = Some info.
Proof.
  intros Hp Hd.
  destruct (plan_entries _ Hp) as [H1 H2].
  destruct (H2 p info (or_intror Hd)) as [info' Hinfo'].
  rewrite Hinfo'. f_equal.
  destruct (H1 _ _ Hinfo') as [Hbin|Hdist]; [|by eapply distEntry_unique].
  (* the entry in the plan is one for a binary: then no distribution
     has written the path, which it has *)
  exfalso. revert Hinfo' Hbin. revert Hp. unfold planFiles.
  destruct (binPaths Dist fs b) as [e|rp0]; [done |]. intros [= <-].
  destruct Hd as (d & n & isd & Hin & Hn & Hm & -> & ->). cbv zeta in *.
  set (spec := withVersion Dist (Spec Dist b) ".+") in *.
  set (p := render _).
  assert (∀ l rp,
            (∃ info0, rp !! p = Some info0 ∧ isDir info0 = isd ∧
                      rootDir info0
                      = GoPath.Join [ProjectDir Dist (Spec Dist b);
                                     Dist_OutputDir d]) →
            ∃ info0,
              fold_left
                (distFiles Dist Dist_OutputDir FullArtifactsPaths MatchString
                           fs spec) l rp !! p = Some info0 ∧
              isDir info0 = isd ∧
              rootDir info0
              = GoPath.Join [ProjectDir Dist (Spec Dist b); Dist_OutputDir d])
    as Hkeep.
  { induction l as [|d' l IH]; intros rp Hrp; [done |]. simpl. apply IH.
    destruct Hrp as (info0 & Hrp & Hi & Hr).
    destruct (distPaths_mono spec rp d' p) as [info1 Hinfo1]; [by eexists |].
    exists info1. split; [done |].
    apply (distPaths_lookup Dist Dist_OutputDir FullArtifactsPaths MatchString
             fs spec rp d' wf absolute) in Hinfo1
      as [(n' & isd' & (Hn' & Hm' & E) & ->)|[Hsame _]].
    - change (ProjectDir Dist spec) with (ProjectDir Dist (Spec Dist b)) in *.
      simpl. unfold p in E.
      apply render_inj in E; [|by eapply wf_valid..].
      apply app_inj_tail in E as [Ed ->].
      rewrite Ed in Hn. split; [congruence |].
      destruct absolute as [s Hs]. rewrite Hs.
      rewrite (abs_clean_render _ (Join_abs_clean s [Dist_OutputDir d])).
      rewrite (abs_clean_render _ (Join_abs_clean s [Dist_OutputDir d'])).
      rewrite Hs in Ed. by rewrite Ed.
    - rewrite Hrp in Hsame. by injection Hsame as <-. }
  assert (∀ l rp,
            d ∈ l →
            ∃ info0,
              fold_left
                (distFiles Dist Dist_OutputDir FullArtifactsPaths MatchString
                           fs spec) l rp !! p = Some info0 ∧
              isDir info0 = isd ∧
              rootDir info0
              = GoPath.Join [ProjectDir Dist (Spec Dist b); Dist_OutputDir d])
    as Hput.
  { induction l as [|d' l IH]; intros rp Hl; [by apply elem_of_nil in Hl |].
    simpl. apply elem_of_cons in Hl as [<-|Hl]; [|by apply IH].
    apply Hkeep.
    exists {| rootDir := GoPath.Join [ProjectDir Dist (Spec Dist b);
                                      Dist_OutputDir d];
              isDir := isd |}.
    split; [|done].
    apply (distPaths_lookup Dist Dist_OutputDir FullArtifactsPaths MatchString
             fs spec rp d wf absolute).
    left. by exists n, isd. }
  destruct (Hput (Dists Dist (Spec Dist b)) rp0 Hin) as (info0 & H0 & Hi & Hr).
  intros Hinfo' (od & ps & removed & Hod & Hc & Hk & ->).
  rewrite H0 in Hinfo'. injection Hinfo' as ->. simpl in Hi, Hr. subst isd od.
  (* a path of [cleanBinOutput] for the directory of the distribution
     lies three levels below it, the file of the distribution one *)
  pose proof (outputDirToMap_keys Dist b absolute _ _ Hod) as Hd.
  destruct (cleanBinOutput_spec fs _ ps wf Hd) as (removed' & Hc' & Hk').
  rewrite Hc in Hc'. injection Hc' as <-.
  apply Hk' in Hk as (tag & o & prod & E & _ & _ & [dd Hprod] & _).
  unfold p in E. apply render_inj in E; [|by eapply wf_valid..].
  apply (f_equal length) in E. rewrite !length_app in E. simpl in E. lia.
Qed.

Lemma plan_good removePaths :
  planFiles Dist Dist_OutputDir FullArtifactsPaths MatchString fs b
  = inr removePaths →
  plan_ok removePaths = true ∧ all_present fs removePaths = true.
Proof.
  unfold planFiles. destruct (binPaths Dist fs b) as [e|rp0] eqn:Hb; [done |].
  intros [= <-].
  apply (Run_plan_good Dist Dist_OutputDir FullArtifactsPaths MatchString
           b fs wf absolute rp0 Hb).
Qed.

Lemma plan_in_output removePaths k :
  planFiles Dist Dist_OutputDir FullArtifactsPaths MatchString fs b
  = inr removePaths →
  in_some_root removePaths k → in_output Dist Dist_OutputDir b k.
Proof.
  intros Hp (p & info & Hinfo & Hk).
  destruct (plan_entries _ Hp) as [H1 _].
  destruct (H1 _ _ Hinfo)
    as [(od & ps & removed & Hod & _ & _ & ->)|
        (d & name & isd & Hd & _ & _ & _ & ->)].
  - exists od. split; [by eapply outputDirToMap_dirs | done].
  - eexists. split; [|exact Hk].
    unfold outputDirs. apply elem_of_app. right.
    apply list_elem_of_fmap. by exists d.
Qed.

(** C3.  [Run] respects the root directories of its plan.  For an
    absolute project directory and a well-formed file system let
    [removePaths] be the plan that [Run] makes.  In both modes the step
    of [Run] for an entry, in whatever state it is taken, removes and
    reports only paths at or below the root directory of that entry and
    leaves every file that is not at or below it as it is: the walk up
    may remove the root directory itself, and nothing strictly above
    it.  Every path that the whole run removes (real run) or reports
    (dry run) lies at or below the root directory of some entry, and
    the files that do not are left as they are.  When [Run] makes no
    plan (it panics on a text that is no regular expression), it has
    removed and reported nothing. *)
Theorem Run_boundary_respected (dryRun : bool) :
  let r :=
    Run Dist Dist_OutputDir FullArtifactsPaths Compiles MatchString b dryRun
        (start fs) in
  match plan Dist Dist_OutputDir FullArtifactsPaths Compiles MatchString
          fs b with
  | Ok removePaths =>
      (∀ p info st,
         removePaths !! p = Some info →
         within (resolve (rootDir info)) st (cleanPath dryRun p info st).1) ∧
      Forall (fun x => in_some_root removePaths (resolve x)) (unlinked r.1) ∧
      (∃ ys,
         stdout r.1
         = (if dryRun then [header_line (ProductName Dist (Spec Dist b))]
            else []) ++ (path_line <$> ys) ∧
         Forall (fun y => in_some_root removePaths (resolve y)) ys) ∧
      (∀ k, ¬ in_some_root removePaths k → disk r.1 !! k = fs !! k)
  | _ => r.1 = start fs
  end.
Proof.
  cbv zeta.
  destruct (plan Dist Dist_OutputDir FullArtifactsPaths Compiles MatchString
              fs b) as [removePaths|e| |] eqn:Hplan.
  - destruct (plan_Ok _ Hplan) as [Hp Hcomp].
    rewrite Run_plan by done. simpl disk. rewrite Hp.
    destruct (plan_good _ Hp) as [Hok _].
    by apply Execute_within_roots.
  - unfold Run, mbind, M_bind, get. simpl. by rewrite Hplan.
  - unfold Run, mbind, M_bind, get. simpl. by rewrite Hplan.
  - unfold Run, mbind, M_bind, get. simpl. by rewrite Hplan.
Qed.

(** X8.  [Run] stays in the output directories: for an absolute project
    directory and a well-formed file system, every path that [Run]
    removes (real run) or reports (dry run) is one of the build output
    directories of the product and of its dependencies or of the output
    directories of its distributions, or lies below one, and every file
    that is not is left as it is.  This holds however the run ends. *)
Theorem Run_stays_in_output (dryRun : bool) :
  let r :=
    Run Dist Dist_OutputDir FullArtifactsPaths Compiles MatchString b dryRun
        (start fs) in
  Forall (fun x => in_output Dist Dist_OutputDir b (resolve x)) (unlinked r.1) ∧
  Forall
    (fun line =>
       line = header_line (ProductName Dist (Spec Dist b)) ∨
       ∃ y, line = path_line y ∧ in_output Dist Dist_OutputDir b (resolve y))
    (stdout r.1) ∧
  (∀ k, ¬ in_output Dist Dist_OutputDir b k → disk r.1 !! k = fs !! k).
Proof.
  cbv zeta.
  destruct (compiles Dist FullArtifactsPaths Compiles b) eqn:Hcomp; cycle 1.
  { (* a panic, or an error of the binaries: nothing has been done *)
    rewrite Run_panics by done. simpl disk.
    by destruct (binPaths Dist fs b). }
  rewrite Run_plan by done. simpl disk.
  destruct plan_made as [rp Hp]. rewrite Hp.
  destruct (plan_good _ Hp) as [Hok _].
  assert (∀ st,
            within_roots rp st
              (forPaths
                 (fun currPath =>
                    cleanPath dryRun currPath (default noInfo (rp !! currPath)))
                 (GoStrings.Sort (map_to_list rp).*1) st).1) as Hw.
  { intros st. apply forPaths_within_roots; [done |].
    intros p. apply sortedPaths_elem. }
  assert (∀ xs, Forall (fun x => in_some_root rp (resolve x)) xs →
                Forall (fun x => in_output Dist Dist_OutputDir b (resolve x)) xs)
    as Hconv.
  { intros xs H. eapply Forall_impl; [exact H |].
    intros x. by apply plan_in_output. }
  assert (∀ ys, Forall (fun x => in_some_root rp (resolve x)) ys →
                Forall
                  (fun line =>
                     line = header_line (ProductName Dist (Spec Dist b)) ∨
                     ∃ y, line = path_line y ∧
                          in_output Dist Dist_OutputDir b (resolve y))
                  (path_line <$> ys)) as Hlines.
  { intros ys H%Hconv. apply Forall_fmap.
    eapply Forall_impl; [exact H |]. intros y Hy. right. by exists y. }
  destruct dryRun.
  - rewrite Execute_dry_start.
    destruct (Hw (mkState fs ∅ [header_line (ProductName Dist (Spec Dist b))] []))
      as ((xs & -> & Hxs) & (ys & -> & Hys) & Hk).
    split; [by apply Hconv |]. split.
    + apply Forall_app. split; [|by apply Hlines].
      apply Forall_singleton. by left.
    + intros k Hno. apply Hk. intros Hin. by eapply Hno, plan_in_output.
  - rewrite Execute_real_start.
    destruct (Hw (start fs)) as ((xs & -> & Hxs) & (ys & -> & Hys) & Hk).
    split; [by apply Hconv |]. split; [by apply Hlines |].
    intros k Hno. apply Hk. intros Hin. by eapply Hno, plan_in_output.
Qed.

(** X7.  The plan of [Run], for an absolute project directory and a
    well-formed file system.  Every entry is an entry for a binary (a
    path that [cleanBinOutput] returns for a build output directory of
    [outputDirToMap], with that directory as root directory and [isDir]
    false) or an entry for a file of a distribution (an entry of the
    output directory of a distribution whose name matches, with that
    directory as root directory and [isDir] as on the disk).  Every
    entry for a file of a distribution is in the plan, and the path of
    every entry for a binary is. *)
Theorem Run_plans removePaths :
  plan Dist Dist_OutputDir FullArtifactsPaths Compiles MatchString fs b
  = Ok removePaths →
  (∀ p info,
     removePaths !! p = Some info →
     binEntry Dist fs b p info ∨
     distEntry Dist Dist_OutputDir FullArtifactsPaths MatchString fs b p info) ∧
  (∀ p info,
     distEntry Dist Dist_OutputDir FullArtifactsPaths MatchString fs b p info →
     removePaths !! p = Some info) ∧
  (∀ p info, binEntry Dist fs b p info → is_Some (removePaths !! p)).
Proof.
  intros [Hp _]%plan_Ok. destruct (plan_entries _ Hp) as [H1 H2].
  split; [done |]. split.
  - intros p info. by apply plan_dist_entry.
  - intros p info Hb. apply (H2 p info). by left.
Qed.

End RunPlan.


(* ===================================================================== *)
(** ** How [Run] can fail *)
(* ===================================================================== *)

(** On the file system of this model a call fails for structural reasons
    only.  For the plan that [Run] makes this leaves one failure: a
    directory that is not empty where a binary is expected. *)
Section Failures.
Import OS Paths Clean Effects Outputs.
#[local] Arguments GoPath.Join : simpl never.
#[local] Arguments GoPath.Dir : simpl never.
#[local] Arguments GoPath.Clean : simpl never.
#[local] Arguments render : simpl never.

Variable fs0 : FS.
Hypothesis wf0 : wf_fs fs0 = true.

Lemma under_file_part (fs : FS) l k d :
  fs ⊆ fs0 → fs0 !! (l ++ k) = Some d → under_file fs l = false.
Proof.
  intros Hsub Hl. unfold under_file.
  destruct (existsb _ _) eqn:E; [|done].
  apply existsb_exists in E as (i & Hi%in_seq & Hf%bool_decide_eq_true).
  apply (lookup_weaken _ _ _ _ Hf) in Hsub.
  rewrite <- (take_drop i l), <- app_assoc in Hl.
  apply (wf_above _ _ _ _ wf0) in Hl; [congruence |].
  intros Hd. apply (f_equal length) in Hd.
  rewrite length_app, length_drop in Hd. simpl in Hd. lia.
Qed.

Lemma rm_part (fs : FS) l : fs ⊆ fs0 → rm l fs ⊆ fs0.
Proof. intros H. etrans; [apply map_filter_subseteq | done]. Qed.

(** [removeDirIfEmpty] on a directory above a file of [fs0], in a state
    whose disk is a part of [fs0]: no error. *)
Lemma check_sound (dryRun : bool) l k d st :
  Forall (λ n, valid_name n = true) l →
  wf_fs (disk st) = true → disk st ⊆ fs0 →
  fs0 !! (l ++ k) = Some d → k ≠ [] →
  ∃ st' r,
    removeDirIfEmpty (render l) dryRun st = (st', Ok r) ∧
    wf_fs (disk st') = true ∧ disk st' ⊆ fs0.
Proof.
  intros Hv Hwf Hsub Hl Hk.
  rewrite removeDirIfEmpty_render by done.
  destruct (disk st !! l) as [[|]|] eqn:E.
  - destruct (vacant _ _ _ _); [|by exists st, false].
    eexists _, true. split; [done |]. simpl.
    destruct dryRun; [done |]. split; [by apply wf_rm | by apply rm_part].
  - apply (lookup_weaken _ _ _ _ E) in Hsub.
    apply (wf_above _ _ _ _ wf0) in Hl; [congruence | done].
  - rewrite (under_file_part _ _ _ _ Hsub Hl). by exists st, false.
Qed.

Lemma cascade_sound k lr rest n (dryRun : bool) st :
  Forall (λ n, valid_name n = true) (lr ++ rest ++ [n]) →
  wf_fs (disk st) = true → disk st ⊆ fs0 →
  is_Some (fs0 !! (lr ++ rest ++ [n])) → length rest < k →
  ∃ st',
    cascade k (render lr) dryRun (render (lr ++ rest ++ [n])) st = (st', Ok ()) ∧
    wf_fs (disk st') = true ∧ disk st' ⊆ fs0.
Proof.
  revert rest n st. induction k as [|k IH]; intros rest n st Hv Hwf Hsub Hp Hk;
    [lia |].
  rewrite cascade_render by done.
  destruct (decide (rest = [])) as [->|Hne]; [by exists st |].
  destruct (IsNotExist _); [by exists st |].
  assert (Forall (λ n, valid_name n = true) (lr ++ rest)) as Hv'.
  { rewrite app_assoc in Hv. by apply valid_snoc in Hv as [? _]. }
  destruct Hp as [d Hp]. rewrite app_assoc in Hp.
  destruct (check_sound dryRun (lr ++ rest) [n] d st Hv' Hwf Hsub Hp)
    as (st1 & r & -> & Hwf1 & Hsub1); [done |].
  destruct r; [|by exists st1].
  destruct (exists_last Hne) as (rest' & m & ->).
  apply IH.
  - done.
  - by destruct dryRun.
  - by destruct dryRun.
  - exists true. eapply wf_above; [done | exact Hp | done].
  - rewrite length_app in Hk. simpl in Hk. lia.
Qed.

Lemma removeTarget_eq (dryRun : bool) p info st :
  removeTarget dryRun p info st =
  if dryRun
  then (mkState (disk st) (removedPaths st) (stdout st ++ [path_line p])
                (unlinked st), Ok ())
  else
    match Stat (disk st) p with
    | inl _ => (st, Ok ())
    | inr _ =>
        match (if isDir info then RemoveAll else Remove) (disk st) p with
        | inr fs' =>
            (mkState fs' (removedPaths st) (stdout st) (unlinked st ++ [p]),
             Ok ())
        | inl e =>
            (st, Err ((if isDir info then ErrRemoveDirectory
                       else ErrRemoveFile) p e))
        end
    end.
Proof.
  unfold removeTarget, mbind, M_bind, get, Fprintf, remove_call.
  destruct dryRun; [done |].
  destruct (Stat (disk st) p); [done |]. by destruct (isDir info).
Qed.

Lemma removeTarget_sound (dryRun : bool) lp info st :
  Forall (λ n, valid_name n = true) lp →
  wf_fs (disk st) = true → disk st ⊆ fs0 →
  (∃ st1,
     removeTarget dryRun (render lp) info st = (st1, Ok ()) ∧
     wf_fs (disk st1) = true ∧ disk st1 ⊆ fs0) ∨
  (dryRun = false ∧ isDir info = false ∧
   disk st !! lp = Some true ∧
   (∃ m, is_Some (disk st !! (lp ++ [m]))) ∧
   removeTarget dryRun (render lp) info st
   = (st, Err (ErrRemoveFile (render lp) ENOTEMPTY))).
Proof.
  intros Hv Hwf Hsub. rewrite removeTarget_eq.
  destruct dryRun; [left; by eexists |].
  rewrite Stat_render by done.
  destruct (disk st !! lp) as [d|] eqn:E; [|left; by eexists].
  destruct (isDir info) eqn:Hisd.
  - left. rewrite (RemoveAll_present _ _ d) by done.
    eexists. split; [done |]. simpl.
    split; [by apply wf_rm | by apply rm_part].
  - rewrite Remove_render, E by done. destruct d.
    + destruct (entries (disk st) lp) as [|f fs'] eqn:He.
      * left. eexists. split; [done |]. simpl.
        rewrite delete_rm by (done || by apply entries_nil).
        split; [by apply wf_rm | by apply rm_part].
      * right. do 3 (split; [done |]). split; [|done].
        exists (Name f), (IsDir f). apply entries_spec. rewrite He. by left.
    + left. eexists. split; [done |]. simpl.
      rewrite delete_rm
        by (done || intros m; by eapply file_no_entries).
      split; [by apply wf_rm | by apply rm_part].
Qed.

(** The step of [Run] for an entry as [Run] makes it, whose path is a
    file of [fs0]: it returns no error, or it is a real run, the entry
    says that the path is a file, and the path is a directory that is
    not empty. *)
Lemma cleanPath_sound (dryRun : bool) p info st :
  entry_ok p info = true → is_Some (fs0 !! resolve p) →
  wf_fs (disk st) = true → disk st ⊆ fs0 →
  let r := cleanPath dryRun p info st in
  wf_fs (disk r.1) = true ∧ disk r.1 ⊆ fs0 ∧
  (r.2 = Ok () ∨
   (dryRun = false ∧ isDir info = false ∧
    r.2 = Err (ErrRemoveFile p ENOTEMPTY) ∧
    disk r.1 !! resolve p = Some true ∧
    ∃ n, is_Some (disk r.1 !! (resolve p ++ [n])))).
Proof.
  intros (lr & rest & n & -> & Hr & Hv)%entry_ok_inv Hp Hwf Hsub.
  rewrite resolve_render in Hp |- * by done.
  cbv zeta. rewrite cleanPath_eq.
  destruct (removeTarget_sound dryRun (lr ++ rest ++ [n]) info st Hv Hwf Hsub)
    as [(st1 & -> & Hwf1 & Hsub1)|(-> & Hisd & Hd & Hm & ->)].
  2:{ simpl. split; [done |]. split; [done |]. by right. }
  cbv zeta. rewrite Hr, (Contains_render lr (rest ++ [n])).
  simpl negb. cbv iota.
  set (st2 := mkState _ _ _ _).
  destruct (cascade_sound (iterations (render (lr ++ rest ++ [n]))) lr rest n
              dryRun st2 Hv Hwf1 Hsub1 Hp (iterations_enough lr rest n))
    as (st3 & -> & Hwf3 & Hsub3).
  destruct Hp as [d Hp].
  assert (Forall (λ n, valid_name n = true) lr) as Hvr.
  { by apply Forall_app in Hv as [? _]. }
  destruct (check_sound dryRun lr (rest ++ [n]) d st3 Hvr Hwf3 Hsub3 Hp)
    as (st4 & r & -> & Hwf4 & Hsub4); [by destruct rest |].
  destruct (r && dryRun); simpl; auto.
Qed.

(** The loop of [Run] over [sortedPaths], for a plan whose entries are
    as [Run] makes them and whose paths are files of [fs0]. *)
Lemma forPaths_sound (dryRun : bool) removePaths paths st :
  plan_ok removePaths = true → all_present fs0 removePaths = true →
  (∀ p, p ∈ paths → is_Some (removePaths !! p)) →
  wf_fs (disk st) = true → disk st ⊆ fs0 →
  let r :=
    forPaths
      (fun currPath =>
         cleanPath dryRun currPath (default noInfo (removePaths !! currPath)))
      paths st in
  r.2 = Ok () ∨
  (dryRun = false ∧
   ∃ p info,
     removePaths !! p = Some info ∧ isDir info = false ∧
     r.2 = Err (ErrRemoveFile p ENOTEMPTY) ∧
     fs0 !! resolve p = Some true ∧
     ∃ n, is_Some (disk r.1 !! (resolve p ++ [n]))).
Proof.
  intros Hok Hall. revert st.
  induction paths as [|p paths IH]; intros st Hin Hwf Hsub; [by left |].
  destruct (Hin p (list_elem_of_here _ _)) as [info Hinfo].
  cbv zeta. simpl. unfold mbind, M_bind. rewrite Hinfo. simpl.
  destruct (cleanPath_sound dryRun p info st
              (plan_ok_entry _ _ _ Hok Hinfo)
              (all_present_spec _ _ _ _ Hall Hinfo) Hwf Hsub)
    as (Hwf1 & Hsub1 & Hres).
  destruct (cleanPath dryRun p info st) as [st1 r1]. simpl in *.
  destruct Hres as [->|(-> & Hisd & -> & Hd & Hn)].
  - apply IH; [|done..]. intros q Hq. apply Hin. by right.
  - right. split; [done |]. exists p, info. repeat (split; [done |]).
    split; [|done]. by eapply lookup_weaken.
Qed.

End Failures.


Section RunOutcome.
Import OS Paths Clean Effects Outputs.
#[local] Arguments GoPath.Join : simpl never.
#[local] Arguments GoPath.Dir : simpl never.
#[local] Arguments GoPath.Clean : simpl never.
#[local] Arguments render : simpl never.

Variable Dist : Type.
Variable Dist_OutputDir : Dist → string.
Variable FullArtifactsPaths : ProductBuildSpec Dist → Dist → list string.
Variable Compiles : string → bool.
Variable MatchString : string → string → bool.
Variable b : ProductBuildSpecWithDeps Dist.
Variable fs : FS.
Hypothesis wf : wf_fs fs = true.
Hypothesis absolute : ∃ s, ProjectDir Dist (Spec Dist b) = String "/" s.

(** When a text of a distribution is no regular expression, [Run]
    panics, in either mode, and has done nothing: on a well-formed file
    system the binaries are found without an error, and
    [regexp.MustCompile] comes before anything is written or removed. *)
Lemma Run_panics_start dryRun :
  compiles Dist FullArtifactsPaths Compiles b = false →
  Run Dist Dist_OutputDir FullArtifactsPaths Compiles MatchString b dryRun
      (start fs)
  = (start fs, Panic).
Proof.
  intros Hc. rewrite Run_panics by done. simpl disk.
  destruct (plan_made Dist Dist_OutputDir FullArtifactsPaths MatchString b fs
              wf absolute) as [rp Hp].
  unfold planFiles in Hp. by destruct (binPaths Dist fs b).
Qed.

(** X9.  The dry run of [Run] returns no error when the texts that
    [Run] compiles are regular expressions: for every distribution, the
    product name followed by "-.+" and the base names of the paths of
    its artifacts.  When one of them is not, [Run] panics in
    [regexp.MustCompile], and has written nothing.  (For an absolute
    project directory, on a well-formed file system, where a call fails
    for structural reasons only: the directories that the dry run reads
    are above files that [Run] has just found.) *)
Theorem dry_Run_returns_nil :
  let r :=
    Run Dist Dist_OutputDir FullArtifactsPaths Compiles MatchString b true
        (start fs) in
  (compiles Dist FullArtifactsPaths Compiles b = true → r.2 = Ok ()) ∧
  (compiles Dist FullArtifactsPaths Compiles b = false →
   r = (start fs, Panic)).
Proof.
  cbv zeta. split; [|apply Run_panics_start].
  intros Hcomp. rewrite Run_plan by done. simpl disk.
  destruct (plan_made Dist Dist_OutputDir FullArtifactsPaths MatchString b fs
              wf absolute) as [rp Hp].
  rewrite Hp.
  destruct (plan_good _ _ _ _ _ _ wf absolute _ Hp) as [Hok Hall].
  rewrite Execute_dry_start.
  destruct (forPaths_sound fs wf true rp (GoStrings.Sort (map_to_list rp).*1)
              (mkState fs ∅ [header_line (ProductName Dist (Spec Dist b))] [])
              Hok Hall)
    as [H|[H _]]; try done.
  intros p. apply sortedPaths_elem.
Qed.

(** X10.  The ways in which the real run of [Run] ends, for an
    absolute project directory, on a well-formed file system, where a
    call fails for structural reasons only.  When the texts that [Run]
    compiles are regular expressions, it returns no error, or a path
    that [cleanBinOutput] has returned is a directory that is not
    empty: [os.Remove] fails on it, [Run] returns "failed to remove
    file", and the directory is still there.  No other error is
    returned: [os.RemoveAll] is called on paths that are absolute and
    clean, where it does not fail.  When a text is no regular
    expression, [Run] panics in [regexp.MustCompile], and has removed
    nothing. *)
Theorem real_Run_fails_on_directory :
  let r :=
    Run Dist Dist_OutputDir FullArtifactsPaths Compiles MatchString b false
        (start fs) in
  (compiles Dist FullArtifactsPaths Compiles b = true →
   r.2 = Ok () ∨
   ∃ p info,
     binEntry Dist fs b p info ∧
     r.2 = Err (ErrRemoveFile p ENOTEMPTY) ∧
     fs !! resolve p = Some true ∧
     ∃ n, is_Some (disk r.1 !! (resolve p ++ [n]))) ∧
  (compiles Dist FullArtifactsPaths Compiles b = false →
   r = (start fs, Panic)).
Proof.
  cbv zeta. split; [|apply Run_panics_start].
  intros Hcomp. rewrite Run_plan by done. simpl disk.
  destruct (plan_made Dist Dist_OutputDir FullArtifactsPaths MatchString b fs
              wf absolute) as [rp Hp].
  rewrite Hp.
  destruct (plan_good _ _ _ _ _ _ wf absolute _ Hp) as [Hok Hall].
  rewrite Execute_real_start.
  destruct (forPaths_sound fs wf false rp (GoStrings.Sort (map_to_list rp).*1)
              (start fs) Hok Hall)
    as [H|(_ & p & info & Hinfo & Hisd & Hr & Hd & Hn)]; try done.
  { intros p. apply sortedPaths_elem. }
  { by left. }
  right. exists p, info. split; [|done].
  destruct (plan_entries _ _ _ _ _ _ wf absolute _ Hp) as [H1 _].
  destruct (H1 _ _ Hinfo) as [Hbin|(d & name & isd & _ & Hf & _ & -> & ->)];
    [done |].
  cbv zeta in Hf. rewrite resolve_render in Hd by (by eapply wf_valid).
  simpl in Hisd. congruence.
Qed.

(** The state after a real run that returns no error: a well-formed part
    of the file system, without the paths of the plan. *)
Lemma after_real_run removePaths st' :
  planFiles Dist Dist_OutputDir FullArtifactsPaths MatchString fs b
  = inr removePaths →
  Execute (ProductName Dist (Spec Dist b)) removePaths false (start fs)
  = (st', Ok ()) →
  wf_fs (disk st') = true ∧ disk st' ⊆ fs ∧
  ∀ p, is_Some (removePaths !! p) → disk st' !! resolve p = None.
Proof.
  intros Hp. rewrite Execute_real_start. intros Hrun.
  assert (wf_fs (disk st') = true) as Hwf'.
  { destruct (forPaths_spares removePaths
                (fun p => default noInfo (removePaths !! p))
                (GoStrings.Sort (map_to_list removePaths).*1) (start fs))
      as [Hwf' _]; [intros p; apply sortedPaths_elem | done |].
    by rewrite Hrun in Hwf'. }
  split; [done |]. split.
  - pose proof (forPaths_shrinks false
                  (fun p => default noInfo (removePaths !! p))
                  (GoStrings.Sort (map_to_list removePaths).*1) (start fs))
      as Hs.
    cbv beta in Hs. by rewrite Hrun in Hs.
  - intros p [info Hinfo].
    destruct (forPaths_real_gone _ _ _ _ Hrun p) as [e He].
    { apply sortedPaths_elem. by eexists. }
    destruct (plan_good _ _ _ _ _ _ wf absolute _ Hp) as [Hok _].
    pose proof (plan_ok_entry _ _ _ Hok Hinfo) as Hentry.
    unfold entry_ok in Hentry.
    apply andb_true_iff in Hentry as [[Hc%abs_clean_render _]%andb_true_iff _].
    rewrite Hc, Stat_render in He by (done || apply resolve_valid).
    by destruct (disk st' !! resolve p).
Qed.

(** [Run] finds nothing to remove on a part of the file system that has
    none of the paths of the plan. *)
Lemma plan_empty removePaths fs' :
  planFiles Dist Dist_OutputDir FullArtifactsPaths MatchString fs b
  = inr removePaths →
  wf_fs fs' = true → fs' ⊆ fs →
  (∀ p, is_Some (removePaths !! p) → fs' !! resolve p = None) →
  planFiles Dist Dist_OutputDir FullArtifactsPaths MatchString fs' b = inr ∅.
Proof.
  intros Hp Hwf' Hsub Hgone.
  destruct (plan_entries _ _ _ _ _ _ wf absolute _ Hp) as [_ Hall].
  unfold planFiles.
  assert (binPaths Dist fs' b = inr ∅) as ->.
  { unfold binPaths. apply foldE_inr.
    intros [od ps] Hod%elem_of_map_to_list.
    pose proof (outputDirToMap_keys Dist b absolute _ _ Hod) as Hd.
    destruct (cleanBinOutput_spec fs' od ps Hwf' Hd) as (removed' & -> & Hk').
    destruct (cleanBinOutput_spec fs od ps wf Hd) as (removed & Hc & Hk).
    assert (removed' = ∅) as ->; [|by rewrite elements_empty].
    apply set_eq. intros k. split; [|by intros ?%elem_of_empty].
    intros (tag & o & n & -> & Ht & Ho & [d Hn] & Hprod)%Hk'. exfalso.
    pose proof (wf_valid _ _ _ Hwf' Hn) as Hv.
    assert (is_Some (removePaths
                       !! render (resolve od ++ [tag; o; n]))) as Hin.
    { apply (Hall _ {| rootDir := od; isDir := false |}). left.
      exists od, ps, removed. repeat (split; [done |]). split; [|done].
      apply Hk. exists tag, o, n. split; [done |].
      split; [by eapply lookup_weaken |]. split; [by eapply lookup_weaken |].
      split; [|done]. exists d. by eapply lookup_weaken. }
    apply Hgone in Hin. rewrite resolve_render in Hin by done. congruence. }
  f_equal. apply fold_left_id. intros d Hd.
  set (spec := withVersion Dist (Spec Dist b) ".+").
  apply map_eq. intros p. rewrite lookup_empty.
  destruct (distFiles _ _ _ _ fs' spec ∅ d !! p) as [info|] eqn:E; [|done].
  exfalso.
  apply (distPaths_lookup Dist Dist_OutputDir FullArtifactsPaths MatchString
           fs' spec ∅ d Hwf' absolute) in E
    as [(name & isd & (Hn & Hm & ->) & ->)|[E _]];
    [|by rewrite lookup_empty in E].
  change (ProjectDir Dist spec) with (ProjectDir Dist (Spec Dist b)) in Hn.
  pose proof (wf_valid _ _ _ Hwf' Hn) as Hv.
  assert (is_Some
            (removePaths
               !! render (resolve (GoPath.Join [ProjectDir Dist (Spec Dist b);
                                                Dist_OutputDir d]) ++ [name])))
    as Hin.
  { eapply Hall. right. exists d, name, isd. split; [done |].
    cbv zeta. split; [by eapply lookup_weaken |]. done. }
  apply Hgone in Hin. rewrite resolve_render in Hin by done. congruence.
Qed.

(** C6.  [Run] twice in real mode, for an absolute project directory, on
    a well-formed file system.  When the first real run returns no
    error, [Run] makes the empty plan on the file system that the first
    run has left: the second real run returns no error, removes nothing,
    writes nothing, and leaves the file system as it found it. *)
Theorem second_Run_removes_nothing :
  let first :=
    Run Dist Dist_OutputDir FullArtifactsPaths Compiles MatchString b false
        (start fs) in
  first.2 = Ok () →
  let second :=
    Run Dist Dist_OutputDir FullArtifactsPaths Compiles MatchString b false
        (start (disk first.1)) in
  plan Dist Dist_OutputDir FullArtifactsPaths Compiles MatchString
       (disk first.1) b = Ok ∅ ∧
  second.2 = Ok () ∧ unlinked second.1 = [] ∧ stdout second.1 = [] ∧
  disk second.1 = disk first.1.
Proof.
  cbv zeta.
  destruct (compiles Dist FullArtifactsPaths Compiles b) eqn:Hcomp;
    [|by rewrite Run_panics_start].
  rewrite Run_plan by done. simpl disk.
  destruct (plan_made Dist Dist_OutputDir FullArtifactsPaths MatchString b fs
              wf absolute) as [rp Hp].
  rewrite Hp.
  destruct (Execute _ rp false (start fs)) as [st' r] eqn:Hrun. simpl.
  intros ->.
  destruct (after_real_run _ _ Hp Hrun) as (Hwf' & Hsub & Hgone).
  rewrite Run_plan by done. simpl disk.
  rewrite plan_eq, Hcomp.
  by rewrite (plan_empty _ _ Hp Hwf' Hsub Hgone).
Qed.

(** X11.  [Run] twice: when the real run of [Run] has returned no error,
    a second [Run] on the file system that it has left finds nothing to
    remove, in either mode.  It returns no error, removes nothing, and
    writes the header line only (dry run) or nothing (real run).  For an
    absolute project directory, on a well-formed file system. *)
Theorem Run_again :
  let first :=
    Run Dist Dist_OutputDir FullArtifactsPaths Compiles MatchString b false
        (start fs) in
  first.2 = Ok () →
  ∀ dryRun : bool,
    Run Dist Dist_OutputDir FullArtifactsPaths Compiles MatchString b dryRun
        (start (disk first.1))
    = (mkState (disk first.1) ∅
         (if dryRun then [header_line (ProductName Dist (Spec Dist b))] else [])
         [],
       Ok ()).
Proof.
  cbv zeta.
  destruct (compiles Dist FullArtifactsPaths Compiles b) eqn:Hcomp;
    [|by rewrite Run_panics_start].
  rewrite Run_plan by done. simpl disk.
  destruct (plan_made Dist Dist_OutputDir FullArtifactsPaths MatchString b fs
              wf absolute) as [rp Hp].
  rewrite Hp.
  destruct (Execute _ rp false (start fs)) as [st' r] eqn:Hrun. simpl.
  intros -> dryRun.
  destruct (after_real_run _ _ Hp Hrun) as (Hwf' & Hsub & Hgone).
  rewrite Run_plan by done. simpl disk.
  rewrite (plan_empty _ _ Hp Hwf' Hsub Hgone).
  by destruct dryRun.
Qed.

End RunOutcome.


(* ===================================================================== *)
(** ** [Products]: one product after the other *)
(* ===================================================================== *)

Section ProductsFacts.
Import OS Paths Clean CleanProducts.

Variable Dist : Type.
Variable Dist_OutputDir : Dist → string.
Variable FullArtifactsPaths : ProductBuildSpec Dist → Dist → list string.
Variable Compiles : string → bool.
Variable MatchString : string → string → bool.
Variable Project : Type.
Variable BuildError : Type.
Variable SpecsWithDepsForArgs :
  Project → list string → string →
  BuildError + list (ProductBuildSpecWithDeps Dist).

#[local] Abbreviation cleanSpecs :=
  (cleanSpecs Dist Dist_OutputDir FullArtifactsPaths Compiles MatchString BuildError).
#[local] Abbreviation Products :=
  (Products Dist Dist_OutputDir FullArtifactsPaths Compiles MatchString Project
            BuildError SpecsWithDepsForArgs).
#[local] Abbreviation Run := (Run Dist Dist_OutputDir FullArtifactsPaths Compiles MatchString).

Lemma cleanSpecs_app pre post dryRun st st1 :
  cleanSpecs pre dryRun st = (st1, Return None) →
  cleanSpecs (pre ++ post) dryRun st = cleanSpecs post dryRun st1.
Proof.
  revert st. induction pre as [|s pre IH]; intros st; simpl.
  { by intros [= <-]. }
  destruct (Run s dryRun st) as [st' [[]|e| |]]; [|done..]. apply IH.
Qed.

(** X1.  [Products] cleans the products in the order of
    [build.SpecsWithDepsForArgs] and stops at the first product for
    which [Run] returns an error: it returns that error as the cause of
    "failed to clean" with the name of the product, the products before
    it have been cleaned, what [Run] has done for the failing product
    stays, and the products after it are not looked at.  When
    [Products] returns [nil], [Run] has returned no error for each
    product, in the state that the products before it have left.  The
    error of [build.SpecsWithDepsForArgs] is returned as it is, with
    nothing done. *)
Theorem Products_stops_at_failure products cfg dryRun wd st :
  (∀ err,
     SpecsWithDepsForArgs cfg products wd = inl err →
     Products products cfg dryRun wd st = (st, Return (Some (ErrSpecs err)))) ∧
  (∀ pre specWithDeps post st1 st2 err,
     SpecsWithDepsForArgs cfg products wd = inr (pre ++ specWithDeps :: post) →
     cleanSpecs pre dryRun st = (st1, Return None) →
     Run specWithDeps dryRun st1 = (st2, Err err) →
     Products products cfg dryRun wd st
     = (st2, Return (Some (ErrFailedToClean
                             (ProductName Dist (Spec Dist specWithDeps))
                             err)))) ∧
  (∀ pre specWithDeps post st',
     SpecsWithDepsForArgs cfg products wd = inr (pre ++ specWithDeps :: post) →
     Products products cfg dryRun wd st = (st', Return None) →
     ∃ st1 st2,
       cleanSpecs pre dryRun st = (st1, Return None) ∧
       Run specWithDeps dryRun st1 = (st2, Ok ()) ∧
       cleanSpecs post dryRun st2 = (st', Return None)).
Proof.
  unfold Products. split; [|split].
  - by intros err ->.
  - intros pre s post st1 st2 err -> Hpre Hs.
    rewrite (cleanSpecs_app _ _ _ _ _ Hpre). simpl. by rewrite Hs.
  - intros pre s post st' ->. revert st.
    induction pre as [|a pre IH]; intros st; simpl.
    + destruct (Run s dryRun st) as [st2 [[]|e| |]] eqn:Hs; [|done..].
      intros Hpost. by exists st, st2.
    + destruct (Run a dryRun st) as [sa [[]|e| |]]; [|done..]. apply IH.
Qed.

(** A relation between states that every [Run] respects holds from the
    start of [Products] to its end. *)
Lemma cleanSpecs_rel (R : state → state → Prop) dryRun :
  (∀ st, R st st) → (∀ st1 st2 st3, R st1 st2 → R st2 st3 → R st1 st3) →
  (∀ b st, R st (Run b dryRun st).1) →
  ∀ specs st, R st (cleanSpecs specs dryRun st).1.
Proof.
  intros Hrefl Htrans Hrun specs.
  induction specs as [|s specs IH]; intros st; simpl; [apply Hrefl |].
  pose proof (Hrun s st) as H1.
  destruct (Run s dryRun st) as [st1 [[]|e| |]]; try exact H1.
  eapply Htrans; [exact H1 | apply IH].
Qed.

(** X2.  What holds for [Run] holds for [Products], whatever the
    products and their number are and however the call ends: in a dry
    run the disk is left as it is and nothing is removed, in a real run
    nothing is written, and in both no file is made or changed in
    kind. *)
Theorem Products_frame products cfg wd st :
  (disk (Products products cfg true wd st).1 = disk st ∧
   unlinked (Products products cfg true wd st).1 = unlinked st) ∧
  stdout (Products products cfg false wd st).1 = stdout st ∧
  (∀ dryRun k d,
     disk (Products products cfg dryRun wd st).1 !! k = Some d →
     disk st !! k = Some d).
Proof.
  unfold Products.
  destruct (SpecsWithDepsForArgs cfg products wd) as [err|specs]; [done |].
  split; [|split].
  - apply (cleanSpecs_rel
             (fun st st' => disk st' = disk st ∧ unlinked st' = unlinked st)).
    + done.
    + intros st1 st2 st3 [H1 H2] [H3 H4]. by rewrite H3, H4.
    + intros b st1. apply Run_dry_keeps_disk.
  - apply (cleanSpecs_rel (fun st st' => stdout st' = stdout st)).
    + done.
    + intros st1 st2 st3 H1 H2. by rewrite H2.
    + intros b st1. apply Run_real_silent.
  - intros dryRun k d H. eapply lookup_weaken; [exact H |].
    apply (cleanSpecs_rel (fun st st' => disk st' ⊆ disk st)).
    + done.
    + intros st1 st2 st3 H1 H2. by etrans.
    + intros b st1. apply Run_shrinks.
Qed.

End ProductsFacts.


(* ===================================================================== *)
(** ** A dry run of [Products] *)
(* ===================================================================== *)

Section Appends.
Import OS Paths Clean Logs.

Lemma onto_base {A} (st : state) (r : state * result A) :
  base (onto st r).1 = base r.1.
Proof. done. Qed.

Lemma onto_onto {A} (st : state) (s1 : state) (r : state * result A) :
  onto (mkState (disk s1) (removedPaths s1) (stdout st ++ stdout s1)
                (unlinked st ++ unlinked s1)) r
  = onto st (onto s1 r).
Proof. unfold onto. simpl. by rewrite !app_assoc. Qed.

Lemma appends_ret {A} (a : A) : appends (mret a).
Proof. intros st. unfold onto, mret, M_ret. simpl. by rewrite !app_nil_r; destruct st. Qed.

Lemma appends_fail {A} e : appends (fail e : M A).
Proof. intros st. unfold onto, fail. simpl. by rewrite !app_nil_r; destruct st. Qed.

Lemma appends_diverge {A} : appends (diverge : M A).
Proof. intros st. unfold onto, diverge. simpl. by rewrite !app_nil_r; destruct st. Qed.

Lemma appends_Fprintf text : appends (Fprintf text).
Proof. intros st. unfold onto, Fprintf. simpl. by rewrite app_nil_r. Qed.

Lemma appends_mark p : appends (mark p).
Proof. intros st. unfold onto, mark. simpl. by rewrite !app_nil_r. Qed.

Lemma appends_remove_call call wrap p : appends (remove_call call wrap p).
Proof.
  intros st. unfold onto, remove_call. simpl.
  destruct (call (disk st) p); simpl; rewrite ?app_nil_r; by destruct st.
Qed.

Lemma appends_bind {A B} (m : M A) (k : A → M B) :
  appends m → (∀ a, appends (k a)) → appends (m ≫= k).
Proof.
  intros Hm Hk st. unfold mbind, M_bind. rewrite (Hm st).
  destruct (m (base st)) as [s1 [a|e| |]]; simpl; try done.
  rewrite (Hk a). rewrite (Hk a s1). by rewrite <- onto_onto.
Qed.

Lemma appends_get {A} (f : state → M A) :
  (∀ st, f st = f (base st)) → (∀ st, appends (f st)) → appends (get ≫= f).
Proof.
  intros Hf Hap st. unfold mbind, M_bind, get. simpl.
  rewrite <- (Hf st). apply Hap.
Qed.

Lemma appends_when (c : bool) m : appends m → appends (when c m).
Proof. intros Hm. destruct c; [done | apply appends_ret]. Qed.

Lemma appends_removeDirIfEmpty dirPath dryRun :
  appends (removeDirIfEmpty dirPath dryRun).
Proof.
  unfold removeDirIfEmpty. apply appends_get; [done |]. intros st.
  destruct (IsNotExist _); [apply appends_ret |].
  destruct (ReadDir _ _); [apply appends_fail |].
  destruct (negb _); [apply appends_ret |].
  apply appends_bind; [|intros _; apply appends_bind;
                         [apply appends_mark | intros _; apply appends_ret]].
  apply appends_when, appends_remove_call.
Qed.

Lemma appends_cascade n rootDir dryRun cur :
  appends (cascade n rootDir dryRun cur).
Proof.
  revert cur. induction n as [|n IH]; intros cur; [apply appends_diverge |].
  rewrite cascade_S. cbv zeta.
  destruct (bool_decide _); [apply appends_ret |].
  apply appends_get; [done |]. intros st.
  destruct (IsNotExist _); [apply appends_ret |].
  apply appends_bind; [apply appends_removeDirIfEmpty |].
  intros removed. destruct (negb removed); [apply appends_ret |].
  apply appends_bind; [apply appends_when, appends_Fprintf | intros _; apply IH].
Qed.

Lemma appends_cleanPath dryRun p info : appends (cleanPath dryRun p info).
Proof.
  unfold cleanPath.
  apply appends_bind.
  { unfold removeTarget. destruct dryRun; [apply appends_Fprintf |].
    apply appends_get; [done |]. intros st.
    destruct (Stat _ _); [apply appends_ret |].
    destruct (isDir info); apply appends_remove_call. }
  intros _. apply appends_bind; [apply appends_mark |]. intros _.
  destruct (negb _); [apply appends_fail |].
  apply appends_bind; [apply appends_cascade |]. intros _.
  apply appends_bind; [apply appends_removeDirIfEmpty |]. intros r.
  apply appends_when, appends_Fprintf.
Qed.

Lemma appends_forPaths body paths :
  (∀ p, appends (body p)) → appends (forPaths body paths).
Proof.
  intros Hb. induction paths as [|p paths IH]; [apply appends_ret |].
  simpl. apply appends_bind; [apply Hb | intros _; apply IH].
Qed.

(** [Run] makes its own [removedPaths]: what it does depends on the
    disk only. *)
Lemma Execute_on_disk product removePaths dryRun st :
  Execute product removePaths dryRun st
  = onto st (Execute product removePaths dryRun (start (disk st))).
Proof.
  assert (∀ st1,
            Execute product removePaths dryRun st1
            = onto st1 (Execute product removePaths dryRun (base st1))) as Hap.
  { unfold Execute. cbv zeta.
    apply appends_bind; [apply appends_when, appends_Fprintf |]. intros _.
    apply appends_bind.
    { intros s. unfold onto, fresh. simpl. by rewrite !app_nil_r. }
    intros _. apply appends_forPaths. intros p. apply appends_cleanPath. }
  rewrite Hap. f_equal.
  destruct dryRun; [by rewrite !Execute_dry | by rewrite !Execute_real].
Qed.

Lemma Run_on_disk Dist Dist_OutputDir FullArtifactsPaths Compiles MatchString
    (b : ProductBuildSpecWithDeps Dist) dryRun st :
  let r :=
    Run Dist Dist_OutputDir FullArtifactsPaths Compiles MatchString b dryRun
        st in
  let r0 :=
    Run Dist Dist_OutputDir FullArtifactsPaths Compiles MatchString b dryRun
        (start (disk st)) in
  r.2 = r0.2 ∧ disk r.1 = disk r0.1 ∧
  stdout r.1 = stdout st ++ stdout r0.1 ∧
  unlinked r.1 = unlinked st ++ unlinked r0.1.
Proof.
  cbv zeta. rewrite !Run_eq. simpl disk.
  destruct (binPaths Dist (disk st) b) as [e|removePaths].
  - simpl. by rewrite !app_nil_r.
  - destruct (Outputs.compiles _ _ _ _).
    + by rewrite Execute_on_disk.
    + simpl. by rewrite !app_nil_r.
Qed.

End Appends.

Section ProductsDryRun.
Import OS Paths Clean Logs CleanProducts.

Variable Dist : Type.
Variable Dist_OutputDir : Dist → string.
Variable FullArtifactsPaths : ProductBuildSpec Dist → Dist → list string.
Variable Compiles : string → bool.
Variable MatchString : string → string → bool.
Variable Project : Type.
Variable BuildError : Type.
Variable SpecsWithDepsForArgs :
  Project → list string → string →
  BuildError + list (ProductBuildSpecWithDeps Dist).

#[local] Abbreviation cleanSpecs :=
  (cleanSpecs Dist Dist_OutputDir FullArtifactsPaths Compiles MatchString BuildError).
#[local] Abbreviation Products :=
  (Products Dist Dist_OutputDir FullArtifactsPaths Compiles MatchString Project
            BuildError SpecsWithDepsForArgs).
#[local] Abbreviation Run :=
  (Run Dist Dist_OutputDir FullArtifactsPaths Compiles MatchString).

Lemma cleanSpecs_dry_lines specs st st' :
  cleanSpecs specs true st = (st', Return None) →
  stdout st'
  = stdout st
      ++ concat ((fun b => stdout (Run b true (start (disk st))).1) <$> specs).
Proof.
  revert st. induction specs as [|b specs IH]; intros st; simpl.
  { intros [= <-]. by rewrite app_nil_r. }
  destruct (Run_on_disk Dist Dist_OutputDir FullArtifactsPaths Compiles
              MatchString b true st) as (Hr & _ & Ho & _).
  pose proof (Run_dry_keeps_disk Dist Dist_OutputDir FullArtifactsPaths
                Compiles MatchString b st) as [Hd _].
  cbv zeta in Hd.
  destruct (Run b true st) as [s1 r1]. simpl in *.
  destruct r1 as [[]|e| |]; try done.
  intros H%IH. by rewrite H, Ho, Hd, app_assoc.
Qed.

(** X18.  The dry run of [Products] reports each product as if it alone
    were cleaned: [Run] makes a new [removedPaths] for each product and
    removes nothing in a dry run, so that what is written for a product
    is what the dry run of [Run] for that product alone writes on the
    file system as it is at the start, whatever the products before it
    would have removed.  When [Products] returns [nil] in a dry run, its
    output is the output of these runs, one after the other. *)
Theorem Products_dry_run_each_alone products cfg wd buildSpecsWithDeps st st' :
  SpecsWithDepsForArgs cfg products wd = inr buildSpecsWithDeps →
  Products products cfg true wd st = (st', Return None) →
  stdout st'
  = stdout st
      ++ concat ((fun specWithDeps =>
                    stdout (Run specWithDeps true (start (disk st))).1)
                   <$> buildSpecsWithDeps).
Proof.
  unfold CleanProducts.Products. intros ->. apply cleanSpecs_dry_lines.
Qed.

End ProductsDryRun.


(* ===================================================================== *)
(** ** How far the walk up goes *)
(* ===================================================================== *)

Section WalkUp.
Import OS Paths Clean Effects Chain.
#[local] Arguments GoPath.Join : simpl never.
#[local] Arguments GoPath.Dir : simpl never.
#[local] Arguments render : simpl never.

Lemma up_snoc top below c :
  up top (below ++ [c]) = (top ++ below ++ [c]) :: up top below.
Proof.
  revert top. induction below as [|x below IH]; intros top; simpl; [done |].
  by rewrite IH, <- app_assoc.
Qed.

Lemma up_last top below : ∃ l, up top below = l ++ [top].
Proof. destruct below; simpl; [by exists [] | by eexists]. Qed.

Lemma lonely_spec fs d p :
  lonely fs d p = true ↔
  ∀ m, is_Some (fs !! (d ++ [m])) → (d ++ [m]) `prefix_of` p.
Proof.
  unfold lonely. rewrite forallb_forall. split.
  - intros H m [b Hm].
    specialize (H {| Name := m; IsDir := b |}).
    eapply bool_decide_eq_true_1, H, list_elem_of_In.
    by apply entries_spec.
  - intros H f Hf%list_elem_of_In%entries_spec.
    apply bool_decide_eq_true_2, H. by eexists.
Qed.

Lemma lonely_false fs d p :
  lonely fs d p = false →
  ∃ m, is_Some (fs !! (d ++ [m])) ∧ ¬ (d ++ [m]) `prefix_of` p.
Proof.
  unfold lonely. intros H.
  assert (¬ forallb (λ f, bool_decide ((d ++ [Name f]) `prefix_of` p))
              (entries fs d) = true) as H' by (by rewrite H).
  rewrite forallb_forall in H'.
  destruct (decide (Exists (λ f, ¬ (d ++ [Name f]) `prefix_of` p)
                           (entries fs d))) as [He|He].
  - apply Exists_exists in He as (f & Hf%entries_spec & Hn).
    exists (Name f). split; [by eexists | done].
  - destruct H'. intros f Hf%list_elem_of_In. apply bool_decide_eq_true_2.
    destruct (decide ((d ++ [Name f]) `prefix_of` p)) as [|Hn]; [done |].
    destruct He. apply Exists_exists. by exists f.
Qed.

(** Two entries of one directory on the way to the same path are the
    same. *)
Lemma prefix_snoc_inj (d : list string) m c p :
  (d ++ [m]) `prefix_of` p → (d ++ [c]) `prefix_of` p → m = c.
Proof.
  intros [t1 ->] [t2 E]. rewrite <- !app_assoc in E.
  apply app_inv_head in E. simpl in E. congruence.
Qed.

Section Walking.
Variables (fs : FS) (lr p : list string).
Hypothesis wf : wf_fs fs = true.

(** The walk up from a removed path [lr ++ r1 ++ r2 ++ [c]]: it removes
    the directories of [r2], which hold nothing else, and stops below
    [lr ++ r1], which is the root directory or holds something else. *)
Lemma cascade_walk r2 : ∀ r1 c k st,
  (lr ++ r1 ++ r2 ++ [c]) `prefix_of` p →
  is_Some (fs !! (lr ++ r1 ++ r2 ++ [c])) →
  disk st = rm (lr ++ r1 ++ r2 ++ [c]) fs →
  (∀ d, d ∈ up (lr ++ r1) r2 → d ≠ lr ++ r1 → lonely fs d p = true) →
  (r1 = [] ∨ lonely fs (lr ++ r1) p = false) →
  length (r1 ++ r2) < k →
  ∃ R, cascade k (render lr) false (render (lr ++ r1 ++ r2 ++ [c])) st
       = (mkState (rm (lr ++ r1 ++ take 1 (r2 ++ [c])) fs) R (stdout st)
            (unlinked st ++ (render <$> removelast (up (lr ++ r1) r2))),
          Ok ()).
Proof.
  induction r2 as [|x r2 IH] using rev_ind;
    intros r1 c k st Hpre [dc Hsome] Hdisk Hlon Htop Hk.
  - simpl in *. destruct k as [|k]; [lia |].
    pose proof (wf_valid _ _ _ wf Hsome) as Hv.
    exists (removedPaths st).
    assert (cascade (S k) (render lr) false (render (lr ++ r1 ++ [c])) st
            = (st, Ok ())) as ->.
    { destruct Htop as [->|Hnl].
      - rewrite (cascade_render _ lr [] c) by done. by rewrite decide_True.
      - apply lonely_false in Hnl as (m & Hm & Hnp).
        apply (cascade_stop _ lr r1 c _ m); [done | |].
        + rewrite Hdisk. by apply wf_rm.
        + rewrite Hdisk, lookup_rm_other; [done |].
          intros [t Ht]. destruct Hnp.
          assert (t = []) as ->.
          { apply (f_equal length) in Ht. rewrite !length_app in Ht.
            simpl in Ht. destruct t; [done | simpl in Ht; lia]. }
          rewrite Ht, app_nil_r. exact Hpre. }
    destruct st as [dk R out U]. simpl in *. subst dk.
    by rewrite app_nil_r.
  - destruct k as [|k]; [lia |].
    replace (lr ++ r1 ++ (r2 ++ [x]) ++ [c])
      with (lr ++ (r1 ++ r2 ++ [x]) ++ [c]) in *
      by (by rewrite <- !app_assoc).
    pose proof (wf_valid _ _ _ wf Hsome) as Hv.
    assert (fs !! (lr ++ r1 ++ r2 ++ [x]) = Some true) as HD.
    { eapply (wf_parent _ _ c); [done |]. rewrite <- app_assoc. exact Hsome. }
    assert (lonely fs (lr ++ r1 ++ r2 ++ [x]) p = true) as HlD.
    { apply Hlon.
      - rewrite up_snoc, <- app_assoc. apply list_elem_of_here.
      - intros E. rewrite (app_assoc lr r1) in E.
        apply (f_equal length) in E. rewrite !length_app in E.
        simpl in E. lia. }
    rewrite (cascade_up _ lr (r1 ++ r2 ++ [x]) c); try done.
    2:{ rewrite Hdisk. by apply wf_rm. }
    2:{ intros E. apply (f_equal length) in E. rewrite !length_app in E.
        simpl in E. lia. }
    2:{ rewrite Hdisk, lookup_rm_other; [done |].
        intros Hp%prefix_length. rewrite !length_app in Hp. simpl in Hp. lia. }
    2:{ intros m. rewrite Hdisk.
        destruct (fs !! ((lr ++ r1 ++ r2 ++ [x]) ++ [m])) as [dm|] eqn:Em;
          [|by apply lookup_rm_None_mono].
        apply lookup_rm_under.
        assert (m = c) as ->; [|rewrite <- !app_assoc; reflexivity].
        apply (prefix_snoc_inj (lr ++ r1 ++ r2 ++ [x]) m c p).
        - apply (proj1 (lonely_spec _ _ _) HlD). by eexists.
        - by rewrite <- app_assoc. }
    rewrite Hdisk, rm_rm by (exists [c]; by rewrite <- !app_assoc).
    edestruct (IH r1 x k
                 (mkState (rm (lr ++ r1 ++ r2 ++ [x]) fs)
                    ({[render (lr ++ r1 ++ r2 ++ [x])]} ∪ removedPaths st)
                    (stdout st)
                    (unlinked st ++ [render (lr ++ r1 ++ r2 ++ [x])])))
      as [R HR].
    + etrans; [|exact Hpre]. exists [c]. by rewrite <- !app_assoc.
    + by eexists.
    + done.
    + intros d Hd Hne. apply Hlon; [|done].
      rewrite up_snoc. by apply list_elem_of_further.
    + done.
    + rewrite !length_app in *. simpl in Hk. lia.
    + exists R. rewrite HR. cbn [stdout unlinked]. f_equal. f_equal.
      * f_equal. f_equal. f_equal.
        destruct r2; simpl; done.
      * rewrite up_snoc. destruct (up_last (lr ++ r1) r2) as [l ->].
        rewrite app_comm_cons, !removelast_last. rewrite fmap_cons.
        rewrite <- !app_assoc. simpl. done.
Qed.

(** The loop body on a regular file: the file goes, then the walk up. *)
Lemma cleanPath_walk r1 r2 c :
  fs !! (lr ++ r1 ++ r2 ++ [c]) = Some false →
  (lr ++ r1 ++ r2 ++ [c]) `prefix_of` p →
  (∀ d, d ∈ up (lr ++ r1) r2 → d ≠ lr ++ r1 → lonely fs d p = true) →
  (r1 = [] ∨ lonely fs (lr ++ r1) p = false) →
  ∃ R,
    cleanPath false (render (lr ++ r1 ++ r2 ++ [c]))
      {| rootDir := render lr; isDir := false |} (start fs)
    = match removeDirIfEmpty (render lr) false
              (mkState (rm (lr ++ r1 ++ take 1 (r2 ++ [c])) fs) R []
                 (render (lr ++ r1 ++ r2 ++ [c])
                    :: (render <$> removelast (up (lr ++ r1) r2)))) with
      | (st4, Ok b) => (st4, Ok ())
      | (st4, Err e) => (st4, Err e)
      | (st4, NoReturn) => (st4, NoReturn)
      | (st4, Panic) => (st4, Panic)
      end.
Proof.
  intros Hfile Hpre Hlon Htop.
  pose proof (wf_valid _ _ _ wf Hfile) as Hv.
  rewrite cleanPath_eq. cbv zeta. unfold start.
  rewrite removeTarget_file by done.
  cbn [disk removedPaths stdout unlinked rootDir isDir].
  rewrite (Contains_render lr (r1 ++ r2 ++ [c])).
  change (negb true) with false. cbv iota.
  assert (length (r1 ++ r2) < iterations (render (lr ++ r1 ++ r2 ++ [c])))
    as Hk.
  { pose proof (iterations_enough lr (r1 ++ r2) c) as H.
    by rewrite <- !app_assoc in H. }
  destruct (cascade_walk r2 r1 c
              (iterations (render (lr ++ r1 ++ r2 ++ [c])))
              (mkState (rm (lr ++ r1 ++ r2 ++ [c]) fs)
                 ({[render (lr ++ r1 ++ r2 ++ [c])]} ∪ ∅) []
                 ([] ++ [render (lr ++ r1 ++ r2 ++ [c])]))
              Hpre (mk_is_Some _ _ Hfile) eq_refl Hlon Htop Hk)
    as [R HR].
  exists R. rewrite HR. cbn [stdout unlinked app].
  by destruct (removeDirIfEmpty _ _ _) as [st4 [[]|e| |]].
Qed.

End Walking.

Lemma up_elem_length (top below d : list string) :
  d ∈ up top below →
  length top ≤ length d ∧ length d ≤ length top + length below.
Proof.
  revert top. induction below as [|x below IH]; intros top; simpl.
  - intros ->%list_elem_of_singleton. lia.
  - intros [Hd%IH| ->%list_elem_of_singleton]%elem_of_app; [|lia].
    rewrite length_app in Hd. simpl in Hd. lia.
Qed.

Lemma elem_of_up (top below d : list string) :
  d ∈ up top below ↔ top `prefix_of` d ∧ d `prefix_of` top ++ below.
Proof.
  revert top. induction below as [|x below IH]; intros top; simpl.
  - rewrite list_elem_of_singleton, app_nil_r. split.
    + by intros ->.
    + intros [[k ->] Hd%prefix_length]. rewrite length_app in Hd.
      destruct k; [by rewrite app_nil_r | simpl in Hd; lia].
  - rewrite elem_of_app, IH, list_elem_of_singleton, <- app_assoc. simpl.
    split.
    + intros [[[k ->] Hd]| ->].
      * split; [|done]. exists (x :: k). by rewrite <- app_assoc.
      * split; [done |]. by apply prefix_app_r.
    + intros [[k ->] Hd]. destruct k as [|y k]; [right; by rewrite app_nil_r |].
      left. apply prefix_app_inv in Hd as Hd'.
      apply prefix_cons_inv_1 in Hd' as ->.
      split; [|done].
      exists k. by rewrite <- app_assoc.
Qed.

(** When the directories from [top] down to the file [top ++ below]
    hold nothing besides the way to it, the files at and below [top]
    are the ones on this way. *)
Lemma below_top_on_way fs (top below : list string) :
  wf_fs fs = true → fs !! (top ++ below) = Some false →
  (∀ d, d ∈ up top below → d ≠ top ++ below →
        lonely fs d (top ++ below) = true) →
  ∀ s, is_Some (fs !! (top ++ s)) → top ++ s ∈ up top below.
Proof.
  intros Hwf Hfile Hlon s. induction s as [|m s IH] using rev_ind.
  - intros _. apply elem_of_up. split; [by rewrite app_nil_r |].
    rewrite app_nil_r. by apply prefix_app_r.
  - intros [dm Hm]. rewrite app_assoc in Hm.
    pose proof (wf_parent _ _ _ _ Hwf Hm) as Hdir.
    apply elem_of_up. split; [by apply prefix_app_r |].
    rewrite app_assoc.
    apply (proj1 (lonely_spec fs (top ++ s) (top ++ below))); [|by eexists].
    apply Hlon; [by apply IH; eexists |].
    intros E. rewrite E in Hdir. congruence.
Qed.

Lemma Execute_single product p info fs :
  Execute product {[p := info]} false (start fs) =
  match cleanPath false p info (start fs) with
  | (st', Ok _) => (st', Ok ())
  | (st', Err e) => (st', Err e)
  | (st', NoReturn) => (st', NoReturn)
  | (st', Panic) => (st', Panic)
  end.
Proof.
  rewrite Execute_real_start, sortedPaths_singleton, forPaths_one.
  by rewrite lookup_singleton_eq.
Qed.

(** The root directory holds nothing besides the removed way down: it
    goes as well. *)
Lemma root_goes fs lr x R U p :
  wf_fs fs = true → Forall (λ n, valid_name n = true) lr →
  fs !! lr = Some true → (lr ++ [x]) `prefix_of` p →
  lonely fs lr p = true →
  removeDirIfEmpty (render lr) false (mkState (rm (lr ++ [x]) fs) R [] U)
  = (mkState (rm lr fs) ({[render lr]} ∪ R) [] (U ++ [render lr]), Ok true).
Proof.
  intros Hwf Hv Hlr Hqp Hl.
  rewrite removeDirIfEmpty_render by (done || by apply wf_rm).
  cbn [disk removedPaths stdout unlinked].
  rewrite lookup_rm_other, Hlr.
  2:{ intros Hp%prefix_length. rewrite length_app in Hp. simpl in Hp. lia. }
  rewrite (proj2 (vacant_real _ _ _)).
  - by rewrite rm_rm by (by apply prefix_app_r).
  - intros m.
    destruct (fs !! (lr ++ [m])) as [dm|] eqn:Em;
      [|by apply lookup_rm_None_mono].
    assert ((lr ++ [m]) `prefix_of` p) as Hm.
    { apply (proj1 (lonely_spec _ _ _) Hl). by eexists. }
    rewrite (prefix_snoc_inj lr m x p) by done.
    by apply lookup_rm_under.
Qed.

(** The walk has stopped below [lr ++ t], which holds something else:
    the root directory stays. *)
Lemma root_stays fs lr t y d R U p :
  wf_fs fs = true → fs !! (lr ++ t ++ [y]) = Some d →
  (lr ++ t ++ [y]) `prefix_of` p → lonely fs (lr ++ t) p = false →
  removeDirIfEmpty (render lr) false (mkState (rm (lr ++ t ++ [y]) fs) R [] U)
  = (mkState (rm (lr ++ t ++ [y]) fs) R [] U, Ok false).
Proof.
  intros Hwf Hy Hpre Hl.
  pose proof (wf_valid _ _ _ Hwf Hy) as [Hv _]%Forall_app.
  apply settled_second; [by apply wf_rm | done |].
  right. cbn [disk]. split.
  - rewrite lookup_rm_other.
    + eapply (wf_above _ _ (t ++ [y])); [done | exact Hy |].
      by destruct t.
    + intros Hp%prefix_length. rewrite !length_app in Hp. simpl in Hp. lia.
  - destruct t as [|a t].
    + rewrite app_nil_r in Hl. simpl in *.
      apply lonely_false in Hl as (m & Hm & Hnp). exists m.
      rewrite lookup_rm_other; [done |].
      intros [k Hk]. destruct Hnp.
      assert (k = []) as ->.
      { apply (f_equal length) in Hk. rewrite !length_app in Hk.
        simpl in Hk. destruct k; [done | simpl in Hk; lia]. }
      rewrite Hk, app_nil_r. exact Hpre.
    + exists a. rewrite lookup_rm_other.
      * exists true. eapply (wf_above _ _ (t ++ [y])); [done | | by destruct t].
        rewrite <- app_assoc. exact Hy.
      * intros Hp%prefix_length. rewrite ?length_app in Hp.
        simpl in Hp. rewrite ?length_app in Hp. simpl in Hp. lia.
Qed.

(** X19.  In a well-formed file system let the plan hold the single
    regular file [p] below the root directory [lr], and let [top] be a
    path from [lr] down to [p] such that every directory from [top] down
    to the directory of [p] holds nothing besides the way to [p], and
    such that [top] is the root directory or the directory above [top]
    holds something else.  The real run returns no error and removes
    [p] and the directories above it up to [top], the lowest first, and
    nothing else: what is left is the file system without [top] and
    what is below it.  The dry run reports the same paths in the same
    order and leaves the disk as it is. *)
Theorem walk_up_correct product fs lr t below :
  let top := lr ++ t in
  let p := top ++ below in
  let removed := up top below in
  wf_fs fs = true → fs !! p = Some false → t ++ below ≠ [] →
  (∀ d, d ∈ removed → d ≠ p → lonely fs d p = true) →
  (t = [] ∨ lonely fs (parent top) p = false) →
  let removePaths : gmap string pathInfo :=
    {[ render p := {| rootDir := render lr; isDir := false |} ]} in
  let real := Execute product removePaths false (start fs) in
  let dry := Execute product removePaths true (start fs) in
  (real.2 = Ok () ∧
   unlinked real.1 = render <$> removed ∧
   disk real.1 = rm top fs ∧
   (∀ k, disk real.1 !! k = if bool_decide (k ∈ removed) then None else fs !! k)) ∧
  (dry.2 = Ok () ∧
   stdout dry.1 = header_line product :: (path_line <$> (render <$> removed)) ∧
   disk dry.1 = fs).
Proof.
  intros top p removed Hwf Hfile Hne Hlon Htop removePaths real dry.
  pose proof (below_top_on_way fs top below Hwf Hfile Hlon) as Hway.
  pose proof (wf_valid _ _ _ Hwf Hfile) as Hv.
  assert (∃ rest n, p = lr ++ rest ++ [n]) as (rest & n & Hp).
  { destruct (exists_last Hne) as (rest & n & E). exists rest, n.
    subst p top. by rewrite <- app_assoc, E. }
  assert (∃ R, real = (mkState (rm top fs) R [] (render <$> removed), Ok ()))
    as [R Hreal].
  { subst real removePaths. rewrite Execute_single.
    destruct (decide (t = [])) as [->|Ht].
    - subst top p removed. rewrite app_nil_r in *. simpl in Hne.
      clear rest n Hp.
      destruct (exists_last Hne) as (rest & n & ->).
      assert (∃ x k, rest ++ [n] = x :: k) as (x & k & E).
      { destruct rest; simpl; eauto. }
      assert (∀ d, d ∈ up (lr ++ []) rest → d ≠ lr ++ [] →
                   lonely fs d (lr ++ rest ++ [n]) = true) as Hl.
      { intros d Hd Hd'. rewrite app_nil_r in Hd.
        apply Hlon; [rewrite up_snoc; by right |].
        intros ->. apply up_elem_length in Hd. rewrite !length_app in Hd.
        simpl in Hd. lia. }
      destruct (cleanPath_walk fs lr (lr ++ rest ++ [n]) Hwf [] rest n
                  Hfile (reflexivity _) Hl (or_introl eq_refl)) as [R HR].
      change (lr ++ [] ++ rest ++ [n]) with (lr ++ rest ++ [n]) in HR.
      rewrite HR.
      rewrite app_nil_r. simpl app at 1.
      replace (take 1 (rest ++ [n])) with [x] by (by rewrite E).
      rewrite (root_goes fs lr x _ _ (lr ++ rest ++ [n])).
      + eexists. f_equal. f_equal.
        rewrite up_snoc. destruct (up_last lr rest) as [l ->].
        rewrite removelast_last, fmap_cons, fmap_app. done.
      + done.
      + by apply Forall_app in Hv as [? _].
      + eapply (wf_above _ _ (rest ++ [n])); [done | exact Hfile |].
        by rewrite E.
      + rewrite E. exists k. by rewrite <- app_assoc.
      + apply Hlon.
        * destruct (up_last lr (rest ++ [n])) as [l ->].
          apply elem_of_app. right. apply list_elem_of_here.
        * intros E'. apply (f_equal length) in E'.
          rewrite !length_app in E'. simpl in E'. lia.
    - destruct (exists_last Ht) as (t' & y & ->).
      destruct Htop as [Htop|Htop]; [by destruct t' |].
      subst top. unfold parent in Htop.
      rewrite app_assoc, removelast_last in Htop.
      clear rest n Hp.
      destruct (decide (below = [])) as [->|Hb].
      + subst p removed. rewrite app_nil_r in *. simpl up.
        assert (∀ d, d ∈ up (lr ++ t') [] → d ≠ lr ++ t' →
                     lonely fs d (lr ++ t' ++ [y]) = true) as Hl.
        { by intros d ->%list_elem_of_singleton Hd. }
        destruct (cleanPath_walk fs lr (lr ++ t' ++ [y]) Hwf t' [] y
                    Hfile (reflexivity _) Hl (or_intror Htop)) as [R HR].
        change (lr ++ t' ++ [] ++ [y]) with (lr ++ t' ++ [y]) in HR.
        rewrite HR. simpl.
        erewrite root_stays; [by eexists | done.. ].
      + destruct (exists_last Hb) as (b & c & ->).
        subst p removed.
        replace ((lr ++ t' ++ [y]) ++ b ++ [c])
          with (lr ++ t' ++ (y :: b) ++ [c]) in *
          by (by rewrite <- !app_assoc).
        assert (∀ d, d ∈ up (lr ++ t') (y :: b) → d ≠ lr ++ t' →
                     lonely fs d (lr ++ t' ++ (y :: b) ++ [c]) = true) as Hl.
        { simpl up.
          intros d [Hd| ->%list_elem_of_singleton]%elem_of_app Hd'; [|done].
          apply Hlon.
          - rewrite up_snoc. right. by rewrite <- app_assoc in Hd.
          - intros ->. apply up_elem_length in Hd.
            rewrite ?length_app in Hd. simpl in Hd.
            rewrite ?length_app in Hd. simpl in Hd. lia. }
        destruct (cleanPath_walk fs lr (lr ++ t' ++ (y :: b) ++ [c])
                    Hwf t' (y :: b) c
                    Hfile (reflexivity _) Hl (or_intror Htop)) as [R HR].
        rewrite HR. simpl take. simpl up. rewrite removelast_last.
        erewrite root_stays.
        * eexists. f_equal. f_equal. rewrite up_snoc, fmap_cons.
          f_equal; [by rewrite <- !app_assoc |].
          by rewrite <- app_assoc.
        * done.
        * eapply (wf_above _ _ (b ++ [c])); [done | | by destruct b].
          rewrite <- !app_assoc. exact Hfile.
        * exists (b ++ [c]). by rewrite <- !app_assoc.
        * done. }
  split.
  - rewrite Hreal. simpl. do 3 (split; [done |]).
    intros k. case_bool_decide as Hk.
    + apply lookup_rm_under. by apply elem_of_up in Hk as [? _].
    + destruct (decide (top `prefix_of` k)) as [[s ->]|Hnp];
        [|by apply lookup_rm_other].
      rewrite lookup_rm_under by (by apply prefix_app_r).
      destruct (fs !! (top ++ s)) as [dk|] eqn:Ek; [|done].
      destruct Hk. apply Hway. by eexists.
  - pose proof Hreal as Hreal'. subst real dry removePaths.
    rewrite Execute_real_start in Hreal'.
    rewrite Execute_dry_start.
    rewrite Hp in Hv.
    eapply (sim_run fs [header_line product]) in Hreal'
      as (sd' & -> & Hd & Hu & _ & _ & _ & Hout & _).
    + simpl. split; [done |]. split; [|done]. by rewrite Hout.
    + done.
    + rewrite Hp. by apply (plan_ok_singleton lr rest n).
    + unfold all_present. rewrite map_to_list_singleton. simpl.
      rewrite andb_true_r. apply bool_decide_eq_true.
      rewrite Hp, resolve_render by done. rewrite <- Hp. by eexists.
    + unfold none_nested. rewrite map_to_list_singleton. simpl.
      by rewrite bool_decide_eq_true_2.
    + rewrite sortedPaths_singleton. apply NoDup_singleton.
    + intros q. by apply sortedPaths_elem.
    + repeat split; done.
    + intros q _. apply covered_empty.
Qed.

End WalkUp.

(* ===================================================================== *)
(** ** The code on the scenarios *)
(* ===================================================================== *)

Section Runs.
Import OS Paths Clean Scenario.
#[local] Arguments GoPath.Join : simpl never.

(** [removeDirIfEmpty] on the empty directory [/out/v1], real run. *)
Lemma removeDirIfEmpty_semantics_witness :
  ReadDir (disk (start fs_one_dir)) "/out/v1" = inr [] ∧
  (removeDirIfEmpty "/out/v1" false (start fs_one_dir)).2 = Ok true.
Proof.
  split; [vm_compute; reflexivity |].
  destruct (removeDirIfEmpty_semantics (start fs_one_dir) "/out/v1" false [])
    as [H _]; [vm_compute; reflexivity |].
  apply H. split; [reflexivity | vm_compute; reflexivity].
Defined.

(** C5 on the code: the working directory [.] is empty, and
    [removeDirIfEmpty] does not remove it in a real run: [os.RemoveAll]
    refuses a path that ends in [.], and the call returns "failed to
    remove directory" with nothing removed or recorded.  The dry run
    returns [true] for the same directory.  [Run] comes to this call
    for a product that is built into the working directory: it removes
    the binary and the directories above it, and returns the error. *)
Lemma removeDirIfEmpty_refuses_dot :
  let r := Run_here false (start fs_here) in
  ReadDir fs_top "." = inr [] ∧
  removeDirIfEmpty "." false (start fs_top)
  = (start fs_top, Err (ErrRemoveDirectory "." EINVAL)) ∧
  (removeDirIfEmpty "." true (start fs_top)).2 = Ok true ∧
  r.2 = Err (ErrRemoveDirectory "." EINVAL) ∧
  unlinked r.1 = ["1.0.0/linux-amd64/app"; "1.0.0/linux-amd64"; "1.0.0"] ∧
  disk r.1 = fs_top.
Proof. cbv zeta. repeat split; vm_compute; reflexivity. Qed.

(** The step of [Run] for [/a/f] with root directory [/b], dry run. *)
Lemma root_check_witness :
  GoStrings.Contains "/a/f" "/b" = false ∧
  (cleanPath true "/a/f" (file "/b") (start fs_stray)).2
  = Err (ErrRootDir "/b" "/a/f").
Proof.
  split; [vm_compute; reflexivity |].
  destruct (root_check true "/a/f" (file "/b") (start fs_stray))
    as (_ & H & _); [vm_compute; reflexivity |].
  apply H. reflexivity.
Defined.

(** C4 on the code: the plan entry [/a/f] names the root directory
    [/b], under which the path does not lie.  The real run returns the
    error of the check, and by then it has removed [/a/f]: the check
    comes after the removal of the path, not before it. *)
Lemma root_check_after_removal :
  let r := Execute "app" plan_stray false (start fs_stray) in
  plan_stray !! "/a/f" = Some (file "/b") ∧
  ¬ resolve "/b" `prefix_of` resolve "/a/f" ∧
  fs_stray !! resolve "/a/f" = Some false ∧
  r.2 = Err (ErrRootDir "/b" "/a/f") ∧
  unlinked r.1 = ["/a/f"] ∧
  disk r.1 !! resolve "/a/f" = None.
Proof.
  cbv zeta. split; [vm_compute; reflexivity |].
  split; [apply (bool_decide_eq_false_1 _); vm_compute; reflexivity |].
  repeat split; vm_compute; reflexivity.
Qed.

(** The dry run and the real run on the output of a build. *)
Lemma dry_run_parity_witness :
  wf_fs fs_bin = true ∧ plan_ok plan_bin = true ∧
  Effects.all_present fs_bin plan_bin = true ∧
  Effects.none_nested plan_bin = true ∧
  (Execute "app" plan_bin false (start fs_bin)).2 = Ok () ∧
  stdout (Execute "app" plan_bin true (start fs_bin)).1
  = header_line "app"
      :: (path_line <$> unlinked (Execute "app" plan_bin false (start fs_bin)).1).
Proof.
  repeat (split; [vm_compute; reflexivity |]).
  destruct (dry_run_parity "app" plan_bin fs_bin) as (_ & H & _);
    [vm_compute; reflexivity.. |].
  exact H.
Defined.

(** C1 on the code: [Run] for the product [app] where
    [/out/v1/linux-amd64/app] is a directory that is not empty.
    [cleanBinOutput] takes it for the binary, and the plan has it as a
    file.  The real run fails on it and removes nothing; the dry run
    reports it, the three directories above it, and returns no error. *)
Lemma dry_run_reports_more :
  let real := Run_app false (start fs_dir_as_bin) in
  let dry := Run_app true (start fs_dir_as_bin) in
  real.2 = Err (ErrRemoveFile "/out/v1/linux-amd64/app" ENOTEMPTY) ∧
  unlinked real.1 = [] ∧ disk real.1 = fs_dir_as_bin ∧
  dry.2 = Ok () ∧
  stdout dry.1 = [header_line "app"; path_line "/out/v1/linux-amd64/app";
                  path_line "/out/v1/linux-amd64"; path_line "/out/v1";
                  path_line "/out"].
Proof. cbv zeta. repeat split; vm_compute; reflexivity. Qed.

(** C6 on the code: [Run] for the product [app] where
    [/out/v1/linux-amd64/app] is a directory that is not empty.  The
    first real run fails on it, and the second real run, on the file
    system that the first has left, fails on it again. *)
Lemma second_Run_fails_again :
  let first := Run_app false (start fs_dir_as_bin) in
  let second := Run_app false (start (disk first.1)) in
  wf_fs fs_dir_as_bin = true ∧
  first.2 = Err (ErrRemoveFile "/out/v1/linux-amd64/app" ENOTEMPTY) ∧
  second.2 = Err (ErrRemoveFile "/out/v1/linux-amd64/app" ENOTEMPTY).
Proof. cbv zeta. repeat split; vm_compute; reflexivity. Qed.

(** A real run that returns no error, on a plan with a path below
    another one: the real run removes [app-bin] with all that is in it
    and then the distribution directory, the dry run goes on to report
    the binary and the directories above it, [app-bin] for the second
    time. *)
Lemma dry_run_reports_twice :
  let real := Execute "app" plan_inside false (start fs_inside) in
  let dry := Execute "app" plan_inside true (start fs_inside) in
  wf_fs fs_inside = true ∧ plan_ok plan_inside = true ∧
  Effects.all_present fs_inside plan_inside = true ∧
  real.2 = Ok () ∧
  unlinked real.1 = ["/proj/dist/app-bin"; "/proj/dist"] ∧
  dry.2 = Ok () ∧
  stdout dry.1 = [header_line "app"; path_line "/proj/dist/app-bin";
                  path_line "/proj/dist";
                  path_line "/proj/dist/app-bin/v1/linux-amd64/app";
                  path_line "/proj/dist/app-bin/v1/linux-amd64";
                  path_line "/proj/dist/app-bin/v1";
                  path_line "/proj/dist/app-bin"].
Proof. cbv zeta. repeat split; vm_compute; reflexivity. Qed.

(** The real run on [root/a/b/c/file]. *)
Lemma cascade_correct_witness :
  wf_fs fs_abc = true ∧
  entries fs_abc ["root"; "a"; "b"; "c"] = [{| Name := "file"; IsDir := false |}] ∧
  entries fs_abc ["root"; "a"; "b"] = [{| Name := "c"; IsDir := true |}] ∧
  fs_abc !! ["root"; "a"; "other"] = Some false ∧
  unlinked (Execute "app" plan_abc false (start fs_abc)).1
  = ["/root/a/b/c/file"; "/root/a/b/c"; "/root/a/b"].
Proof.
  repeat (split; [vm_compute; reflexivity |]).
  destruct (cascade_correct "app" fs_abc ["root"] "a" "b" "c" "file" "other"
              false) as [(_ & H & _) _];
    [vm_compute; reflexivity.. | discriminate |].
  exact H.
Defined.

(** The path functions on some paths. *)
Example Clean_examples :
  GoPath.Clean "/a//b/./c/../d/" = "/a/b/d" ∧
  GoPath.Clean "../a/../.." = "../.." ∧
  GoPath.Clean "/.." = "/" ∧ GoPath.Clean "" = ".".
Proof. repeat split. Qed.

Example Dir_examples :
  GoPath.Dir "/a/b/c" = "/a/b" ∧ GoPath.Dir "/a" = "/" ∧
  GoPath.Dir "/" = "/" ∧ GoPath.Dir "a" = "." ∧ GoPath.Dir "a/b/" = "a/b".
Proof. repeat split. Qed.

Example Base_examples :
  GoPath.Base "/a/b/" = "b" ∧ GoPath.Base "///" = "/" ∧ GoPath.Base "" = ".".
Proof. repeat split. Qed.

Example Join_examples :
  GoPath.Join ["/a"; ""; "b/"; "c"] = "/a/b/c" ∧ GoPath.Join [""; ""] = "" ∧
  GoPath.Join ["/"; "out"] = "/out".
Proof. repeat split. Qed.

Example Sort_example :
  GoStrings.Sort ["/b"; "/a/c"; "/a"] = ["/a"; "/a/c"; "/b"].
Proof. vm_compute. reflexivity. Qed.

(** [Run] when the output directory is not there. *)
Example Run_no_output :
  cleanBinOutput fs_no_output "/out" {[ "app" := [] ]} = inr ∅ ∧
  Run_app false (start fs_no_output) = (start fs_no_output, Ok ()).
Proof. split; vm_compute; reflexivity. Qed.

(** The manual dister on an artifact that is missing, that is a
    directory, and that is a file. *)
Example GenerateDistArtifacts_examples :
  Dister.GenerateDistArtifacts {| Dister.Extension := "tgz" |} "/out/app-1.0.0"
    fs_bin
  = Dister.Return
      (Some (Dister.ErrNotExist "/out/app-1.0.0.tgz" (Some ENOENT))) ∧
  Dister.GenerateDistArtifacts {| Dister.Extension := "" |} "/out/v1" fs_bin
  = Dister.Return (Some (Dister.ErrIsDirectory "/out/v1")) ∧
  Dister.GenerateDistArtifacts {| Dister.Extension := "" |}
    "/out/v1/linux-amd64/app" fs_bin
  = Dister.Return None.
Proof. repeat split; vm_compute; reflexivity. Qed.

End Runs.

(* ===================================================================== *)
(** ** The code on a project *)
(* ===================================================================== *)

Section MoreRuns.
Import OS Paths Clean Scenario Outputs CleanProducts Builds.
#[local] Arguments GoPath.Join : simpl never.

(** [cleanBinOutput] on the output of a build. *)
Lemma cleanBinOutput_finds_witness :
  wf_fs fs_bin = true ∧ abs_clean "/out" = true ∧
  cleanBinOutput fs_bin "/out" {[ "app" := [linux_amd64] ]}
  = inr {[ "/out/v1/linux-amd64/app" ]} ∧
  ∃ tag osArch product prodOSArchs currOSArch,
    "/out/v1/linux-amd64/app"
    = render (resolve "/out" ++ [tag; osArch; product]) ∧
    fs_bin !! (resolve "/out" ++ [tag]) = Some true ∧
    fs_bin !! (resolve "/out" ++ [tag; osArch]) = Some true ∧
    is_Some (fs_bin !! (resolve "/out" ++ [tag; osArch; product])) ∧
    ({[ "app" := [linux_amd64] ]} : gmap string (list OSArch)) !! product
    = Some prodOSArchs ∧
    currOSArch ∈ prodOSArchs ∧ OSArch_String currOSArch = osArch.
Proof.
  repeat (split; [vm_compute; exact eq_refl |]).
  apply (cleanBinOutput_finds fs_bin "/out" {[ "app" := [linux_amd64] ]}
           {[ "/out/v1/linux-amd64/app" ]});
    [vm_compute; exact eq_refl.. |].
  by apply elem_of_singleton.
Defined.

(** The iteration of [Run_proj] for its distribution. *)
Lemma distPaths_plans_witness :
  wf_fs fs_proj = true ∧
  (∃ s, ProjectDir dist (Spec dist spec_proj) = String "/" s) ∧
  forallb compilesText
    (distDirRegexps dist (fun _ d => dist_Artifacts d) (Spec dist spec_proj)
       {| dist_OutputDir := "dist";
          dist_Artifacts := ["/proj/dist/app.tgz"] |}) = true ∧
  ∃ removePaths,
    distPaths dist dist_OutputDir (fun _ d => dist_Artifacts d) compilesText
              matchString fs_proj (Spec dist spec_proj) ∅
              {| dist_OutputDir := "dist";
                 dist_Artifacts := ["/proj/dist/app.tgz"] |}
    = Some removePaths ∧
    removePaths !! "/proj/dist/app-1.0.0.tgz"
    = Some {| rootDir := "/proj/dist"; isDir := false |}.
Proof.
  split; [vm_compute; exact eq_refl |]. split; [by eexists |].
  split; [vm_compute; exact eq_refl |].
  destruct (distPaths_plans dist dist_OutputDir (fun _ d => dist_Artifacts d)
              compilesText matchString fs_proj (Spec dist spec_proj) ∅
              {| dist_OutputDir := "dist";
                 dist_Artifacts := ["/proj/dist/app.tgz"] |})
    as (removePaths & Hd & Hin);
    [vm_compute; exact eq_refl | by eexists | vm_compute; exact eq_refl |].
  exists removePaths. split; [exact Hd |].
  apply Hin. left. exists "app-1.0.0.tgz", false.
  repeat split; vm_compute; exact eq_refl.
Defined.

(** The plan of [Run_proj]. *)
Lemma Run_plans_witness :
  wf_fs fs_proj = true ∧
  plan dist dist_OutputDir (fun _ d => dist_Artifacts d) compilesText
       matchString fs_proj spec_proj = Ok plan_proj ∧
  ∀ p info, binEntry dist fs_proj spec_proj p info → is_Some (plan_proj !! p).
Proof.
  split; [vm_compute; exact eq_refl |]. split; [vm_compute; exact eq_refl |].
  apply (Run_plans dist dist_OutputDir (fun _ d => dist_Artifacts d)
           compilesText matchString spec_proj fs_proj);
    [vm_compute; exact eq_refl | by eexists | vm_compute; exact eq_refl].
Defined.

(** What [Run_proj] removes lies at or below [/proj/build] and
    [/proj/dist], the root directories of its plan. *)
Lemma Run_boundary_respected_witness :
  wf_fs fs_proj = true ∧
  (∃ s, ProjectDir dist (Spec dist spec_proj) = String "/" s) ∧
  plan dist dist_OutputDir (fun _ d => dist_Artifacts d) compilesText
       matchString fs_proj spec_proj = Ok plan_proj ∧
  Forall (fun x => Effects.in_some_root plan_proj (resolve x))
         (unlinked (Run_proj false (start fs_proj)).1) ∧
  ∀ k, ¬ Effects.in_some_root plan_proj k →
       disk (Run_proj false (start fs_proj)).1 !! k = fs_proj !! k.
Proof.
  assert (plan dist dist_OutputDir (fun _ d => dist_Artifacts d) compilesText
               matchString fs_proj spec_proj = Ok plan_proj) as Hplan
      by (vm_compute; exact eq_refl).
  split; [vm_compute; exact eq_refl |]. split; [by eexists |].
  split; [exact Hplan |].
  pose proof (Run_boundary_respected dist dist_OutputDir
                (fun _ d => dist_Artifacts d) compilesText matchString
                spec_proj fs_proj eq_refl (ex_intro _ "proj" eq_refl) false)
    as H.
  cbv zeta in H. rewrite Hplan in H.
  destruct H as (_ & Hu & _ & Hk). split; [exact Hu | exact Hk].
Defined.

(** [Run_proj] leaves [/proj/README] alone. *)
Lemma Run_stays_in_output_witness :
  wf_fs fs_proj = true ∧
  ∀ k, ¬ in_output dist dist_OutputDir spec_proj k →
       disk (Run_proj false (start fs_proj)).1 !! k = fs_proj !! k.
Proof.
  split; [vm_compute; exact eq_refl |].
  apply (Run_stays_in_output dist dist_OutputDir (fun _ d => dist_Artifacts d)
           compilesText matchString spec_proj fs_proj);
    [vm_compute; exact eq_refl | by eexists].
Defined.

(** The dry run of [Run_proj], and the dry run for the product name
    [app++]. *)
Lemma dry_Run_returns_nil_witness :
  wf_fs fs_proj = true ∧
  compiles dist (fun _ d => dist_Artifacts d) compilesText spec_proj = true ∧
  (Run_proj true (start fs_proj)).2 = Ok () ∧
  compiles dist (fun _ d => dist_Artifacts d) compilesText spec_plus = false ∧
  Run_plus true (start fs_proj) = (start fs_proj, Panic).
Proof.
  split; [vm_compute; exact eq_refl |].
  split; [vm_compute; exact eq_refl |].
  split; [|split; [vm_compute; exact eq_refl |]].
  - apply (dry_Run_returns_nil dist dist_OutputDir
             (fun _ d => dist_Artifacts d) compilesText matchString
             spec_proj fs_proj);
      [vm_compute; exact eq_refl | by eexists | vm_compute; exact eq_refl].
  - apply (dry_Run_returns_nil dist dist_OutputDir
             (fun _ d => dist_Artifacts d) compilesText matchString
             spec_plus fs_proj);
      [vm_compute; exact eq_refl | by eexists | vm_compute; exact eq_refl].
Defined.

(** [Run_app] on a directory in the place of the binary. *)
Lemma real_Run_fails_on_directory_witness :
  wf_fs fs_dir_as_bin = true ∧
  ((Run_app false (start fs_dir_as_bin)).2 = Ok () ∨
   ∃ p info,
     binEntry Empty_set fs_dir_as_bin spec_app p info ∧
     (Run_app false (start fs_dir_as_bin)).2 = Err (ErrRemoveFile p ENOTEMPTY) ∧
     fs_dir_as_bin !! resolve p = Some true ∧
     ∃ n, is_Some (disk (Run_app false (start fs_dir_as_bin)).1
                     !! (resolve p ++ [n]))).
Proof.
  split; [vm_compute; exact eq_refl |].
  apply (real_Run_fails_on_directory Empty_set (fun d => match d with end)
           (fun _ _ => []) (fun _ => true) (fun _ _ => false) spec_app
           fs_dir_as_bin);
    [vm_compute; exact eq_refl | by eexists | vm_compute; exact eq_refl].
Defined.

(** The two real runs of [Run_proj]. *)
Lemma second_Run_removes_nothing_witness :
  wf_fs fs_proj = true ∧
  (Run_proj false (start fs_proj)).2 = Ok () ∧
  (Run_proj false (start (disk (Run_proj false (start fs_proj)).1))).2
  = Ok () ∧
  unlinked
    (Run_proj false (start (disk (Run_proj false (start fs_proj)).1))).1
  = [].
Proof.
  split; [vm_compute; exact eq_refl |]. split; [vm_compute; exact eq_refl |].
  destruct (second_Run_removes_nothing dist dist_OutputDir
              (fun _ d => dist_Artifacts d) compilesText matchString
              spec_proj fs_proj)
    as (_ & H1 & H2 & _);
    [vm_compute; exact eq_refl | by eexists | vm_compute; exact eq_refl |].
  split; [exact H1 | exact H2].
Defined.

(** [Run_proj] twice. *)
Lemma Run_again_witness :
  wf_fs fs_proj = true ∧
  (Run_proj false (start fs_proj)).2 = Ok () ∧
  Run_proj true (start (disk (Run_proj false (start fs_proj)).1))
  = (mkState (disk (Run_proj false (start fs_proj)).1) ∅
             [header_line "app"] [], Ok ()).
Proof.
  split; [vm_compute; exact eq_refl |]. split; [vm_compute; exact eq_refl |].
  apply (Run_again dist dist_OutputDir (fun _ d => dist_Artifacts d)
           compilesText matchString spec_proj fs_proj);
    [vm_compute; exact eq_refl | by eexists | vm_compute; exact eq_refl].
Defined.

(** The real run of [plan_bin]. *)
Lemma real_run_removes_plan_witness :
  (Execute "app" plan_bin false (start fs_bin)).2 = Ok () ∧
  ∃ e, Stat (disk (Execute "app" plan_bin false (start fs_bin)).1)
            "/out/v1/linux-amd64/app" = inl e.
Proof.
  split; [vm_compute; exact eq_refl |].
  apply (real_run_removes_plan "app" plan_bin (start fs_bin));
    [vm_compute; exact eq_refl |].
  exists (file "/out"). vm_compute. exact eq_refl.
Defined.

(** The real run of [plan_abc] leaves [other]. *)
Lemma unplanned_files_stay_witness :
  wf_fs fs_abc = true ∧
  fs_abc !! ["root"; "a"; "other"] = Some false ∧
  disk (Execute "app" plan_abc false (start fs_abc)).1 !! ["root"; "a"]
  = fs_abc !! ["root"; "a"].
Proof.
  split; [vm_compute; exact eq_refl |]. split; [vm_compute; exact eq_refl |].
  apply (unplanned_files_stay "app" plan_abc fs_abc ["root"; "a"; "other"]).
  - vm_compute. exact eq_refl.
  - vm_compute. exact eq_refl.
  - intros p [info Hp]. unfold plan_abc in Hp.
    apply lookup_singleton_Some in Hp as [<- _].
    apply (bool_decide_eq_false_1 _). vm_compute. exact eq_refl.
  - by exists ["other"].
Defined.

(** The dry run of [plan_bin]. *)
Lemma dry_run_lists_plan_witness :
  (Execute "app" plan_bin true (start fs_bin)).2 = Ok () ∧
  ∃ paths ys,
    stdout (Execute "app" plan_bin true (start fs_bin)).1
    = stdout (start fs_bin) ++ header_line "app" :: (path_line <$> ys) ∧
    paths `sublist_of` ys ∧
    StronglySorted GoStrings.le paths ∧ NoDup paths ∧
    ∀ p, p ∈ paths ↔ is_Some (plan_bin !! p).
Proof.
  split; [vm_compute; exact eq_refl |].
  apply (dry_run_lists_plan "app" plan_bin (start fs_bin)).
  vm_compute. exact eq_refl.
Defined.

(** [Products] for two products, on a directory in the place of the
    binary of the first. *)
Lemma Products_stops_at_failure_witness :
  Run Empty_set (fun d => match d with end) (fun _ _ => [])
      (fun _ => true) (fun _ _ => false) spec_app false (start fs_dir_as_bin)
  = (start fs_dir_as_bin,
     Err (ErrRemoveFile "/out/v1/linux-amd64/app" ENOTEMPTY)) ∧
  Products Empty_set (fun d => match d with end) (fun _ _ => [])
           (fun _ => true) (fun _ _ => false) unit Empty_set specs_app
           ["app"; "app"] () false "/" (start fs_dir_as_bin)
  = (start fs_dir_as_bin,
     Return (Some (ErrFailedToClean "app"
                     (ErrRemoveFile "/out/v1/linux-amd64/app" ENOTEMPTY)))).
Proof.
  split; [vm_compute; exact eq_refl |].
  destruct (Products_stops_at_failure Empty_set (fun d => match d with end)
              (fun _ _ => []) (fun _ => true) (fun _ _ => false) unit
              Empty_set specs_app
              ["app"; "app"] () false "/" (start fs_dir_as_bin))
    as (_ & H & _).
  apply (H [] spec_app [spec_app] (start fs_dir_as_bin));
    [reflexivity | reflexivity | vm_compute; exact eq_refl].
Defined.

(** [removeDirIfEmpty] on the regular file [/proj/dist] and on a path
    below it. *)
Lemma removeDirIfEmpty_off_directory_witness :
  wf_fs fs_no_output = true ∧ abs_clean "/proj/dist" = true ∧
  fs_no_output !! resolve "/proj/dist" = Some false ∧
  removeDirIfEmpty "/proj/dist" false (start fs_no_output)
  = (start fs_no_output, Err (ErrReadDirectory "/proj/dist" ENOTDIR)).
Proof.
  do 3 (split; [vm_compute; exact eq_refl |]).
  apply (removeDirIfEmpty_off_directory "/proj/dist" false (start fs_no_output)).
  - vm_compute. exact eq_refl.
  - vm_compute. exact eq_refl.
  - left. vm_compute. exact eq_refl.
Defined.

(** The dry run of [Products] for the product [app], twice, on the
    output of a build: the binary is listed twice. *)
Lemma Products_dry_run_each_alone_witness :
  let r :=
    Products Empty_set (fun d => match d with end) (fun _ _ => [])
             (fun _ => true) (fun _ _ => false) unit Empty_set specs_app
             ["app"; "app"] () true "/" (start fs_bin) in
  r.2 = Return None ∧
  stdout r.1
  = stdout (start fs_bin)
      ++ concat ((fun specWithDeps =>
                    stdout (Run Empty_set (fun d => match d with end)
                                (fun _ _ => []) (fun _ => true)
                                (fun _ _ => false)
                                specWithDeps true (start fs_bin)).1)
                   <$> [spec_app; spec_app]).
Proof.
  cbv zeta. split; [vm_compute; exact eq_refl |].
  apply (Products_dry_run_each_alone Empty_set (fun d => match d with end)
           (fun _ _ => []) (fun _ => true) (fun _ _ => false) unit Empty_set
           specs_app
           ["app"; "app"] () "/" [spec_app; spec_app] (start fs_bin));
    [reflexivity |].
  vm_compute. exact eq_refl.
Defined.

(** The walk up from the only binary of a build takes the output
    directory with it. *)
Lemma walk_up_correct_witness :
  wf_fs fs_bin = true ∧
  fs_bin !! ["out"; "v1"; "linux-amd64"; "app"] = Some false ∧
  unlinked (Execute "app" plan_bin false (start fs_bin)).1
  = ["/out/v1/linux-amd64/app"; "/out/v1/linux-amd64"; "/out/v1"; "/out"] ∧
  disk (Execute "app" plan_bin false (start fs_bin)).1 = rm ["out"] fs_bin.
Proof.
  split; [vm_compute; exact eq_refl |].
  split; [vm_compute; exact eq_refl |].
  destruct (walk_up_correct "app" fs_bin ["out"] [] ["v1"; "linux-amd64"; "app"])
    as [(_ & H1 & H2 & _) _].
  - vm_compute; exact eq_refl.
  - vm_compute; exact eq_refl.
  - discriminate.
  - intros d Hd _. simpl in Hd.
    repeat (apply elem_of_cons in Hd as [->|Hd]);
      try (vm_compute; exact eq_refl).
    by apply elem_of_nil in Hd.
  - by left.
  - split; [exact H1 | exact H2].
Defined.

End MoreRuns.
